(** * DynamicNavigation: a shallow embedding of [src/scripts/navigation.ts]

    The widget is a class whose methods mutate the inline styles of a few
    page elements and schedule delayed callbacks.  The embedding keeps that
    shape: the page is a store of elements keyed by their [id] attribute, the
    instance fields and the browser's timer queue live in one [World] record,
    every method is a function on worlds, and every closure handed to
    [setTimeout] is a constructor of [task] interpreted by [run_task].
    Of the two unfinished methods that nothing calls, [expandRowFromIndex]
    is embedded further down; the malformed [spareRoomAndDisplay] is left
    out.

    Numbers.  JavaScript numbers that the code only ever uses as integers
    (array lengths and indices, [offsetHeight], [innerWidth], timer delays of
    the toggle chains) are [nat], [N] or [Z]; measured quantities that may be
    fractional (bounding rectangles, [scrollTop], the transition pace) are
    exact rationals [Q].  Rounding of IEEE doubles and the non-finite values
    are outside the model. *)

From Stdlib Require Import ZArith QArith Qround Qminmax Lia Lqa.
From stdpp Require Import gmap strings list pretty.

Local Open Scope string_scope.
Local Open Scope list_scope.

(** ** Style values

    Inline style properties are strings.  The literals of the source are kept
    as strings; a template literal with a numeric hole is kept as a
    constructor carrying the number, so that no decimal printing of a
    JavaScript number has to be modelled. *)

Inductive css : Type :=
| Lit (s : string)              (* a string literal, e.g. 'translateY(0)' *)
| TranslateYPx (d : Q)          (* `translateY(${d}px)` *)
| TranslateYNegPx (d : Q)       (* `translateY(-${d}px)` *)
| Px (d : Q)                    (* `${d}px` *)
| TransformEaseOut (ms : Q).    (* `transform ${ms}ms ease-out` *)

Module Style.
Record t : Type := mk {
  position : css;
  zIndex : css;
  transition : css;
  transform : css;
  opacity : css;
  maxHeight : css;
  top : css;
  right : css
}.

(** An element without inline style: every property reads as ''. *)
Definition empty : t := mk (Lit "") (Lit "") (Lit "") (Lit "") (Lit "") (Lit "") (Lit "") (Lit "").

Definition set_position (v : css) (s : t) : t :=
  mk v (zIndex s) (transition s) (transform s) (opacity s) (maxHeight s) (top s) (right s).
Definition set_zIndex (v : css) (s : t) : t :=
  mk (position s) v (transition s) (transform s) (opacity s) (maxHeight s) (top s) (right s).
Definition set_transition (v : css) (s : t) : t :=
  mk (position s) (zIndex s) v (transform s) (opacity s) (maxHeight s) (top s) (right s).
Definition set_transform (v : css) (s : t) : t :=
  mk (position s) (zIndex s) (transition s) v (opacity s) (maxHeight s) (top s) (right s).
Definition set_opacity (v : css) (s : t) : t :=
  mk (position s) (zIndex s) (transition s) (transform s) v (maxHeight s) (top s) (right s).
Definition set_maxHeight (v : css) (s : t) : t :=
  mk (position s) (zIndex s) (transition s) (transform s) (opacity s) v (top s) (right s).
Definition set_top (v : css) (s : t) : t :=
  mk (position s) (zIndex s) (transition s) (transform s) (opacity s) (maxHeight s) v (right s).
Definition set_right (v : css) (s : t) : t :=
  mk (position s) (zIndex s) (transition s) (transform s) (opacity s) (maxHeight s) (top s) v.
End Style.

(** ** Elements and the page *)

Record Element : Type := mkElement {
  offsetHeight : N;          (* layout height, a non-negative integer *)
  rectTop : Q;               (* getBoundingClientRect().top *)
  rectBottom : Q;            (* getBoundingClientRect().bottom *)
  scrollTop : Q;
  style : Style.t;
  svg : option string;       (* innerHTML of the first <svg> descendant, if any *)
  span : option string       (* textContent of the first <span> descendant, if any *)
}.

Definition with_style (f : Style.t -> Style.t) (e : Element) : Element :=
  mkElement (offsetHeight e) (rectTop e) (rectBottom e) (scrollTop e) (f (style e)) (svg e) (span e).

Definition with_scrollTop (s : Q) (e : Element) : Element :=
  mkElement (offsetHeight e) (rectTop e) (rectBottom e) s (style e) (svg e) (span e).

Definition with_svg_span (i l : string) (e : Element) : Element :=
  mkElement (offsetHeight e) (rectTop e) (rectBottom e) (scrollTop e) (style e) (Some i) (Some l).

(** The page maps an [id] to its element; an element reference held by the
    widget is that [id]. *)
Abbreviation Dom := (gmap string Element).

Definition getElementById (d : Dom) (id : string) : option string :=
  match d !! id with Some _ => Some id | None => None end.

(** [el.style.p = v] for the element behind reference [r]. *)
Definition set_style (f : Style.t -> Style.t) (r : string) (d : Dom) : Dom :=
  alter (with_style f) r d.

(** [el.offsetHeight] as the integer it is. *)
Definition height_of (d : Dom) (r : string) : Z :=
  match d !! r with Some e => Z.of_N (offsetHeight e) | None => 0%Z end.

(** ** Timers

    A closure passed to [setTimeout] is one of the following; the arguments
    are exactly the variables the closure captures by value. *)

Inductive task : Type :=
| ExpandRowStep (i : nat) (distance scheduleTime : Q)  (* expandRow, loop body *)
| RowAppear (row : string)                            (* expandNavRows, per row *)
| TitlesReset                                         (* expandNavRows, last timer *)
| RowDisappear (row : string) (rowHeight : Z) (cell : nat)
                                                      (* collapse, per row *)
| ContainerHide                                       (* collapse, outer timer *)
| ResetAll.                                           (* collapse, inner timer *)

Record Timer : Type := mkTimer {
  t_delay : Q;        (* the delay argument as passed *)
  t_due : Z;          (* the millisecond at which it becomes runnable *)
  t_task : task
}.

(** ** The world: browser state and the instance fields *)

Record World : Type := mkWorld {
  (* browser *)
  dom : Dom;
  innerWidth : Z;
  now : Z;
  timers : list Timer;         (* pending timers, in order of creation *)
  cells : list Z;              (* one [totalMovedDistance] per collapse call *)
  rafPending : nat;            (* pending animation-frame callbacks *)
  ticking : bool;              (* the [ticking] variable of the scroll listener *)
  (* instance fields *)
  contentScroll : option string;
  navRow1 : option string;
  navToggle : option string;
  dynamicNavContainer : option string;
  titleRow1 : option string;
  titleRow2 : option string;
  displayedRowRegistry : list (option string);   (* [None] is [undefined] *)
  transitionPace : Q;
  lastScrollTop : Q;
  isNavExpanded : bool;
  navRows : list string;
  titleRows : list string;
  regionWhichTheTextIsAt : Z
}.

Definition MAX_NAV_ROWS : Z := 5.
Definition ANIMATION_DURATION : Z := 500.

(** Field updates ([this.f = v], or a change of browser state). *)

Definition set_dom (v : Dom) (w : World) : World :=
  mkWorld v (innerWidth w) (now w) (timers w) (cells w) (rafPending w) (ticking w)
    (contentScroll w) (navRow1 w) (navToggle w) (dynamicNavContainer w) (titleRow1 w)
    (titleRow2 w) (displayedRowRegistry w) (transitionPace w) (lastScrollTop w)
    (isNavExpanded w) (navRows w) (titleRows w) (regionWhichTheTextIsAt w).
Definition set_innerWidth (v : Z) (w : World) : World :=
  mkWorld (dom w) v (now w) (timers w) (cells w) (rafPending w) (ticking w)
    (contentScroll w) (navRow1 w) (navToggle w) (dynamicNavContainer w) (titleRow1 w)
    (titleRow2 w) (displayedRowRegistry w) (transitionPace w) (lastScrollTop w)
    (isNavExpanded w) (navRows w) (titleRows w) (regionWhichTheTextIsAt w).
Definition set_now (v : Z) (w : World) : World :=
  mkWorld (dom w) (innerWidth w) v (timers w) (cells w) (rafPending w) (ticking w)
    (contentScroll w) (navRow1 w) (navToggle w) (dynamicNavContainer w) (titleRow1 w)
    (titleRow2 w) (displayedRowRegistry w) (transitionPace w) (lastScrollTop w)
    (isNavExpanded w) (navRows w) (titleRows w) (regionWhichTheTextIsAt w).
Definition set_timers (v : list Timer) (w : World) : World :=
  mkWorld (dom w) (innerWidth w) (now w) v (cells w) (rafPending w) (ticking w)
    (contentScroll w) (navRow1 w) (navToggle w) (dynamicNavContainer w) (titleRow1 w)
    (titleRow2 w) (displayedRowRegistry w) (transitionPace w) (lastScrollTop w)
    (isNavExpanded w) (navRows w) (titleRows w) (regionWhichTheTextIsAt w).
Definition set_cells (v : list Z) (w : World) : World :=
  mkWorld (dom w) (innerWidth w) (now w) (timers w) v (rafPending w) (ticking w)
    (contentScroll w) (navRow1 w) (navToggle w) (dynamicNavContainer w) (titleRow1 w)
    (titleRow2 w) (displayedRowRegistry w) (transitionPace w) (lastScrollTop w)
    (isNavExpanded w) (navRows w) (titleRows w) (regionWhichTheTextIsAt w).
Definition set_rafPending (v : nat) (w : World) : World :=
  mkWorld (dom w) (innerWidth w) (now w) (timers w) (cells w) v (ticking w)
    (contentScroll w) (navRow1 w) (navToggle w) (dynamicNavContainer w) (titleRow1 w)
    (titleRow2 w) (displayedRowRegistry w) (transitionPace w) (lastScrollTop w)
    (isNavExpanded w) (navRows w) (titleRows w) (regionWhichTheTextIsAt w).
Definition set_ticking (v : bool) (w : World) : World :=
  mkWorld (dom w) (innerWidth w) (now w) (timers w) (cells w) (rafPending w) v
    (contentScroll w) (navRow1 w) (navToggle w) (dynamicNavContainer w) (titleRow1 w)
    (titleRow2 w) (displayedRowRegistry w) (transitionPace w) (lastScrollTop w)
    (isNavExpanded w) (navRows w) (titleRows w) (regionWhichTheTextIsAt w).
Definition set_lastScrollTop (v : Q) (w : World) : World :=
  mkWorld (dom w) (innerWidth w) (now w) (timers w) (cells w) (rafPending w) (ticking w)
    (contentScroll w) (navRow1 w) (navToggle w) (dynamicNavContainer w) (titleRow1 w)
    (titleRow2 w) (displayedRowRegistry w) (transitionPace w) v (isNavExpanded w)
    (navRows w) (titleRows w) (regionWhichTheTextIsAt w).
Definition set_isNavExpanded (v : bool) (w : World) : World :=
  mkWorld (dom w) (innerWidth w) (now w) (timers w) (cells w) (rafPending w) (ticking w)
    (contentScroll w) (navRow1 w) (navToggle w) (dynamicNavContainer w) (titleRow1 w)
    (titleRow2 w) (displayedRowRegistry w) (transitionPace w) (lastScrollTop w) v
    (navRows w) (titleRows w) (regionWhichTheTextIsAt w).
Definition set_regionWhichTheTextIsAt (v : Z) (w : World) : World :=
  mkWorld (dom w) (innerWidth w) (now w) (timers w) (cells w) (rafPending w) (ticking w)
    (contentScroll w) (navRow1 w) (navToggle w) (dynamicNavContainer w) (titleRow1 w)
    (titleRow2 w) (displayedRowRegistry w) (transitionPace w) (lastScrollTop w)
    (isNavExpanded w) (navRows w) (titleRows w) v.

(** ** Small JavaScript idioms *)

Inductive exn : Type := TypeError.

Inductive result (A : Type) : Type :=
| Ok (a : A)
| Throw (e : exn).
Arguments Ok {A} a.
Arguments Throw {A} e.

(** [x < y] on numbers. *)
Definition Qlt_bool (x y : Q) : bool := negb (Qle_bool y x).

(** [l.forEach((x, index) => f)], threading the state through. *)
Fixpoint forEach_index {A S : Type} (f : A -> nat -> S -> S) (l : list A) (index : nat) (s : S) : S :=
  match l with
  | [] => s
  | x :: l' => forEach_index f l' (Datatypes.S index) (f x index s)
  end.

(** [rows.forEach(row => { row.style... })]. *)
Definition style_each (f : Style.t -> Style.t) (rows : list string) (d : Dom) : Dom :=
  foldl (fun d' row => set_style f row d') d rows.

(** [a[i]] for a number [i]: out of range reads [undefined] ([None]). *)
Definition js_index (a : list (option string)) (i : Z) : option string :=
  if (i <? 0)%Z then None else mjoin (a !! Z.to_nat i).

(** [a.indexOf(row)]: the first position holding [row], or -1. *)
Definition indexOf (a : list (option string)) (row : string) : Z :=
  match list_find (fun x => x = Some row) a with
  | Some (i, _) => Z.of_nat i
  | None => (-1)%Z
  end.

Definition top_of (d : Dom) (r : string) : Q :=
  match d !! r with Some e => rectTop e | None => 0 end.
Definition bottom_of (d : Dom) (r : string) : Q :=
  match d !! r with Some e => rectBottom e | None => 0 end.
Definition scrollTop_of (d : Dom) (r : string) : Q :=
  match d !! r with Some e => scrollTop e | None => 0 end.

(** [setTimeout(k, delay)]: the browser clamps a negative delay to 0 and
    drops the fraction of a millisecond.  (Delays are taken to fit the
    signed 32-bit range of the timer interface.) *)
Definition setTimeout (k : task) (delay : Q) (w : World) : World :=
  set_timers (timers w ++ [mkTimer delay (now w + Z.max 0 (Qfloor delay)) k]) w.

(** The literal styles that recur in the source. *)
Definition identity : css := Lit "translateY(0)".
Definition reset_row (s : Style.t) : Style.t :=
  Style.set_opacity (Lit "1") (Style.set_transform identity s).

(** ** The methods of [DynamicNavigation] *)

Definition nav_row_id (i : N) : string := "nav-row-" +:+ pretty i.

Definition init_nav_row_style (s : Style.t) : Style.t :=
  Style.set_opacity (Lit "1")
    (Style.set_transform identity
      (Style.set_transition (Lit "transform 0.3s ease-out, opacity 0.3s ease-out")
        (Style.set_zIndex (Lit "10") (Style.set_position (Lit "relative") s)))).

Definition init_title_row_style (s : Style.t) : Style.t :=
  Style.set_transform identity
    (Style.set_transition (Lit "transform 0.3s ease-out")
      (Style.set_zIndex (Lit "10") (Style.set_position (Lit "relative") s))).

(** The three arrays built by [initializeNavRows], and the restyled page. *)
Record Rows : Type := mkRows {
  r_navRows : list string;
  r_titleRows : list string;
  r_registry : list (option string);
  r_dom : Dom
}.

(** Body of [for (let i = 1; i <= 2; i++)]. *)
Definition init_nav_row (acc : list string * Dom) (i : N) : list string * Dom :=
  match getElementById acc.2 (nav_row_id i) with
  | Some navRow => (acc.1 ++ [navRow], set_style init_nav_row_style navRow acc.2)
  | None => acc
  end.

(** Body of [if (this.titleRowK) { ... }]. *)
Definition init_title_row (titleRow : option string) (acc : Rows) : Rows :=
  match titleRow with
  | Some r =>
      mkRows (r_navRows acc) (r_titleRows acc ++ [r]) (r_registry acc ++ [Some r])
             (set_style init_title_row_style r (r_dom acc))
  | None => acc
  end.

Definition initializeNavRows (w : World) : World :=
  let '(rows, d1) := foldl init_nav_row ([], dom w) [1%N; 2%N] in
  (* this.displayedRowRegistry.push(this.navRows[0]) *)
  let acc0 := mkRows rows [] [rows !! 0%nat] d1 in
  let acc := init_title_row (titleRow2 w) (init_title_row (titleRow1 w) acc0) in
  mkWorld (r_dom acc) (innerWidth w) (now w) (timers w) (cells w) (rafPending w) (ticking w)
    (contentScroll w) (navRow1 w) (navToggle w) (dynamicNavContainer w) (titleRow1 w)
    (titleRow2 w) (r_registry acc) (transitionPace w) (lastScrollTop w) (isNavExpanded w)
    (r_navRows acc) (r_titleRows acc) (regionWhichTheTextIsAt w).

(** The two icons differ only in the path data, which stands for the markup. *)
Definition collapse_icon : string := "M5 15l7-7 7 7".
Definition expand_icon : string := "M19 9l-7 7-7-7".

Definition updateToggleButton (w : World) : World :=
  match navToggle w with
  | None => w
  | Some t =>
      match dom w !! t with
      | Some (mkElement _ _ _ _ _ (Some _) (Some _)) =>
          if isNavExpanded w
          then set_dom (alter (with_svg_span collapse_icon "Less") t (dom w)) w
          else set_dom (alter (with_svg_span expand_icon "More") t (dom w)) w
      | _ => w
      end
  end.

Definition updateButtonPosition (w : World) : World :=
  match getElementById (dom w) "toggle-button" with
  | None => w
  | Some button =>
      let isWideScreen := (768 <=? innerWidth w)%Z in
      if isWideScreen
      then set_dom (set_style (fun s => Style.set_right (Lit "calc(30% + 20px)")
                     (Style.set_top (Lit "20px") (Style.set_position (Lit "absolute") s)))
                     button (dom w)) w
      else set_dom (set_style (fun s => Style.set_right (Lit "20px")
                     (Style.set_top (Lit "20px") (Style.set_position (Lit "fixed") s)))
                     button (dom w)) w
  end.

(** [setupEventListeners] only registers closures; what it leaves in the
    state is the fresh [ticking] variable.  The listeners themselves are the
    [Toggle], [Scroll] and [Resize] cases of [step] below. *)
Definition setupEventListeners (w : World) : World := set_ticking false w.

Definition init (w : World) : World :=
  updateButtonPosition (updateToggleButton (setupEventListeners (initializeNavRows w))).

(** [new DynamicNavigation()] on a page [d] in a window [width] pixels wide.
    The one unguarded dereference is [this.navRow1!.offsetHeight]: on [null]
    it throws.  (For a nav-row-1 of height 0 JavaScript computes an infinite
    pace, which [Q] does not represent; [Q] yields 0 there.) *)
Definition DynamicNavigation_new (d : Dom) (width : Z) : result World :=
  let contentScroll := getElementById d "content-scroll" in
  let navRow1 := getElementById d "nav-row-1" in
  let navToggle := getElementById d "nav-toggle" in
  let dynamicNavContainer := getElementById d "dynamic-nav-container" in
  let titleRow1 := getElementById d "title-row-1" in
  let titleRow2 := getElementById d "title-row-2" in
  match navRow1 with
  | None => Throw TypeError
  | Some r =>
      let transitionPace := (100 / inject_Z (height_of d r))%Q in
      Ok (init (mkWorld d width 0 [] [] 0 false
                  contentScroll navRow1 navToggle dynamicNavContainer titleRow1 titleRow2
                  [] transitionPace 0 false [] [] 1))
  end.

(** *** Fold test and single-row expansion *)

Definition isRowFolded (w : World) (row : string) : result bool :=
  let registry := displayedRowRegistry w in
  if decide (js_index registry 0 = Some row) then Ok false
  else
    let rowTop := top_of (dom w) row in
    match js_index registry (indexOf registry row - 1) with
    | None => Throw TypeError            (* previousRow is undefined *)
    | Some previousRow =>
        let previousRowBottom := bottom_of (dom w) previousRow in
        Ok (Qlt_bool rowTop previousRowBottom)
    end.

(** Returns the schedule time together with the world in which the
    callbacks have been queued. *)
Definition expandRow (w : World) (row : string) (baseTime : Q) : result (Q * World) :=
  match isRowFolded w row with
  | Throw e => Throw e
  | Ok false => Ok (0%Q, w)
  | Ok true =>
      let registry := displayedRowRegistry w in
      let index := indexOf registry row in
      match js_index registry (index - 1) with
      | None => Throw TypeError
      | Some previous =>
          let distance := (top_of (dom w) row - bottom_of (dom w) previous)%Q in
          let scheduleTime := (transitionPace w * distance)%Q in
          let indices := seq (Z.to_nat index) (length registry - Z.to_nat index) in
          Ok (scheduleTime,
              foldl (fun w' i => setTimeout (ExpandRowStep i distance scheduleTime) baseTime w')
                    w indices)
      end
  end.

(** *** Expand and collapse of the navigation *)

Definition expandNavRows (w : World) : World :=
  match dynamicNavContainer w with
  | None => w
  | Some container =>
      let totalHeight := foldl (fun acc row => (acc + height_of (dom w) row)%Z) 0%Z (navRows w) in
      let w1 := set_dom (set_style (Style.set_maxHeight (Px (inject_Z totalHeight)))
                                   container (dom w)) w in
      let w2 := forEach_index
                  (fun row index w' =>
                     setTimeout (RowAppear row) (inject_Z (Z.of_nat index * 100)) w')
                  (navRows w) 0 w1 in
      setTimeout TitlesReset (inject_Z (Z.of_nat (length (navRows w)) * 100 + 100)) w2
  end.

Definition collapseNavRowsWithContentMovement (w : World) : World :=
  match dynamicNavContainer w with
  | None => w
  | Some _ =>
      let navRowHeights := map (height_of (dom w)) (navRows w) in
      (* let totalMovedDistance = 0, shared by the callbacks of this call *)
      let cell := length (cells w) in
      let w1 := set_cells (cells w ++ [0%Z]) w in
      let w2 := forEach_index
                  (fun row index w' =>
                     let rowHeight := default 0%Z (navRowHeights !! index) in
                     let delay := ((Z.of_nat (length (navRows w)) - 1 - Z.of_nat index) * 100)%Z in
                     setTimeout (RowDisappear row rowHeight cell) (inject_Z delay) w')
                  (navRows w) 0 w1 in
      setTimeout ContainerHide
                 (inject_Z (Z.of_nat (length (navRows w)) * 100 + ANIMATION_DURATION)) w2
  end.

Definition toggleNavExpansion (w : World) : World :=
  let w1 := set_isNavExpanded (negb (isNavExpanded w)) w in
  let w2 := if isNavExpanded w1 then expandNavRows w1
            else collapseNavRowsWithContentMovement w1 in
  updateToggleButton w2.

(** *** Scroll mirroring *)

Definition scrollThreshold : Q := 10.

Record Header : Type := mkHeader {
  element : string;
  height : Z;
  startPosition : Z;
  endPosition : Z;
  originalPosition : Z
}.

(** [this.navRows.map(row => ...)] with its running [cumulativeHeight]. *)
Fixpoint headerInfo (d : Dom) (rows : list string) (cumulativeHeight : Z) : list Header :=
  match rows with
  | [] => []
  | row :: rest =>
      let height := height_of d row in
      mkHeader row height cumulativeHeight (cumulativeHeight + height) cumulativeHeight
        :: headerInfo d rest (cumulativeHeight + height)
  end.

(** The transform one header receives in the [forEach] of [updateHeaders]. *)
Definition header_transform (totalScroll : Q) (header : Header) : css :=
  if Qle_bool (inject_Z (startPosition header)) totalScroll then
    let scrollBeyondStart := (totalScroll - inject_Z (startPosition header))%Q in
    let moveDistance :=
      if Qle_bool (inject_Z (height header)) scrollBeyondStart
      then (- inject_Z (height header))%Q
      else (- scrollBeyondStart)%Q in
    TranslateYPx moveDistance
  else identity.

Definition updateHeaders (scrollTop : Q) (w : World) : World :=
  let totalScroll := (scrollTop - scrollThreshold)%Q in
  if Qle_bool totalScroll 0 then
    if isNavExpanded w
    then set_dom (style_each reset_row (navRows w) (dom w)) w
    else w
  else if isNavExpanded w then
    let info := headerInfo (dom w) (navRows w) 0 in
    set_dom (foldl (fun d header =>
                      set_style (Style.set_transform (header_transform totalScroll header))
                                (element header) d)
                   (dom w) info) w
  else w.

(** *** Accessors *)

Definition getCurrentRegion (w : World) : Z := regionWhichTheTextIsAt w.
Definition setCurrentRegion (region : Z) (w : World) : World :=
  set_regionWhichTheTextIsAt region w.
Definition getNavExpandedState (w : World) : bool := isNavExpanded w.
Definition getMaxNavRows (w : World) : Z := MAX_NAV_ROWS.

(** ** Running the callbacks *)

Definition run_task (k : task) (w : World) : World :=
  match k with
  | ExpandRowStep i distance scheduleTime =>
      match displayedRowRegistry w !! i with
      | Some (Some r) =>
          set_dom (set_style (fun s => Style.set_transition (TransformEaseOut scheduleTime)
                                         (Style.set_transform (TranslateYNegPx distance) s))
                             r (dom w)) w
      | _ => w                    (* [undefined.style]: the callback dies *)
      end
  | RowAppear row => set_dom (set_style reset_row row (dom w)) w
  | TitlesReset =>
      set_dom (style_each (Style.set_transform identity) (titleRows w) (dom w)) w
  | RowDisappear row rowHeight cell =>
      let d1 := set_style (fun s => Style.set_opacity (Lit "0")
                                      (Style.set_transform (Lit "translateY(-100%)") s))
                          row (dom w) in
      let totalMovedDistance := (default 0 (cells w !! cell) + rowHeight)%Z in
      let moved := Style.set_transform (TranslateYNegPx (inject_Z totalMovedDistance)) in
      let d2 := style_each moved (titleRows w) d1 in
      let d3 := match contentScroll w with
                | Some c => set_style moved c d2
                | None => d2
                end in
      set_cells (<[cell := totalMovedDistance]> (cells w)) (set_dom d3 w)
  | ContainerHide =>
      match dynamicNavContainer w with
      | Some container =>
          setTimeout ResetAll 150
            (set_dom (set_style (Style.set_maxHeight (Lit "0")) container (dom w)) w)
      | None => w                 (* [null.style]: the callback dies *)
      end
  | ResetAll =>
      let d1 := style_each reset_row (navRows w) (dom w) in
      let d2 := style_each (Style.set_transform identity) (titleRows w) d1 in
      let d3 := match contentScroll w with
                | Some c => set_style (Style.set_transform identity) c d2
                | None => d2
                end in
      set_dom d3 w
  end.

(** The next timer to run: the earliest due, the oldest among equals. *)
Fixpoint pick (q : list Timer) : option (Timer * list Timer) :=
  match q with
  | [] => None
  | t :: q' =>
      match pick q' with
      | None => Some (t, [])
      | Some (u, r) =>
          if (t_due t <=? t_due u)%Z then Some (t, q') else Some (u, t :: r)
      end
  end.

(** One turn of the event loop on the timer queue; [None] when it is idle. *)
Definition fire (w : World) : option (task * World) :=
  match pick (timers w) with
  | None => None
  | Some (t, rest) =>
      Some (t_task t,
            run_task (t_task t) (set_now (Z.max (now w) (t_due t)) (set_timers rest w)))
  end.

(** Up to [fuel] turns, with the tasks run, oldest first. *)
Fixpoint drain (fuel : nat) (w : World) : list task * World :=
  match fuel with
  | O => ([], w)
  | S fuel' =>
      match fire w with
      | None => ([], w)
      | Some (k, w') => let '(ks, w'') := drain fuel' w' in (k :: ks, w'')
      end
  end.

(** The turns a queue can still take: a [ContainerHide] queues one more. *)
Definition weight (t : Timer) : nat :=
  match t_task t with ContainerHide => 2 | _ => 1 end.
Definition turns (q : list Timer) : nat := foldr (fun t n => weight t + n) 0 q.

(** Let every pending chain elapse. *)
Definition settle (w : World) : list task * World := drain (turns (timers w)) w.

(** ** Events delivered by the browser *)

(** The scroll listener and the animation-frame callback it requests. *)
Definition onScroll (w : World) : World :=
  if ticking w then w else set_ticking true (set_rafPending (S (rafPending w)) w).

Definition onFrame (w : World) : World :=
  match contentScroll w with
  | Some target =>
      let scrollTop := scrollTop_of (dom w) target in
      set_ticking false (set_lastScrollTop scrollTop (updateHeaders scrollTop w))
  | None => w
  end.

Inductive event : Type :=
| Toggle                  (* the click listener runs toggleNavExpansion *)
| Scroll (position : Q)   (* the content container scrolls to [position] *)
| Frame                   (* the browser runs the pending frame callbacks *)
| Resize (width : Z)      (* the window is resized *)
| TimerFires              (* the next pending timer runs *)
| Wait (ms : Z)           (* time passes *)
| SetRegion (region : Z). (* a caller of the public accessor *)

Definition step (w : World) (ev : event) : World :=
  match ev with
  | Toggle => toggleNavExpansion w
  | Scroll position =>
      match contentScroll w with
      | Some c => onScroll (set_dom (alter (with_scrollTop position) c (dom w)) w)
      | None => w
      end
  | Frame => set_rafPending 0 (Nat.iter (rafPending w) onFrame w)
  | Resize width => updateButtonPosition (set_innerWidth width w)
  | TimerFires => match fire w with Some (_, w') => w' | None => w end
  | Wait ms => set_now (now w + Z.max 0 ms) w
  | SetRegion region => setCurrentRegion region w
  end.

Definition run (w : World) (evs : list event) : World := foldl step w evs.

(** ** Vocabulary of the statements *)

(** The vertical translation, in pixels, that a transform value denotes;
    [None] for a value that is not a pixel translation (a percentage, or the
    malformed double sign that `translateY(-${d}px)` produces for [d < 0]). *)
Definition translation (v : css) : option Q :=
  match v with
  | Lit s => if decide (s = "translateY(0)") then Some 0%Q else None
  | TranslateYPx d => Some d
  | TranslateYNegPx d => if Qle_bool 0 d then Some (- d)%Q else None
  | _ => None
  end.

Definition transform_of (d : Dom) (r : string) : option css :=
  Style.transform ∘ style <$> d !! r.

(** Heights of the nav rows, in array order, and integer sums. *)
Definition navRowHeights (w : World) : list Z := map (height_of (dom w)) (navRows w).
Definition sumZ (l : list Z) : Z := foldr Z.add 0%Z l.

(** The fields that no method assigns after construction. *)
Definition wiring (w : World) :=
  (contentScroll w, navRow1 w, navToggle w, dynamicNavContainer w, titleRow1 w,
   titleRow2 w, displayedRowRegistry w, transitionPace w, navRows w, titleRows w).

Fixpoint count_toggles (evs : list event) : nat :=
  match evs with
  | [] => 0
  | Toggle :: evs' => S (count_toggles evs')
  | _ :: evs' => count_toggles evs'
  end.

Definition is_reset (t : Timer) : Prop := t_task t = ResetAll.

(** Element [r], if it is on the page, has an inline style satisfying [Q]. *)
Definition styled (Q : Style.t -> Prop) (d : Dom) (r : string) : Prop :=
  forall e, d !! r = Some e -> Q (style e).

(** What a completed collapse leaves behind: nav rows at the identity
    transform and opacity 1, title rows and content at the identity. *)
Definition neutral (w : World) : Prop :=
  (forall row, row ∈ navRows w ->
     styled (fun s => Style.transform s = identity /\ Style.opacity s = Lit "1") (dom w) row) /\
  (forall row, row ∈ titleRows w ->
     styled (fun s => Style.transform s = identity) (dom w) row) /\
  (forall c, contentScroll w = Some c ->
     styled (fun s => Style.transform s = identity) (dom w) c).

(** The container is collapsed to zero height. *)
Definition container_hidden (w : World) : Prop :=
  forall c, dynamicNavContainer w = Some c ->
    styled (fun s => Style.maxHeight s = Lit "0") (dom w) c.

(** No pending timer is due later than the container-collapse step of a
    collapse started now. *)
Definition pending_in_time (w : World) : Prop :=
  Forall (fun t => (t_due t <= now w + (Z.of_nat (length (navRows w)) * 100
                                        + ANIMATION_DURATION))%Z) (timers w).

(** The tasks run by a collapse chain end with the container being hidden,
    followed by resets only, at least one. *)
Definition ends_with_reset (ks : list task) : Prop :=
  exists before resets, ks = before ++ ContainerHide :: resets /\
    resets <> [] /\ Forall (fun k => k = ResetAll) resets.

(** A page to run the widget on: two nav rows of 40px and 60px, both title
    rows tucked under the first nav row, and every identified element. *)
Definition box (h : N) (top bottom : Q) : Element :=
  mkElement h top bottom 0 Style.empty None None.

Definition sample_page : Dom :=
  list_to_map
    [("content-scroll", box 500 70 570);
     ("nav-row-1", box 40 0 40);
     ("nav-row-2", box 60 40 100);
     ("nav-toggle", mkElement 20 0 20 0 Style.empty (Some "") (Some "More"));
     ("dynamic-nav-container", box 100 0 100);
     ("title-row-1", box 30 10 40);
     ("title-row-2", box 30 40 70);
     ("toggle-button", box 10 0 10)].

(** The same page without one of its elements. *)
Definition page_without (id : string) : Dom := delete id sample_page.

(** The world a construction yields, or the untouched page if it threw. *)
Definition built (d : Dom) (width : Z) : World :=
  match DynamicNavigation_new d width with
  | Ok w => w
  | Throw _ => mkWorld d width 0 [] [] 0 false None None None None None None [] 0 0 false [] [] 1
  end.

Definition sample_world : World := built sample_page 1024.

(** The identifiers among [ids] that resolve on the page, in order. *)
Definition resolving (d : Dom) (ids : list string) : list string :=
  omap (getElementById d) ids.

(** [d'] is [d] with some elements restyled: the same elements, with the
    same layout measurements. *)
Definition restyled (d d' : Dom) : Prop :=
  forall id, option_Forall2
               (fun e e' => offsetHeight e' = offsetHeight e /\ rectTop e' = rectTop e /\
                            rectBottom e' = rectBottom e)
               (d !! id) (d' !! id).

(** A method that only writes styles, timers, cells, the clock or the scroll
    bookkeeping: it keeps the wiring, the expansion flag and the region. *)
Definition same_instance (w w' : World) : Prop :=
  wiring w' = wiring w /\ isNavExpanded w' = isNavExpanded w /\
  regionWhichTheTextIsAt w' = regionWhichTheTextIsAt w.

(** The two stages of a collapse chain.  First its [ContainerHide] is
    pending: nothing queued before it is due later, and only resets are
    queued behind it.  Then only resets are pending, the container is hidden,
    and once the queue is empty the widget is neutral. *)
Definition hide_pending (w : World) : Prop :=
  exists hide qa qb, timers w = qa ++ hide :: qb /\ t_task hide = ContainerHide /\
    Forall (fun t => (t_due t <= t_due hide)%Z) qa /\ Forall is_reset qb.

Definition resets_pending (w : World) : Prop :=
  Forall is_reset (timers w) /\ container_hidden w /\ (timers w <> [] \/ neutral w).

(** [d'] has the elements of [d], each with the transform, opacity and
    max-height it had. *)
Definition keeps_styles (d d' : Dom) : Prop :=
  forall r e', d' !! r = Some e' ->
    exists e, d !! r = Some e /\
      Style.transform (style e') = Style.transform (style e) /\
      Style.opacity (style e') = Style.opacity (style e) /\
      Style.maxHeight (style e') = Style.maxHeight (style e).

(** ** The cascade over the displayed sequence *)

(** [this.expandRow(this.displayedRowRegistry[i], t)] for an entry that may
    be [undefined]: the fold test then compares [undefined] with the first
    entry, and dereferences it when they differ. *)
Definition expandRow_entry (w : World) (entry : option string) (baseTime : Q)
  : result (Q * World) :=
  match entry with
  | Some row => expandRow w row baseTime
  | None =>
      match js_index (displayedRowRegistry w) 0 with
      | None => Ok (0%Q, w)
      | Some _ => Throw TypeError
      end
  end.

(** Body of [for (let i = length - 1; i >= index; i--)], on the values [i]
    takes, with the running [scheduleTime]. *)
Fixpoint expandRowFromIndex_loop (indices : list Z) (scheduleTime : Q) (w : World)
  : result (Q * World) :=
  match indices with
  | [] => Ok (scheduleTime, w)
  | i :: rest =>
      match expandRow_entry w (js_index (displayedRowRegistry w) i) scheduleTime with
      | Throw e => Throw e
      | Ok (t, w') => expandRowFromIndex_loop rest (scheduleTime + t)%Q w'
      end
  end.

Definition expandRowFromIndex (w : World) (index : Z) : result World :=
  let length := Z.of_nat (length (displayedRowRegistry w)) in
  let indices := map (fun k => (length - 1 - Z.of_nat k)%Z)
                     (seq 0 (Z.to_nat (length - index))) in
  match expandRowFromIndex_loop indices 0 w with
  | Ok (_, w') => Ok w'
  | Throw e => Throw e
  end.

(** A layout at rest: every displayed row starts at or below the bottom of
    the row before it. *)
Definition settled_layout (d : Dom) (rows : list string) : Prop :=
  forall j row previous, rows !! S j = Some row -> rows !! j = Some previous ->
    (bottom_of d previous <= top_of d row)%Q.

(** The value the last [SetRegion] of a trace leaves, [r0] if there is none. *)
Definition last_region (evs : list event) (r0 : Z) : Z :=
  foldl (fun r ev => match ev with SetRegion r' => r' | _ => r end) r0 evs.

(** Whether a timer is the container-hide step of a collapse. *)
Definition is_hide (t : Timer) : bool :=
  match t_task t with ContainerHide => true | _ => false end.

(** The scroll listener's bookkeeping is consistent: a frame callback is
    pending exactly while [ticking] is set, and never more than one. *)
Definition throttled (w : World) : Prop :=
  match contentScroll w with
  | Some _ => (ticking w = true /\ rafPending w = 1) \/ (ticking w = false /\ rafPending w = 0)
  | None => ticking w = false /\ rafPending w = 0
  end.

(** The inline styles [initializeNavRows] gives a nav row and a title row. *)
Definition nav_row_styled (s : Style.t) : Prop :=
  Style.position s = Lit "relative" /\ Style.zIndex s = Lit "10" /\
  Style.transition s = Lit "transform 0.3s ease-out, opacity 0.3s ease-out" /\
  Style.transform s = identity /\ Style.opacity s = Lit "1".

Definition title_row_styled (s : Style.t) : Prop :=
  Style.position s = Lit "relative" /\ Style.zIndex s = Lit "10" /\
  Style.transition s = Lit "transform 0.3s ease-out" /\
  Style.transform s = identity.

(** [d'] is [d] after animation only: each element of [d'] is one of [d]
    with the same icon and label and the same position, top and right. *)
Definition animated (d d' : Dom) : Prop :=
  forall r e', d' !! r = Some e' ->
    exists e, d !! r = Some e /\ svg e' = svg e /\ span e' = span e /\
      Style.position (style e') = Style.position (style e) /\
      Style.top (style e') = Style.top (style e) /\
      Style.right (style e') = Style.right (style e).

(** The toggle control, when it has an icon and a label, shows the state. *)
Definition labelled (w : World) : Prop :=
  forall t e, navToggle w = Some t -> dom w !! t = Some e ->
    is_Some (svg e) -> is_Some (span e) ->
    svg e = Some (if isNavExpanded w then collapse_icon else expand_icon) /\
    span e = Some (if isNavExpanded w then "Less" else "More").

(** The toggle button, when the page has one, sits where the window width
    says. *)
Definition positioned (w : World) : Prop :=
  forall e, dom w !! "toggle-button" = Some e ->
    Style.top (style e) = Lit "20px" /\
    if (768 <=? innerWidth w)%Z
    then Style.position (style e) = Lit "absolute" /\
         Style.right (style e) = Lit "calc(30% + 20px)"
    else Style.position (style e) = Lit "fixed" /\ Style.right (style e) = Lit "20px".

(** ** Timer chains under way *)



(** The timer a collapse of [w] queues for the nav row at [index], and the
    one for its container. *)
Definition leave_timer (w : World) (index : nat) (row : string) : Timer :=
  let delay := ((Z.of_nat (length (navRows w)) - 1 - Z.of_nat index) * 100)%Z in
  mkTimer (inject_Z delay) (now w + Z.max 0 delay)
          (RowDisappear row (height_of (dom w) row) (length (cells w))).

Definition hide_timer (w : World) : Timer :=
  let delay := (Z.of_nat (length (navRows w)) * 100 + ANIMATION_DURATION)%Z in
  mkTimer (inject_Z delay) (now w + Z.max 0 delay) ContainerHide.


(** * Properties *)

(** ** Which fields each method leaves alone *)

Lemma foldl_preserves {A S : Type} (P : S -> Prop) (f : S -> A -> S) (l : list A) (s0 : S) :
  (forall s x, P s -> P (f s x)) -> P s0 -> P (foldl f s0 l).
Proof.
  intros Hf. revert s0. induction l as [|x l IH]; intros s0 Hs; simpl; auto.
Qed.

Lemma forEach_index_preserves {A S : Type} (P : S -> Prop) (f : A -> nat -> S -> S)
      (l : list A) (i0 : nat) (s0 : S) :
  (forall x i s, P s -> P (f x i s)) -> P s0 -> P (forEach_index f l i0 s0).
Proof.
  intros Hf. revert i0 s0. induction l as [|x l IH]; intros i0 s0 Hs; simpl; auto.
Qed.

Lemma iter_preserves {S : Type} (P : S -> Prop) (f : S -> S) (n : nat) (s0 : S) :
  (forall s, P s -> P (f s)) -> P s0 -> P (Nat.iter n f s0).
Proof. intros Hf Hs. induction n; simpl; auto. Qed.

Lemma same_instance_refl w : same_instance w w.
Proof. by repeat split. Qed.

Lemma same_instance_trans w1 w2 w3 :
  same_instance w1 w2 -> same_instance w2 w3 -> same_instance w1 w3.
Proof. intros (?&?&?) (?&?&?). repeat split; congruence. Qed.

Lemma setTimeout_same k delay w : same_instance w (setTimeout k delay w).
Proof. by repeat split. Qed.

Lemma set_dom_same d w : same_instance w (set_dom d w).
Proof. by repeat split. Qed.

Lemma expandNavRows_same w : same_instance w (expandNavRows w).
Proof.
  unfold expandNavRows. destruct (dynamicNavContainer w); [|apply same_instance_refl].
  eapply same_instance_trans; [|apply setTimeout_same].
  apply (forEach_index_preserves (same_instance w)); [|by repeat split].
  intros x i w' Hs. eapply same_instance_trans; [exact Hs|apply setTimeout_same].
Qed.

Lemma collapse_same w : same_instance w (collapseNavRowsWithContentMovement w).
Proof.
  unfold collapseNavRowsWithContentMovement.
  destruct (dynamicNavContainer w); [|apply same_instance_refl].
  eapply same_instance_trans; [|apply setTimeout_same].
  apply (forEach_index_preserves (same_instance w)); [|by repeat split].
  intros x i w' Hs. eapply same_instance_trans; [exact Hs|apply setTimeout_same].
Qed.

Lemma updateToggleButton_same w : same_instance w (updateToggleButton w).
Proof.
  unfold updateToggleButton. destruct (navToggle w) as [t|]; [|apply same_instance_refl].
  destruct (dom w !! t) as [[? ? ? ? ? [?|] [?|]]|]; try apply same_instance_refl.
  destruct (isNavExpanded w); by repeat split.
Qed.

Lemma updateButtonPosition_same w : same_instance w (updateButtonPosition w).
Proof.
  unfold updateButtonPosition. destruct (getElementById _ _); [|apply same_instance_refl].
  destruct (768 <=? innerWidth w)%Z; by repeat split.
Qed.

Lemma updateHeaders_same s w : same_instance w (updateHeaders s w).
Proof.
  unfold updateHeaders.
  destruct (Qle_bool _ _), (isNavExpanded w) eqn:E; by repeat split.
Qed.

Lemma run_task_same k w : same_instance w (run_task k w).
Proof.
  destruct k; simpl; try by repeat split.
  - destruct (displayedRowRegistry w !! i) as [[?|]|]; by repeat split.
  - destruct (dynamicNavContainer w); by repeat split.
Qed.

Lemma fire_same w k w' : fire w = Some (k, w') -> same_instance w w'.
Proof.
  unfold fire. destruct (pick (timers w)) as [[t rest]|]; [|done].
  intros [= <- <-]. eapply same_instance_trans; [|apply run_task_same]. by repeat split.
Qed.

Lemma onFrame_same w : same_instance w (onFrame w).
Proof.
  unfold onFrame. destruct (contentScroll w) as [c|]; [|apply same_instance_refl].
  destruct (updateHeaders_same (scrollTop_of (dom w) c) w) as (?&?&?). by repeat split.
Qed.

Lemma toggle_wiring w : wiring (toggleNavExpansion w) = wiring w.
Proof.
  unfold toggleNavExpansion.
  destruct (updateToggleButton_same
              (if isNavExpanded (set_isNavExpanded (negb (isNavExpanded w)) w)
               then expandNavRows (set_isNavExpanded (negb (isNavExpanded w)) w)
               else collapseNavRowsWithContentMovement
                      (set_isNavExpanded (negb (isNavExpanded w)) w))) as (->&_&_).
  destruct (isNavExpanded (set_isNavExpanded _ w)).
  - by destruct (expandNavRows_same (set_isNavExpanded (negb (isNavExpanded w)) w)) as (->&_).
  - by destruct (collapse_same (set_isNavExpanded (negb (isNavExpanded w)) w)) as (->&_).
Qed.

Lemma toggle_flips w : isNavExpanded (toggleNavExpansion w) = negb (isNavExpanded w).
Proof.
  unfold toggleNavExpansion.
  destruct (updateToggleButton_same
              (if isNavExpanded (set_isNavExpanded (negb (isNavExpanded w)) w)
               then expandNavRows (set_isNavExpanded (negb (isNavExpanded w)) w)
               else collapseNavRowsWithContentMovement
                      (set_isNavExpanded (negb (isNavExpanded w)) w))) as (_&->&_).
  destruct (isNavExpanded (set_isNavExpanded _ w)) eqn:E.
  - destruct (expandNavRows_same (set_isNavExpanded (negb (isNavExpanded w)) w)) as (_&->&_).
    done.
  - destruct (collapse_same (set_isNavExpanded (negb (isNavExpanded w)) w)) as (_&->&_).
    done.
Qed.

Lemma step_wiring w ev : wiring (step w ev) = wiring w.
Proof.
  destruct ev; simpl.
  - apply toggle_wiring.
  - destruct (contentScroll w); [|done]. unfold onScroll. simpl. by destruct (ticking w).
  - change (wiring (Nat.iter (rafPending w) onFrame w) = wiring w).
    apply (iter_preserves (fun w' => wiring w' = wiring w)); [|done].
    intros w' <-. apply onFrame_same.
  - by destruct (updateButtonPosition_same (set_innerWidth width w)) as (->&_).
  - destruct (fire w) as [[k w']|] eqn:E; [|done]. by destruct (fire_same _ _ _ E) as (->&_).
  - done.
  - done.
Qed.

Lemma step_expanded w ev :
  isNavExpanded (step w ev) =
  match ev with Toggle => negb (isNavExpanded w) | _ => isNavExpanded w end.
Proof.
  destruct ev; simpl.
  - apply toggle_flips.
  - destruct (contentScroll w); [|done]. unfold onScroll. simpl. by destruct (ticking w).
  - change (isNavExpanded (Nat.iter (rafPending w) onFrame w) = isNavExpanded w).
    apply (iter_preserves (fun w' => isNavExpanded w' = isNavExpanded w)); [|done].
    intros w' <-. apply onFrame_same.
  - by destruct (updateButtonPosition_same (set_innerWidth width w)) as (_&->&_).
  - destruct (fire w) as [[k w']|] eqn:E; [|done]. by destruct (fire_same _ _ _ E) as (_&->&_).
  - done.
  - done.
Qed.

Lemma run_wiring w evs : wiring (run w evs) = wiring w.
Proof.
  unfold run. apply (foldl_preserves (fun w' => wiring w' = wiring w)); [|done].
  intros w' ev <-. apply step_wiring.
Qed.

Lemma run_expanded evs : forall w,
  isNavExpanded (run w evs) = xorb (isNavExpanded w) (Nat.odd (count_toggles evs)).
Proof.
  induction evs as [|ev evs IH]; intros w.
  - simpl. by destruct (isNavExpanded w).
  - change (run w (ev :: evs)) with (run (step w ev) evs).
    rewrite IH, step_expanded. destruct ev; simpl count_toggles; try done.
    rewrite Nat.odd_succ, <- Nat.negb_odd. by destruct (isNavExpanded w), (Nat.odd _).
Qed.

(** ** Construction *)

Lemma initializeNavRows_state w :
  isNavExpanded (initializeNavRows w) = isNavExpanded w /\
  regionWhichTheTextIsAt (initializeNavRows w) = regionWhichTheTextIsAt w /\
  timers (initializeNavRows w) = timers w /\
  dynamicNavContainer (initializeNavRows w) = dynamicNavContainer w /\
  contentScroll (initializeNavRows w) = contentScroll w.
Proof. unfold initializeNavRows. by destruct (foldl _ _ _). Qed.

Lemma init_state w :
  isNavExpanded (init w) = isNavExpanded w /\
  regionWhichTheTextIsAt (init w) = regionWhichTheTextIsAt w.
Proof.
  unfold init, setupEventListeners.
  destruct (updateButtonPosition_same
              (updateToggleButton (set_ticking false (initializeNavRows w)))) as (_&->&->).
  destruct (updateToggleButton_same (set_ticking false (initializeNavRows w))) as (_&->&->).
  simpl. by destruct (initializeNavRows_state w) as (->&->&_).
Qed.

Lemma new_state d width w :
  DynamicNavigation_new d width = Ok w ->
  isNavExpanded w = false /\ regionWhichTheTextIsAt w = 1%Z.
Proof.
  unfold DynamicNavigation_new. destruct (getElementById d "nav-row-1"); [|done].
  intros [= <-]. apply init_state.
Qed.

(** ** Expansion state *)

(** C5: starting from a freshly constructed widget, after any sequence of
    events (toggles interleaved with scrolls, frames, resizes, timers, waits
    and accessor calls) the expansion state read by [getNavExpandedState] is
    true exactly when the number of toggle invocations is odd. *)
Theorem toggle_parity (d : Dom) (width : Z) (w0 : World) (evs : list event) :
  DynamicNavigation_new d width = Ok w0 ->
  getNavExpandedState (run w0 evs) = Nat.odd (count_toggles evs).
Proof.
  intros Hnew. unfold getNavExpandedState. rewrite run_expanded.
  by destruct (new_state _ _ _ Hnew) as (->&_).
Qed.

Lemma toggle_parity_witness :
  DynamicNavigation_new sample_page 1024 = Ok sample_world /\
  getNavExpandedState
    (run sample_world [Toggle; Scroll 70; Frame; TimerFires; Toggle; Wait 900; Toggle]) = true.
Proof.
  assert (H : DynamicNavigation_new sample_page 1024 = Ok sample_world) by (vm_compute; reflexivity).
  split; [exact H|].
  exact (toggle_parity sample_page 1024%Z sample_world
           [Toggle; Scroll 70; Frame; TimerFires; Toggle; Wait 900; Toggle] H).
Defined.

(** ** Region indicator *)

(** C10: [setCurrentRegion r] followed by [getCurrentRegion] returns [r] for
    every integer [r], inside or outside 0 .. MAX_NAV_ROWS + 2, and a freshly
    constructed widget reads 1. *)
Theorem region_set_get (r : Z) (w : World) :
  getCurrentRegion (setCurrentRegion r w) = r /\
  (forall d width w0, DynamicNavigation_new d width = Ok w0 -> getCurrentRegion w0 = 1%Z).
Proof.
  split; [done|]. intros d width w0 H. unfold getCurrentRegion.
  by destruct (new_state _ _ _ H) as (_&->).
Qed.

Lemma region_set_get_witness :
  getCurrentRegion (setCurrentRegion (-7) sample_world) = (-7)%Z /\
  DynamicNavigation_new sample_page 1024 = Ok sample_world /\
  getCurrentRegion sample_world = 1%Z.
Proof.
  assert (H : DynamicNavigation_new sample_page 1024 = Ok sample_world) by (vm_compute; reflexivity).
  destruct (region_set_get (-7) sample_world) as [Hset Hinit].
  split; [exact Hset|]. split; [exact H|].
  exact (Hinit sample_page 1024%Z sample_world H).
Defined.

(** ** Responsive button position *)

(** C9: on every resize, a window narrower than 768px gives the toggle button
    fixed positioning with a 20px right offset; at 768px or wider it gets
    absolute positioning with a right offset of calc(30% + 20px). *)
Theorem resize_button_position (w : World) (width : Z) (e : Element) :
  dom w !! "toggle-button" = Some e ->
  exists e', dom (step w (Resize width)) !! "toggle-button" = Some e' /\
    ((width < 768)%Z ->
       Style.position (style e') = Lit "fixed" /\ Style.right (style e') = Lit "20px") /\
    ((768 <= width)%Z ->
       Style.position (style e') = Lit "absolute" /\
       Style.right (style e') = Lit "calc(30% + 20px)").
Proof.
  intros He. simpl. unfold updateButtonPosition, getElementById. simpl. rewrite He.
  destruct (768 <=? width)%Z eqn:Hw; simpl; unfold set_style;
    rewrite lookup_alter_eq, He; simpl; eexists; (split; [reflexivity|]); simpl; split; intros; try done; lia.
Qed.

Lemma resize_button_position_witness :
  exists e', dom (step sample_world (Resize 500)) !! "toggle-button" = Some e' /\
    Style.position (style e') = Lit "fixed" /\ Style.right (style e') = Lit "20px".
Proof.
  assert (He : dom sample_world !! "toggle-button"
               = Some (with_style (fun s => Style.set_right (Lit "calc(30% + 20px)")
                           (Style.set_top (Lit "20px") (Style.set_position (Lit "absolute") s)))
                         (box 10 0 10))) by (vm_compute; reflexivity).
  destruct (resize_button_position sample_world 500 _ He) as (e' & Hl & Hnarrow & _).
  exists e'. split; [exact Hl|]. apply Hnarrow. lia.
Defined.

(** ** Fold test *)

Lemma indexOf_NoDup (a : list (option string)) (k : nat) (row : string) :
  NoDup a -> a !! k = Some (Some row) -> indexOf a row = Z.of_nat k.
Proof.
  intros Hnd Hk. unfold indexOf.
  destruct (list_find (fun x => x = Some row) a) as [[i x]|] eqn:E.
  - apply list_find_Some in E as (Hi & -> & _).
    by rewrite (NoDup_lookup _ _ _ _ Hnd Hi Hk).
  - apply list_find_None in E. rewrite Forall_forall in E.
    destruct (E (Some row)); [|done]. eapply list_elem_of_lookup_2, Hk.
Qed.

Lemma js_index_nat (a : list (option string)) (k : nat) :
  js_index a (Z.of_nat k) = mjoin (a !! k).
Proof.
  unfold js_index. destruct (Z.ltb_spec (Z.of_nat k) 0); [lia|]. by rewrite Nat2Z.id.
Qed.

Lemma Qlt_bool_iff (x y : Q) : Qlt_bool x y = true <-> (x < y)%Q.
Proof.
  unfold Qlt_bool. rewrite negb_true_iff. split.
  - intros H. apply Qnot_le_lt. intros Hle. apply Qle_bool_iff in Hle. congruence.
  - intros H. destruct (Qle_bool y x) eqn:E; [|done].
    apply Qle_bool_iff in E. exfalso. by apply (Qlt_not_le _ _ H).
Qed.

(** C8: for a row of the displayed sequence, the fold test answers false for
    the first row, and for any later row it answers true exactly when the
    row's measured top is strictly above (less than) the measured bottom of
    its immediate predecessor. *)
Theorem isRowFolded_spec (w : World) (k : nat) (row : string) :
  NoDup (displayedRowRegistry w) ->
  displayedRowRegistry w !! k = Some (Some row) ->
  match k with
  | O => isRowFolded w row = Ok false
  | S j => forall previous, displayedRowRegistry w !! j = Some (Some previous) ->
      exists b, isRowFolded w row = Ok b /\
        (b = true <-> (top_of (dom w) row < bottom_of (dom w) previous)%Q)
  end.
Proof.
  intros Hnd Hk. unfold isRowFolded. destruct k as [|j].
  - rewrite (js_index_nat _ 0), Hk. simpl. by rewrite decide_True.
  - intros previous Hj. rewrite (js_index_nat _ 0).
    rewrite decide_False.
    + rewrite (indexOf_NoDup _ _ _ Hnd Hk).
      replace (Z.of_nat (S j) - 1)%Z with (Z.of_nat j) by lia.
      rewrite js_index_nat, Hj. simpl. eexists. split; [reflexivity|]. apply Qlt_bool_iff.
    + intros H0. destruct (displayedRowRegistry w !! 0) as [[r|]|] eqn:E0; simpl in H0; try done.
      injection H0 as ->. by pose proof (NoDup_lookup _ _ _ _ Hnd E0 Hk).
Qed.

Lemma isRowFolded_spec_witness :
  isRowFolded sample_world "nav-row-1" = Ok false /\
  exists b, isRowFolded sample_world "title-row-1" = Ok b /\
    (b = true <->
     (top_of (dom sample_world) "title-row-1" < bottom_of (dom sample_world) "nav-row-1")%Q).
Proof.
  assert (Hreg : displayedRowRegistry sample_world
                 = [Some "nav-row-1"; Some "title-row-1"; Some "title-row-2"])
    by (vm_compute; reflexivity).
  assert (Hnd : NoDup (displayedRowRegistry sample_world)).
  { rewrite Hreg. apply (bool_decide_unpack (NoDup _)). vm_compute. exact I. }
  split.
  - apply (isRowFolded_spec sample_world 0 "nav-row-1" Hnd). by rewrite Hreg.
  - apply (isRowFolded_spec sample_world 1 "title-row-1" Hnd); by rewrite Hreg.
Defined.

(** ** Expand schedule *)

Lemma updateToggleButton_timers w : timers (updateToggleButton w) = timers w.
Proof.
  unfold updateToggleButton. destruct (navToggle w) as [t|]; [|done].
  destruct (dom w !! t) as [[? ? ? ? ? [?|] [?|]]|]; try done.
  by destruct (isNavExpanded w).
Qed.

(** C7: a toggle that expands a navigation of two nav rows (whatever their
    heights, 40px and 60px included) queues exactly three callbacks: row 0's
    appearance at delay 0ms, row 1's at delay 100ms, and the reset of the
    title rows at delay 2 * 100 + 100 = 300ms. *)
Theorem expand_schedule (w : World) (container row0 row1 : string) :
  dynamicNavContainer w = Some container ->
  isNavExpanded w = false ->
  navRows w = [row0; row1] ->
  timers (toggleNavExpansion w) =
  timers w ++ [mkTimer 0 (now w + 0) (RowAppear row0);
               mkTimer 100 (now w + 100) (RowAppear row1);
               mkTimer 300 (now w + 300) TitlesReset].
Proof.
  intros Hc He Hrows. unfold toggleNavExpansion. rewrite updateToggleButton_timers.
  simpl. rewrite He. simpl. unfold expandNavRows. simpl. rewrite Hc, Hrows. simpl.
  by rewrite <- !app_assoc.
Qed.

Lemma expand_schedule_witness :
  navRowHeights sample_world = [40; 60]%Z /\
  timers (toggleNavExpansion sample_world) =
  [mkTimer 0 0 (RowAppear "nav-row-1"); mkTimer 100 100 (RowAppear "nav-row-2");
   mkTimer 300 300 TitlesReset].
Proof.
  split; [vm_compute; reflexivity|].
  exact (expand_schedule sample_world "dynamic-nav-container" "nav-row-1" "nav-row-2"
           ltac:(vm_compute; reflexivity) ltac:(vm_compute; reflexivity)
           ltac:(vm_compute; reflexivity)).
Defined.

(** ** Scroll mirroring *)

Lemma style_untouched (A : Type) (key : A -> string) (g : A -> Style.t -> Style.t)
      (l : list A) (d0 : Dom) (r : string) :
  r ∉ key <$> l ->
  foldl (fun d x => set_style (g x) (key x) d) d0 l !! r = d0 !! r.
Proof.
  revert d0. induction l as [|x l IH]; intros d0 Hr; [done|].
  simpl. rewrite fmap_cons, not_elem_of_cons in Hr. destruct Hr as [Hne Hr].
  rewrite IH by done. unfold set_style. by rewrite lookup_alter_ne.
Qed.

Lemma style_written (A : Type) (key : A -> string) (g : A -> Style.t -> Style.t)
      (l : list A) (d0 : Dom) (i : nat) (x : A) :
  NoDup (key <$> l) -> l !! i = Some x ->
  foldl (fun d x => set_style (g x) (key x) d) d0 l !! key x
  = with_style (g x) <$> d0 !! key x.
Proof.
  revert d0 i. induction l as [|y l IH]; intros d0 i Hnd Hi; [done|].
  rewrite fmap_cons, NoDup_cons in Hnd. destruct Hnd as [Hy Hnd]. simpl.
  destruct i as [|i]; simpl in Hi.
  - injection Hi as ->. rewrite style_untouched by done.
    unfold set_style. by rewrite lookup_alter_eq.
  - rewrite (IH _ i) by done. unfold set_style. rewrite lookup_alter_ne; [done|].
    intros Heq. apply Hy. rewrite Heq. apply list_elem_of_fmap_2.
    by eapply list_elem_of_lookup_2.
Qed.

Lemma headerInfo_elements d rows c : element <$> headerInfo d rows c = rows.
Proof. revert c. induction rows as [|r rows IH]; intros c; simpl; [done|]. by rewrite IH. Qed.

Lemma headerInfo_lookup d rows c i r :
  rows !! i = Some r ->
  exists header, headerInfo d rows c !! i = Some header /\
    element header = r /\ height header = height_of d r /\
    startPosition header = (c + sumZ (take i (map (height_of d) rows)))%Z.
Proof.
  revert c i. induction rows as [|r0 rows IH]; intros c i Hi; [done|].
  destruct i as [|i]; simpl in *.
  - injection Hi as ->. eexists. split; [reflexivity|]. simpl. repeat split.
    unfold sumZ. simpl. lia.
  - destruct (IH (c + height_of d r0)%Z i Hi) as (h & Hh & ? & ? & Hs).
    exists h. repeat split; try done. rewrite Hs. generalize (sumZ (take i (map (height_of d) rows))). lia.
Qed.

Lemma translation_header (totalScroll : Q) (header : Header) :
  (0 <= height header)%Z ->
  exists v, translation (header_transform totalScroll header) = Some v /\
    (v == - Qmin (Qmax 0 (totalScroll - inject_Z (startPosition header)))
                 (inject_Z (height header)))%Q.
Proof.
  intros Hh. assert (Hh' : (0 <= inject_Z (height header))%Q).
  { change 0%Q with (inject_Z 0). by rewrite <- Zle_Qle. }
  unfold header_transform.
  generalize dependent (inject_Z (height header)). intros hq Hh'.
  generalize (inject_Z (startPosition header)). intros start.
  destruct (Qle_bool start totalScroll) eqn:Hstart.
  - apply Qle_bool_iff in Hstart.
    assert (Hx : (0 <= totalScroll - start)%Q) by lra.
    destruct (Qle_bool hq (totalScroll - start)) eqn:Hfull.
    + apply Qle_bool_iff in Hfull. eexists. split; [reflexivity|].
      rewrite (Q.max_r _ _ Hx). by rewrite (Q.min_r _ _ Hfull).
    + assert (Hpart : (totalScroll - start <= hq)%Q).
      { apply Qlt_le_weak, Qnot_le_lt. intros Hle. apply Qle_bool_iff in Hle. congruence. }
      eexists. split; [reflexivity|].
      rewrite (Q.max_r _ _ Hx). by rewrite (Q.min_l _ _ Hpart).
  - assert (Hx : (totalScroll - start <= 0)%Q).
    { apply Qlt_le_weak. apply Qnot_le_lt. intros Hle.
      assert (Qle_bool start totalScroll = true) by (apply Qle_bool_iff; lra). congruence. }
    exists 0%Q. split; [reflexivity|].
    rewrite (Q.max_l _ _ Hx), (Q.min_l _ _ Hh'). lra.
Qed.

Lemma height_of_nonneg d r : (0 <= height_of d r)%Z.
Proof. unfold height_of. destruct (d !! r); lia. Qed.

(** C3: while the navigation is expanded and the scroll position [s] is past
    the threshold t = 10, the scroll-mirroring update gives row [i] of the
    nav rows the vertical translation
    [-min(max(0, (s - t) - sum(h0..h(i-1))), h_i)], the [h] being the rows'
    heights. *)
Theorem scroll_mirroring (w : World) (s : Q) (i : nat) (row : string) (e : Element) :
  isNavExpanded w = true ->
  (0 < s - scrollThreshold)%Q ->
  NoDup (navRows w) ->
  navRows w !! i = Some row ->
  dom w !! row = Some e ->
  exists css v,
    transform_of (dom (updateHeaders s w)) row = Some css /\
    translation css = Some v /\
    (v == - Qmin (Qmax 0 ((s - scrollThreshold) - inject_Z (sumZ (take i (navRowHeights w)))))
                 (inject_Z (Z.of_N (offsetHeight e))))%Q.
Proof.
  intros Hexp Hs Hnd Hi He. unfold updateHeaders.
  destruct (Qle_bool (s - scrollThreshold) 0) eqn:Hle.
  { apply Qle_bool_iff in Hle. lra. }
  rewrite Hexp. simpl.
  destruct (headerInfo_lookup (dom w) (navRows w) 0 i row Hi) as (h & Hh & Hel & Hht & Hst).
  destruct (translation_header (s - scrollThreshold) h) as (v & Hv & Hveq).
  { rewrite Hht. apply height_of_nonneg. }
  exists (header_transform (s - scrollThreshold) h), v. split; [|split; [exact Hv|]].
  - unfold transform_of. rewrite <- Hel.
    rewrite (style_written Header element
               (fun header => Style.set_transform (header_transform (s - scrollThreshold) header))
               _ _ i h); [|by rewrite headerInfo_elements|done].
    rewrite Hel, He. reflexivity.
  - rewrite Hveq, Hst, Hht. unfold navRowHeights, height_of at 2. rewrite He.
    by rewrite Z.add_0_l.
Qed.

Lemma scroll_mirroring_witness :
  (exists css v,
     transform_of (dom (updateHeaders 70 (toggleNavExpansion sample_world))) "nav-row-1"
       = Some css /\ translation css = Some v /\ (v == -40)%Q) /\
  (exists css v,
     transform_of (dom (updateHeaders 70 (toggleNavExpansion sample_world))) "nav-row-2"
       = Some css /\ translation css = Some v /\ (v == -20)%Q).
Proof.
  assert (Hexp : isNavExpanded (toggleNavExpansion sample_world) = true)
    by (vm_compute; reflexivity).
  assert (Hs : (0 < 70 - scrollThreshold)%Q) by reflexivity.
  assert (Hrows : navRows (toggleNavExpansion sample_world) = ["nav-row-1"; "nav-row-2"])
    by (vm_compute; reflexivity).
  assert (Hnd : NoDup (navRows (toggleNavExpansion sample_world))).
  { rewrite Hrows. apply (bool_decide_unpack (NoDup _)). vm_compute. exact I. }
  assert (H1 : is_Some (dom (toggleNavExpansion sample_world) !! "nav-row-1")).
  { apply (bool_decide_unpack (is_Some _)). vm_compute. exact I. }
  assert (H2 : is_Some (dom (toggleNavExpansion sample_world) !! "nav-row-2")).
  { apply (bool_decide_unpack (is_Some _)). vm_compute. exact I. }
  destruct H1 as [e1 H1], H2 as [e2 H2]. split.
  - destruct (scroll_mirroring _ 70 0 "nav-row-1" e1 Hexp Hs Hnd
                ltac:(by rewrite Hrows) H1) as (css & v & Hc & Ht & Hv).
    exists css, v. split; [exact Hc|]. split; [exact Ht|]. rewrite Hv.
    assert (e1.(offsetHeight) = 40%N) as ->.
    { assert (Hh : offsetHeight <$> dom (toggleNavExpansion sample_world) !! "nav-row-1"
                   = Some 40%N) by (vm_compute; reflexivity).
      rewrite H1 in Hh. by injection Hh. }
    reflexivity.
  - destruct (scroll_mirroring _ 70 1 "nav-row-2" e2 Hexp Hs Hnd
                ltac:(by rewrite Hrows) H2) as (css & v & Hc & Ht & Hv).
    exists css, v. split; [exact Hc|]. split; [exact Ht|]. rewrite Hv.
    assert (e2.(offsetHeight) = 60%N) as ->.
    { assert (Hh : offsetHeight <$> dom (toggleNavExpansion sample_world) !! "nav-row-2"
                   = Some 60%N) by (vm_compute; reflexivity).
      rewrite H2 in Hh. by injection Hh. }
    assert (navRowHeights (toggleNavExpansion sample_world) = [40; 60]%Z) as ->
      by (vm_compute; reflexivity).
    reflexivity.
Defined.

(** ** Missing elements *)

Lemma nav_row_ids : nav_row_id 1 = "nav-row-1" /\ nav_row_id 2 = "nav-row-2".
Proof. split; vm_compute; reflexivity. Qed.

Lemma getElementById_styled d f r id :
  getElementById (set_style f r d) id = getElementById d id.
Proof.
  unfold getElementById, set_style. destruct (decide (r = id)) as [->|Hne].
  - rewrite lookup_alter_eq. by destruct (d !! id).
  - by rewrite lookup_alter_ne.
Qed.

Lemma restyled_refl d : restyled d d.
Proof. intros id. destruct (d !! id); by constructor. Qed.

Lemma restyled_trans d1 d2 d3 : restyled d1 d2 -> restyled d2 d3 -> restyled d1 d3.
Proof.
  intros H12 H23 id. specialize (H12 id). specialize (H23 id).
  destruct H12 as [e1 e2 (?&?&?)|]; inversion H23 as [? e3 (?&?&?)|]; subst;
    constructor; repeat split; congruence.
Qed.

Lemma restyled_alter d (f : Element -> Element) r :
  (forall e, offsetHeight (f e) = offsetHeight e /\ rectTop (f e) = rectTop e /\
             rectBottom (f e) = rectBottom e) ->
  restyled d (alter f r d).
Proof.
  intros Hf id. destruct (decide (r = id)) as [->|Hne].
  - rewrite lookup_alter_eq. destruct (d !! id); constructor. apply Hf.
  - rewrite lookup_alter_ne by done. apply restyled_refl.
Qed.

Lemma restyled_set_style d f r : restyled d (set_style f r d).
Proof. by apply restyled_alter. Qed.

Lemma restyled_style_each d f rows : restyled d (style_each f rows d).
Proof.
  unfold style_each. apply (foldl_preserves (restyled d)); [|apply restyled_refl].
  intros d' r H. eapply restyled_trans; [exact H|apply restyled_set_style].
Qed.

Lemma restyled_getElementById d d' id :
  restyled d d' -> getElementById d' id = getElementById d id.
Proof. intros H. unfold getElementById. by destruct (H id). Qed.

Lemma restyled_height_of d d' r : restyled d d' -> height_of d' r = height_of d r.
Proof. intros H. unfold height_of. destruct (H r) as [? ? (->&_)|]; done. Qed.

Lemma init_nav_row_restyled acc i : restyled acc.2 (init_nav_row acc i).2.
Proof.
  unfold init_nav_row. destruct (getElementById _ _); [|apply restyled_refl].
  apply restyled_set_style.
Qed.

Lemma initializeNavRows_rows w :
  navRows (initializeNavRows w) = resolving (dom w) ["nav-row-1"; "nav-row-2"] /\
  titleRows (initializeNavRows w) = omap id [titleRow1 w; titleRow2 w] /\
  displayedRowRegistry (initializeNavRows w)
  = (resolving (dom w) ["nav-row-1"; "nav-row-2"] !! 0%nat)
      :: (Some <$> omap id [titleRow1 w; titleRow2 w]).
Proof.
  unfold initializeNavRows, resolving. cbn [foldl].
  assert (Hloop : (init_nav_row (init_nav_row ([], dom w) 1%N) 2%N).1
                  = omap (getElementById (dom w)) ["nav-row-1"; "nav-row-2"]).
  { unfold init_nav_row at 2. destruct nav_row_ids as [-> H2]. cbn [snd fst].
    unfold init_nav_row. rewrite H2.
    destruct (getElementById (dom w) "nav-row-1") as [r1|] eqn:E1; cbn [snd fst].
    - rewrite getElementById_styled. cbn [omap list_omap]. rewrite E1.
      by destruct (getElementById (dom w) "nav-row-2").
    - cbn [omap list_omap]. rewrite E1. by destruct (getElementById (dom w) "nav-row-2"). }
  destruct (init_nav_row (init_nav_row ([], dom w) 1%N) 2%N) as [rows d1].
  cbn [fst] in Hloop. subst rows.
  destruct (titleRow1 w), (titleRow2 w); done.
Qed.

Lemma initializeNavRows_restyled w : restyled (dom w) (dom (initializeNavRows w)).
Proof.
  unfold initializeNavRows. cbn [foldl].
  pose proof (init_nav_row_restyled ([], dom w) 1%N) as H1.
  pose proof (init_nav_row_restyled (init_nav_row ([], dom w) 1%N) 2%N) as H2.
  destruct (init_nav_row (init_nav_row ([], dom w) 1%N) 2%N) as [rows d1].
  cbn [snd] in *. pose proof (restyled_trans _ _ _ H1 H2) as H.
  destruct (titleRow1 w), (titleRow2 w); cbn;
    repeat (eapply restyled_trans; [|apply restyled_set_style]); exact H.
Qed.

Lemma updateToggleButton_restyled w : restyled (dom w) (dom (updateToggleButton w)).
Proof.
  unfold updateToggleButton. destruct (navToggle w) as [t|]; [|apply restyled_refl].
  destruct (dom w !! t) as [[? ? ? ? ? [?|] [?|]]|]; try apply restyled_refl.
  destruct (isNavExpanded w); by apply restyled_alter.
Qed.

Lemma updateButtonPosition_restyled w : restyled (dom w) (dom (updateButtonPosition w)).
Proof.
  unfold updateButtonPosition. destruct (getElementById _ _); [|apply restyled_refl].
  destruct (768 <=? innerWidth w)%Z; apply restyled_set_style.
Qed.

Lemma init_restyled w : restyled (dom w) (dom (init w)).
Proof.
  unfold init, setupEventListeners.
  eapply restyled_trans; [|apply updateButtonPosition_restyled].
  eapply restyled_trans; [|apply updateToggleButton_restyled].
  apply initializeNavRows_restyled.
Qed.

Lemma init_wiring w : wiring (init w) = wiring (initializeNavRows w).
Proof.
  unfold init, setupEventListeners.
  destruct (updateButtonPosition_same
              (updateToggleButton (set_ticking false (initializeNavRows w)))) as (->&_).
  by destruct (updateToggleButton_same (set_ticking false (initializeNavRows w))) as (->&_).
Qed.

(** ** The timer queue *)

Lemma turns_app q1 q2 : turns (q1 ++ q2) = turns q1 + turns q2.
Proof. induction q1 as [|t q1 IH]; simpl; [done|]. rewrite IH. lia. Qed.

Lemma weight_pos t : 1 <= weight t.
Proof. unfold weight. destruct (t_task t); lia. Qed.

Lemma pick_None q : pick q = None -> q = [].
Proof.
  destruct q as [|t q]; [done|]. simpl.
  destruct (pick q) as [[u r]|]; [|done]. by destruct (t_due t <=? t_due u)%Z.
Qed.

(** [pick] removes one timer; those queued before it are due strictly
    later, those queued after it are due no earlier. *)
Lemma pick_split q u r :
  pick q = Some (u, r) ->
  exists q1 q2, q = q1 ++ u :: q2 /\ r = q1 ++ q2 /\
    Forall (fun t => (t_due u < t_due t)%Z) q1 /\
    Forall (fun t => (t_due u <= t_due t)%Z) q2.
Proof.
  revert u r. induction q as [|t q IH]; intros u r; [done|]. simpl.
  destruct (pick q) as [[u' r']|] eqn:E.
  - destruct (IH _ _ eq_refl) as (q1 & q2 & -> & -> & H1 & H2).
    destruct (Z.leb_spec (t_due t) (t_due u')); intros [= <- <-].
    + exists [], (q1 ++ u' :: q2). repeat split; [constructor|].
      apply Forall_app. split.
      * eapply Forall_impl; [exact H1|]. simpl. intros; lia.
      * constructor; [done|]. eapply Forall_impl; [exact H2|]. simpl. intros; lia.
    + exists (t :: q1), q2. repeat split; [|done]. by constructor.
  - apply pick_None in E as ->. intros [= <- <-]. exists [], []. by repeat split.
Qed.

(** Where a chosen timer sits relative to a marked one. *)
Lemma split_position {A : Type} (q1 q2 qa qb : list A) (u h : A) :
  q1 ++ u :: q2 = qa ++ h :: qb ->
  (exists m, qa = q1 ++ u :: m /\ q2 = m ++ h :: qb) \/
  (q1 = qa /\ u = h /\ q2 = qb) \/
  (exists m, q1 = qa ++ h :: m /\ qb = m ++ u :: q2).
Proof.
  revert qa. induction q1 as [|x q1 IH]; intros qa H.
  - destruct qa as [|y qa]; simpl in H.
    + injection H as -> ->. right. by left.
    + injection H as -> ->. left. by exists qa.
  - destruct qa as [|y qa]; simpl in H.
    + injection H as -> <-. right. right. by exists q1.
    + injection H as -> H. destruct (IH _ H) as [(m & -> & ->)|[(-> & -> & ->)|(m & -> & ->)]].
      * left. by exists m.
      * right. by left.
      * right. right. by exists m.
Qed.

(** What running a task does to the queue: only [ContainerHide] adds to it. *)
Lemma run_task_timers k w :
  timers (run_task k w) = timers w \/
  (k = ContainerHide /\
   timers (run_task k w) = timers w ++ [mkTimer 150 (now w + 150) ResetAll]).
Proof.
  destruct k; simpl; try by left.
  - left. by destruct (displayedRowRegistry w !! i) as [[?|]|].
  - destruct (dynamicNavContainer w); [|by left]. right. by split.
Qed.

Lemma fire_turns w k w' :
  fire w = Some (k, w') -> turns (timers w') < turns (timers w).
Proof.
  unfold fire. destruct (pick (timers w)) as [[u r]|] eqn:E; [|done].
  intros [= <- <-]. destruct (pick_split _ _ _ E) as (q1 & q2 & Hq & -> & _).
  rewrite Hq, !turns_app. simpl.
  destruct (run_task_timers (t_task u)
              (set_now (Z.max (now w) (t_due u)) (set_timers (q1 ++ q2) w)))
    as [->|[Hk ->]]; simpl.
  - rewrite turns_app. pose proof (weight_pos u). lia.
  - rewrite !turns_app. simpl. unfold weight. rewrite Hk. lia.
Qed.

Lemma fire_None w : fire w = None -> timers w = [].
Proof.
  unfold fire. destruct (pick (timers w)) as [[u r]|] eqn:E; [done|].
  intros _. by apply pick_None.
Qed.

(** With fuel for every remaining turn, the queue runs dry. *)
Lemma drain_idle fuel : forall w,
  turns (timers w) <= fuel -> timers (drain fuel w).2 = [].
Proof.
  induction fuel as [|fuel IH]; intros w Hw; simpl.
  - destruct (timers w) as [|t q]; [done|]. simpl in Hw. pose proof (weight_pos t). lia.
  - destruct (fire w) as [[k w']|] eqn:E.
    + pose proof (fire_turns _ _ _ E). specialize (IH w' ltac:(lia)).
      by destruct (drain fuel w').
    + simpl. by apply fire_None.
Qed.

(** ** Styles after a task *)

Lemma styled_set_same (Q : Style.t -> Prop) f r d :
  (forall s, Q (f s)) -> styled Q (set_style f r d) r.
Proof.
  intros HQ e. unfold set_style. rewrite lookup_alter_eq.
  destruct (d !! r); simpl; intros [= <-]. apply HQ.
Qed.

Lemma styled_set_keep (Q : Style.t -> Prop) f r r' d :
  (forall s, Q s -> Q (f s)) -> styled Q d r -> styled Q (set_style f r' d) r.
Proof.
  intros HQ H e. unfold set_style. destruct (decide (r' = r)) as [->|Hne].
  - rewrite lookup_alter_eq. destruct (d !! r) eqn:E; simpl; intros [= <-]. by apply HQ, H.
  - rewrite lookup_alter_ne by done. apply H.
Qed.

Lemma styled_each_keep (Q : Style.t -> Prop) f rows d r :
  (forall s, Q s -> Q (f s)) -> styled Q d r -> styled Q (style_each f rows d) r.
Proof.
  intros HQ H. unfold style_each.
  apply (foldl_preserves (fun d' => styled Q d' r)); [|done].
  intros d' r' H'. by apply styled_set_keep.
Qed.

Lemma styled_each_in (Q : Style.t -> Prop) f rows d r :
  (forall s, Q (f s)) -> r ∈ rows -> styled Q (style_each f rows d) r.
Proof.
  intros HQ. revert d. induction rows as [|x rows IH]; intros d Hr.
  - by apply elem_of_nil in Hr.
  - apply elem_of_cons in Hr as [->|Hr].
    + change (styled Q (style_each f rows (set_style f x d)) x).
      apply styled_each_keep; [auto|]. by apply styled_set_same.
    + apply (IH (set_style f x d) Hr).
Qed.

Lemma reset_neutral w : neutral (run_task ResetAll w).
Proof.
  unfold neutral. simpl. split; [|split].
  - intros row Hrow.
    assert (H2 : styled (fun s => Style.transform s = identity /\ Style.opacity s = Lit "1")
                   (style_each (Style.set_transform identity) (titleRows w)
                      (style_each reset_row (navRows w) (dom w))) row).
    { apply styled_each_keep; [intros s [_ H]; by split|]. by apply styled_each_in. }
    destruct (contentScroll w) as [cs|]; [|exact H2].
    apply styled_set_keep; [intros s [_ H]; by split|exact H2].
  - intros row Hrow.
    assert (H2 : styled (fun s => Style.transform s = identity)
                   (style_each (Style.set_transform identity) (titleRows w)
                      (style_each reset_row (navRows w) (dom w))) row)
      by (by apply styled_each_in).
    destruct (contentScroll w) as [cs|]; [|exact H2]. by apply styled_set_keep.
  - intros c ->. by apply styled_set_same.
Qed.

Lemma reset_keeps_hidden w : container_hidden w -> container_hidden (run_task ResetAll w).
Proof.
  intros H c Hc. simpl in *. specialize (H c Hc).
  assert (H2 : styled (fun s => Style.maxHeight s = Lit "0")
                 (style_each (Style.set_transform identity) (titleRows w)
                    (style_each reset_row (navRows w) (dom w))) c).
  { apply styled_each_keep; [done|]. by apply styled_each_keep. }
  destruct (contentScroll w) as [cs|]; [|exact H2]. by apply styled_set_keep.
Qed.

Lemma run_task_restyled k w : restyled (dom w) (dom (run_task k w)).
Proof.
  destruct k; simpl.
  - destruct (displayedRowRegistry w !! i) as [[?|]|]; simpl;
      [apply restyled_set_style|apply restyled_refl..].
  - apply restyled_set_style.
  - apply restyled_style_each.
  - eapply restyled_trans; [apply restyled_set_style|].
    eapply restyled_trans; [apply restyled_style_each|].
    destruct (contentScroll w); [apply restyled_set_style|apply restyled_refl].
  - destruct (dynamicNavContainer w); simpl; [apply restyled_set_style|apply restyled_refl].
  - eapply restyled_trans; [apply restyled_style_each|].
    eapply restyled_trans; [apply restyled_style_each|].
    destruct (contentScroll w); [apply restyled_set_style|apply restyled_refl].
Qed.

Lemma fire_pick w u r :
  pick (timers w) = Some (u, r) ->
  fire w = Some (t_task u,
                 run_task (t_task u) (set_now (Z.max (now w) (t_due u)) (set_timers r w))).
Proof. intros H. unfold fire. by rewrite H. Qed.

Lemma fire_restyled w k w' : fire w = Some (k, w') -> restyled (dom w) (dom w').
Proof.
  unfold fire. destruct (pick (timers w)) as [[u r]|]; [|done]. intros [= <- <-].
  apply (run_task_restyled (t_task u) (set_now _ (set_timers r w))).
Qed.

Lemma drain_frame fuel : forall w,
  restyled (dom w) (dom (drain fuel w).2) /\ same_instance w (drain fuel w).2.
Proof.
  induction fuel as [|fuel IH]; intros w; simpl.
  - split; [apply restyled_refl|apply same_instance_refl].
  - destruct (fire w) as [[k w']|] eqn:E; simpl.
    + destruct (IH w') as [Hr Hs]. destruct (drain fuel w'). simpl in *. split.
      * eapply restyled_trans; [eapply fire_restyled, E|exact Hr].
      * eapply same_instance_trans; [eapply fire_same, E|exact Hs].
    + split; [apply restyled_refl|apply same_instance_refl].
Qed.

(** ** A collapse chain runs to the neutral state *)

Lemma hide_pending_nonempty w : hide_pending w -> timers w <> [].
Proof. intros (hide & qa & qb & -> & _). by destruct qa. Qed.

(** One turn while the hide is pending: either it still is, or it has just
    run and only resets are left. *)
Lemma fire_hide_pending w c k w' :
  dynamicNavContainer w = Some c -> hide_pending w -> fire w = Some (k, w') ->
  hide_pending w' \/ (k = ContainerHide /\ resets_pending w' /\ timers w' <> []).
Proof.
  intros Hc (hide & qa & qb & Hq & Hhide & Hqa & Hqb). unfold fire.
  destruct (pick (timers w)) as [[u r]|] eqn:E; [|done]. intros [= <- <-].
  destruct (pick_split _ _ _ E) as (q1 & q2 & Hsplit & -> & Hq1 & Hq2).
  set (w1 := set_now (Z.max (now w) (t_due u)) (set_timers (q1 ++ q2) w)).
  rewrite Hq in Hsplit. symmetry in Hsplit.
  destruct (split_position _ _ _ _ _ _ Hsplit)
    as [(m & -> & ->)|[(-> & -> & ->)|(m & -> & ->)]].
  - (* a timer queued before the hide runs *)
    left. apply Forall_app in Hqa as [Ha Hb]. inversion Hb as [|? ? _ Hm]; subst.
    exists hide, (q1 ++ m).
    destruct (run_task_timers (t_task u) w1) as [->|[_ ->]]; simpl.
    + exists qb. rewrite <- app_assoc. split_and!; try done. by apply Forall_app.
    + exists (qb ++ [mkTimer 150 (Z.max (now w) (t_due u) + 150) ResetAll]).
      rewrite <- !app_assoc. split_and!; try done; apply Forall_app; split; try done.
      by repeat constructor.
  - (* the hide itself runs: nothing was queued before it *)
    right. split; [done|].
    assert (qa = []) as ->.
    { destruct qa as [|t qa]; [done|].
      inversion Hqa; subst. inversion Hq1; subst. lia. }
    rewrite Hhide. simpl. rewrite Hc. simpl. split; [|by destruct qb].
    split_and!.
    + apply Forall_app. split; [done|]. by repeat constructor.
    + intros c' Hc'. simpl in *. rewrite Hc in Hc'. injection Hc' as <-.
      by apply styled_set_same.
    + left. by destruct qb.
  - (* a reset queued behind the hide runs first *)
    left. apply Forall_app in Hqb as [Ha Hb]. inversion Hb as [|? ? Hu Hm]; subst.
    unfold is_reset in Hu. rewrite Hu. exists hide, qa, (m ++ q2). simpl.
    rewrite <- app_assoc. split_and!; try done. by apply Forall_app.
Qed.

(** One turn while only resets are pending: a reset runs and leaves the
    widget neutral. *)
Lemma fire_resets_pending w k w' :
  resets_pending w -> fire w = Some (k, w') ->
  k = ResetAll /\ resets_pending w' /\ neutral w'.
Proof.
  intros (Hall & Hhid & _). unfold fire.
  destruct (pick (timers w)) as [[u r]|] eqn:E; [|done]. intros [= <- <-].
  destruct (pick_split _ _ _ E) as (q1 & q2 & Hq & -> & _).
  rewrite Hq in Hall. apply Forall_app in Hall as [Ha Hb].
  inversion Hb as [|? ? Hu Hm]; subst. unfold is_reset in Hu. rewrite Hu.
  set (w1 := set_now (Z.max (now w) (t_due u)) (set_timers (q1 ++ q2) w)).
  split; [done|]. split; [|apply reset_neutral]. split_and!.
  - simpl. by apply Forall_app.
  - by apply reset_keeps_hidden.
  - right. apply reset_neutral.
Qed.

(** Once only resets are pending, the queue drains through resets alone. *)
Lemma resets_settle fuel : forall w,
  resets_pending w -> turns (timers w) <= fuel ->
  timers (drain fuel w).2 = [] /\ neutral (drain fuel w).2 /\
  container_hidden (drain fuel w).2 /\
  Forall (fun k => k = ResetAll) (drain fuel w).1 /\
  (timers w <> [] -> (drain fuel w).1 <> []).
Proof.
  induction fuel as [|fuel IH]; intros w Hw Hfuel.
  - assert (Hq : timers w = []).
    { destruct (timers w) as [|t q]; [done|]. simpl in Hfuel. pose proof (weight_pos t). lia. }
    simpl. destruct Hw as (_ & Hhid & [?|Hn]); [done|]. split_and!; done.
  - simpl. destruct (fire w) as [[k w']|] eqn:E.
    + pose proof (fire_turns _ _ _ E) as Hlt.
      destruct (fire_resets_pending _ _ _ Hw E) as (-> & Hw' & _).
      destruct (IH w' Hw' ltac:(lia)) as (H1 & H2 & H3 & H4 & _).
      destruct (drain fuel w') as [ks w2]. simpl in *.
      split_and!; try done. by constructor.
    + apply fire_None in E. simpl.
      destruct Hw as (_ & Hhid & [?|Hn]); [done|]. split_and!; done.
Qed.

Lemma ends_with_reset_cons k ks : ends_with_reset ks -> ends_with_reset (k :: ks).
Proof. intros (b & rs & -> & ? & ?). by exists (k :: b), rs. Qed.

(** While a hide is pending, the queue drains, the container gets hidden,
    and a reset has the last word. *)
Lemma chain_settles fuel : forall w c,
  dynamicNavContainer w = Some c -> hide_pending w -> turns (timers w) <= fuel ->
  timers (drain fuel w).2 = [] /\ neutral (drain fuel w).2 /\
  container_hidden (drain fuel w).2 /\ ends_with_reset (drain fuel w).1.
Proof.
  induction fuel as [|fuel IH]; intros w c Hc Hw Hfuel.
  { destruct Hw as (hide & qa & qb & Hq & _). rewrite Hq, turns_app in Hfuel.
    simpl in Hfuel. pose proof (weight_pos hide). lia. }
  simpl. destruct (fire w) as [[k w']|] eqn:E;
    [|apply fire_None in E; by apply hide_pending_nonempty in Hw].
  pose proof (fire_turns _ _ _ E) as Hlt.
  assert (Hc' : dynamicNavContainer w' = Some c).
  { destruct (fire_same _ _ _ E) as (Hwire & _).
    unfold wiring in Hwire. by injection Hwire as _ _ _ -> _ _ _ _ _ _. }
  destruct (fire_hide_pending _ _ _ _ Hc Hw E) as [Hw'|(-> & Hw' & Hne)].
  - destruct (IH w' c Hc' Hw' ltac:(lia)) as (H1 & H2 & H3 & H4).
    destruct (drain fuel w') as [ks w2]. simpl in *.
    split_and!; try done. by apply ends_with_reset_cons.
  - destruct (resets_settle fuel w' Hw' ltac:(lia)) as (H1 & H2 & H3 & H4 & H5).
    specialize (H5 Hne). destruct (drain fuel w') as [ks w2]. simpl in *.
    split_and!; try done. by exists [], ks.
Qed.

(** ** What a collapse queues *)

Lemma collapse_dom w : dom (collapseNavRowsWithContentMovement w) = dom w.
Proof.
  unfold collapseNavRowsWithContentMovement. destruct (dynamicNavContainer w); [|done].
  simpl. by apply (forEach_index_preserves (fun w' => dom w' = dom w)).
Qed.

Lemma collapse_now w : now (collapseNavRowsWithContentMovement w) = now w.
Proof.
  unfold collapseNavRowsWithContentMovement. destruct (dynamicNavContainer w); [|done].
  simpl. by apply (forEach_index_preserves (fun w' => now w' = now w)).
Qed.

Lemma collapse_queue w c :
  dynamicNavContainer w = Some c ->
  exists hide qa,
    timers (collapseNavRowsWithContentMovement w) = (timers w ++ qa) ++ [hide] /\
    t_task hide = ContainerHide /\
    t_due hide = (now w + (Z.of_nat (length (navRows w)) * 100 + ANIMATION_DURATION))%Z /\
    Forall (fun t => (t_due t <= t_due hide)%Z) qa.
Proof.
  intros Hc. unfold collapseNavRowsWithContentMovement. rewrite Hc.
  set (n := Z.of_nat (length (navRows w))).
  set (bound := (now w + (n * 100 + ANIMATION_DURATION))%Z).
  set (body := fun (row : string) (index : nat) (w' : World) => _).
  assert (Hloop : now (forEach_index body (navRows w) 0 (set_cells (cells w ++ [0%Z]) w)) = now w /\
                  exists qa, timers (forEach_index body (navRows w) 0
                                       (set_cells (cells w ++ [0%Z]) w)) = timers w ++ qa /\
                             Forall (fun t => (t_due t <= bound)%Z) qa).
  { apply (forEach_index_preserves
             (fun w' => now w' = now w /\
                        exists qa, timers w' = timers w ++ qa /\
                                   Forall (fun t => (t_due t <= bound)%Z) qa)).
    - intros row index w' (Hnow & qa & Hq & Hall). subst body. simpl. split; [done|].
      eexists. rewrite Hq, <- app_assoc. split; [reflexivity|].
      apply Forall_app. split; [done|]. constructor; [|constructor]. simpl.
      rewrite ?Qfloor_Z, ?Z.div_1_r, Hnow. subst bound n. unfold ANIMATION_DURATION. lia.
    - split; [done|]. exists []. by rewrite app_nil_r. }
  destruct Hloop as (Hnow & qa & Hq & Hall).
  eexists _, qa. simpl. rewrite Hq. split; [reflexivity|]. simpl.
  rewrite ?Qfloor_Z, ?Z.div_1_r, Hnow.
  assert (Hb : (now w + Z.max 0 (n * 100 + ANIMATION_DURATION))%Z = bound).
  { subst bound n. unfold ANIMATION_DURATION. lia. }
  fold n. rewrite Hb. by split_and!.
Qed.

Lemma expand_queue w :
  now (expandNavRows w) = now w /\
  exists qa, timers (expandNavRows w) = timers w ++ qa /\
    Forall (fun t => (t_due t <= now w + (Z.of_nat (length (navRows w)) * 100
                                          + ANIMATION_DURATION))%Z) qa.
Proof.
  unfold expandNavRows. destruct (dynamicNavContainer w) as [c|].
  2:{ split; [done|]. exists []. by rewrite app_nil_r. }
  set (n := length (navRows w)).
  set (bound := (now w + (Z.of_nat n * 100 + ANIMATION_DURATION))%Z).
  set (body := fun (row : string) (index : nat) (w' : World) => _).
  set (w1 := set_dom _ w).
  assert (Hloop : forall rows i, i + length rows <= n ->
            forall w', (now w' = now w /\ exists qa, timers w' = timers w ++ qa /\
                          Forall (fun t => (t_due t <= bound)%Z) qa) ->
            now (forEach_index body rows i w') = now w /\
            exists qa, timers (forEach_index body rows i w') = timers w ++ qa /\
                       Forall (fun t => (t_due t <= bound)%Z) qa).
  { induction rows as [|row rows IH]; intros i Hi w' Hw'; [done|]. simpl in *.
    apply IH; [lia|]. destruct Hw' as (Hnow & qa & Hq & Hall). subst body. simpl.
    split; [done|]. eexists. rewrite Hq, <- app_assoc. split; [reflexivity|].
    apply Forall_app. split; [done|]. constructor; [|constructor]. simpl.
    rewrite ?Qfloor_Z, ?Z.div_1_r, Hnow. subst bound. unfold ANIMATION_DURATION. lia. }
  destruct (Hloop (navRows w) 0 ltac:(subst n; lia) w1) as (Hnow & qa & Hq & Hall).
  { split; [done|]. exists []. by rewrite app_nil_r. }
  simpl. split; [done|]. eexists. rewrite Hq, <- app_assoc. split; [reflexivity|].
  apply Forall_app. split; [done|]. constructor; [|constructor]. simpl.
  rewrite ?Qfloor_Z, ?Z.div_1_r, Hnow. subst bound n. unfold ANIMATION_DURATION. lia.
Qed.

(** A collapse started while nothing pending can outlast its container-hide
    step runs to the neutral state. *)
Lemma collapse_settles_from w c :
  dynamicNavContainer w = Some c -> pending_in_time w ->
  timers (settle (collapseNavRowsWithContentMovement w)).2 = [] /\
  neutral (settle (collapseNavRowsWithContentMovement w)).2 /\
  container_hidden (settle (collapseNavRowsWithContentMovement w)).2 /\
  ends_with_reset (settle (collapseNavRowsWithContentMovement w)).1.
Proof.
  intros Hc Hpending. destruct (collapse_queue w c Hc) as (hide & qa & Hq & Hk & Hdue & Hqa).
  unfold settle. apply (chain_settles _ _ c); [|exists hide, (timers w ++ qa), []|lia].
  - by destruct (collapse_same w) as (Hw & _); unfold wiring in Hw;
      injection Hw as _ _ _ -> _ _ _ _ _ _.
  - split_and!; try done. apply Forall_app. split; [|done].
    eapply Forall_impl; [exact Hpending|]. simpl. intros t Ht. rewrite Hdue. exact Ht.
Qed.

(** ** Pending timers of a running widget *)

Lemma pending_later w w' :
  navRows w' = navRows w -> (now w <= now w')%Z ->
  (forall t, t ∈ timers w' ->
     t ∈ timers w \/
     (t_due t <= now w' + (Z.of_nat (length (navRows w)) * 100 + ANIMATION_DURATION))%Z) ->
  pending_in_time w -> pending_in_time w'.
Proof.
  unfold pending_in_time. rewrite !Forall_forall. intros Hrows Hnow Ht Hw t Hin.
  rewrite Hrows. destruct (Ht t Hin) as [Hold|Hnew]; [|done].
  specialize (Hw t Hold). simpl in Hw. lia.
Qed.

Lemma updateToggleButton_now w : now (updateToggleButton w) = now w.
Proof.
  unfold updateToggleButton. destruct (navToggle w) as [t|]; [|done].
  destruct (dom w !! t) as [[? ? ? ? ? [?|] [?|]]|]; try done.
  by destruct (isNavExpanded w).
Qed.

Lemma updateButtonPosition_queue w :
  timers (updateButtonPosition w) = timers w /\ now (updateButtonPosition w) = now w.
Proof.
  unfold updateButtonPosition. destruct (getElementById _ _); [|done].
  by destruct (768 <=? innerWidth w)%Z.
Qed.

Lemma updateHeaders_queue s w :
  timers (updateHeaders s w) = timers w /\ now (updateHeaders s w) = now w.
Proof. unfold updateHeaders. by destruct (Qle_bool _ _), (isNavExpanded w). Qed.

Lemma onFrame_queue w : timers (onFrame w) = timers w /\ now (onFrame w) = now w.
Proof.
  unfold onFrame. destruct (contentScroll w) as [c|]; [|done]. simpl.
  apply updateHeaders_queue.
Qed.

Lemma navRows_of_wiring w w' : wiring w' = wiring w -> navRows w' = navRows w.
Proof. unfold wiring. by intros [= _ _ _ _ _ _ _ _ -> _]. Qed.

Lemma container_of_wiring w w' :
  wiring w' = wiring w -> dynamicNavContainer w' = dynamicNavContainer w.
Proof. unfold wiring. by intros [= _ _ _ -> _ _ _ _ _ _]. Qed.

Lemma toggle_pending w : pending_in_time w -> pending_in_time (toggleNavExpansion w).
Proof.
  intros Hw. apply (pending_later w); [apply navRows_of_wiring, toggle_wiring| | |exact Hw].
  - unfold toggleNavExpansion. rewrite updateToggleButton_now.
    destruct (isNavExpanded _).
    + by destruct (expand_queue (set_isNavExpanded (negb (isNavExpanded w)) w)) as [-> _].
    + by rewrite collapse_now.
  - intros t. unfold toggleNavExpansion. rewrite updateToggleButton_timers, updateToggleButton_now.
    set (w1 := set_isNavExpanded (negb (isNavExpanded w)) w).
    destruct (isNavExpanded w1).
    + destruct (expand_queue w1) as (-> & qa & -> & Hqa).
      rewrite elem_of_app. intros [?|Hin]; [by left|right].
      rewrite Forall_forall in Hqa. apply (Hqa t Hin).
    + destruct (dynamicNavContainer w1) as [c|] eqn:Hc.
      * destruct (collapse_queue w1 c Hc) as (hide & qa & -> & _ & Hdue & Hqa).
        rewrite collapse_now, !elem_of_app, list_elem_of_singleton.
        intros [[?|Hin]| ->]; [by left|right..].
        -- rewrite Forall_forall in Hqa. specialize (Hqa t Hin). simpl in *. lia.
        -- rewrite Hdue. simpl. lia.
      * unfold collapseNavRowsWithContentMovement. rewrite Hc. by left.
Qed.

Lemma fire_pending w k w' : fire w = Some (k, w') -> pending_in_time w -> pending_in_time w'.
Proof.
  unfold fire. destruct (pick (timers w)) as [[u r]|] eqn:E; [|done]. intros [= <- <-] Hw.
  destruct (pick_split _ _ _ E) as (q1 & q2 & Hq & -> & _).
  set (w1 := set_now (Z.max (now w) (t_due u)) (set_timers (q1 ++ q2) w)).
  destruct (run_task_same (t_task u) w1) as (Hwire & _).
  assert (Hnow : now (run_task (t_task u) w1) = Z.max (now w) (t_due u)).
  { destruct (t_task u); simpl; try done.
    - by destruct (displayedRowRegistry w !! i) as [[?|]|].
    - by destruct (dynamicNavContainer w). }
  apply (pending_later w); [by rewrite (navRows_of_wiring _ _ Hwire)|lia| |exact Hw].
  intros t. rewrite Hnow.
  destruct (run_task_timers (t_task u) w1) as [->|[_ ->]]; simpl; rewrite Hq.
  - rewrite !elem_of_app, elem_of_cons. intros [?|?]; left; tauto.
  - rewrite !elem_of_app, list_elem_of_singleton, elem_of_cons.
    intros [[?|?]| ->]; [left; tauto..|right]. simpl. unfold ANIMATION_DURATION. lia.
Qed.

Lemma step_pending w ev : pending_in_time w -> pending_in_time (step w ev).
Proof.
  intros Hw. destruct ev; simpl.
  - by apply toggle_pending.
  - destruct (contentScroll w) as [c|]; [|done]. unfold onScroll. simpl.
    by destruct (ticking w).
  - change (pending_in_time (Nat.iter (rafPending w) onFrame w)).
    apply (iter_preserves pending_in_time); [|done]. intros w' Hw'.
    destruct (onFrame_queue w') as [Ht Hn]. destruct (onFrame_same w') as (Hwire & _).
    apply (pending_later w'); [by apply navRows_of_wiring|lia| |done].
    intros t. rewrite Ht. by left.
  - destruct (updateButtonPosition_queue (set_innerWidth width w)) as [Ht Hn].
    destruct (updateButtonPosition_same (set_innerWidth width w)) as (Hwire & _).
    apply (pending_later w); [by rewrite (navRows_of_wiring _ _ Hwire)|by rewrite Hn| |done].
    intros t. rewrite Ht. by left.
  - destruct (fire w) as [[k w']|] eqn:E; [|done]. by eapply fire_pending.
  - apply (pending_later w); [done|simpl; lia| |done]. intros t. by left.
  - done.
Qed.

Lemma new_queue d width w0 :
  DynamicNavigation_new d width = Ok w0 ->
  timers w0 = [] /\
  dynamicNavContainer w0 = getElementById d "dynamic-nav-container".
Proof.
  unfold DynamicNavigation_new. destruct (getElementById d "nav-row-1"); [|done].
  intros [= <-]. set (w := mkWorld _ _ _ _ _ _ _ _ _ _ _ _ _ _ _ _ _ _ _ _). split.
  - unfold init, setupEventListeners.
    destruct (updateButtonPosition_queue
                (updateToggleButton (set_ticking false (initializeNavRows w)))) as [-> _].
    rewrite updateToggleButton_timers. simpl.
    by destruct (initializeNavRows_state w) as (_ & _ & -> & _).
  - rewrite (container_of_wiring _ _ (init_wiring w)).
    by destruct (initializeNavRows_state w) as (_ & _ & _ & -> & _).
Qed.

Lemma run_pending w evs : pending_in_time w -> pending_in_time (run w evs).
Proof.
  intros Hw. unfold run. apply (foldl_preserves pending_in_time); [|done].
  intros w' ev. apply step_pending.
Qed.

(** ** Events in between *)

Lemma keeps_styles_refl d : keeps_styles d d.
Proof. intros r e He. by exists e. Qed.

Lemma keeps_styles_alter d (f : Element -> Element) r :
  (forall e, Style.transform (style (f e)) = Style.transform (style e) /\
             Style.opacity (style (f e)) = Style.opacity (style e) /\
             Style.maxHeight (style (f e)) = Style.maxHeight (style e)) ->
  keeps_styles d (alter f r d).
Proof.
  intros Hf r' e'. destruct (decide (r = r')) as [->|Hne].
  - rewrite lookup_alter_eq. destruct (d !! r') as [e|]; simpl; intros [= <-].
    exists e. split; [done|]. apply Hf.
  - rewrite lookup_alter_ne by done. intros He. by exists e'.
Qed.

Lemma styled_keeps (Q : Style.t -> Prop) d d' r :
  (forall s s', Style.transform s' = Style.transform s -> Style.opacity s' = Style.opacity s ->
                Style.maxHeight s' = Style.maxHeight s -> Q s -> Q s') ->
  keeps_styles d d' -> styled Q d r -> styled Q d' r.
Proof.
  intros HQ Hk H e' He'. destruct (Hk r e' He') as (e & He & Ht & Ho & Hm).
  apply (HQ (style e)); auto.
Qed.

Lemma neutral_keeps w w' :
  wiring w' = wiring w -> keeps_styles (dom w) (dom w') -> neutral w -> neutral w'.
Proof.
  intros Hwire Hk (H1 & H2 & H3). unfold wiring in Hwire.
  injection Hwire as Hcs _ _ _ _ _ _ _ Hnav Htitle. unfold neutral.
  rewrite Hcs, Hnav, Htitle. split_and!.
  - intros row Hrow. eapply styled_keeps; [|exact Hk|by apply H1].
    simpl. intros s s' -> -> _. done.
  - intros row Hrow. eapply styled_keeps; [|exact Hk|by apply H2].
    simpl. by intros s s' -> _ _.
  - intros c Hc. eapply styled_keeps; [|exact Hk|by apply H3].
    simpl. by intros s s' -> _ _.
Qed.

Lemma hidden_keeps w w' :
  wiring w' = wiring w -> keeps_styles (dom w) (dom w') ->
  container_hidden w -> container_hidden w'.
Proof.
  intros Hwire Hk H c Hc. rewrite (container_of_wiring _ _ Hwire) in Hc.
  eapply styled_keeps; [|exact Hk|by apply H]. simpl. by intros s s' _ _ ->.
Qed.

(** An event that leaves the queue alone and keeps the styles the chain
    cares about does not disturb the chain. *)
Lemma chain_undisturbed w w' :
  timers w' = timers w -> wiring w' = wiring w -> keeps_styles (dom w) (dom w') ->
  hide_pending w \/ resets_pending w -> hide_pending w' \/ resets_pending w'.
Proof.
  intros Ht Hwire Hk [Hh|(Hall & Hhid & Hor)].
  - left. unfold hide_pending. by rewrite Ht.
  - right. unfold resets_pending. rewrite Ht. split_and!; try done.
    + by apply (hidden_keeps w).
    + destruct Hor as [?|Hn]; [by left|right]. by apply (neutral_keeps w).
Qed.

Lemma updateHeaders_collapsed s w : isNavExpanded w = false -> updateHeaders s w = w.
Proof. intros H. unfold updateHeaders. rewrite H. by destruct (Qle_bool _ _). Qed.

Lemma frame_quiet w :
  isNavExpanded w = false ->
  timers (step w Frame) = timers w /\ dom (step w Frame) = dom w.
Proof.
  intros H. simpl.
  assert (Hiter : isNavExpanded (Nat.iter (rafPending w) onFrame w) = false /\
                  dom (Nat.iter (rafPending w) onFrame w) = dom w /\
                  timers (Nat.iter (rafPending w) onFrame w) = timers w).
  { apply (iter_preserves (fun w' => isNavExpanded w' = false /\ dom w' = dom w /\
                                     timers w' = timers w)); [|done].
    intros w' (Hf & Hd & Ht). unfold onFrame. destruct (contentScroll w') as [c|]; [|done].
    rewrite (updateHeaders_collapsed _ _ Hf). by simpl. }
  by destruct Hiter as (_ & -> & ->).
Qed.

(** Scrolls, frames, resizes, waits and accessor calls while collapsed. *)
Lemma bystander_step w ev :
  isNavExpanded w = false -> ev <> Toggle -> ev <> TimerFires ->
  timers (step w ev) = timers w /\ keeps_styles (dom w) (dom (step w ev)).
Proof.
  intros Hf Ht Hfire. destruct ev; try done.
  - simpl. destruct (contentScroll w) as [c|]; [|split; [done|apply keeps_styles_refl]].
    unfold onScroll. simpl. split; [by destruct (ticking w)|].
    destruct (ticking w); simpl; by apply keeps_styles_alter.
  - destruct (frame_quiet w Hf) as [-> ->]. split; [done|apply keeps_styles_refl].
  - simpl. destruct (updateButtonPosition_queue (set_innerWidth width w)) as [-> _].
    split; [done|]. unfold updateButtonPosition.
    destruct (getElementById _ _); [|apply keeps_styles_refl].
    destruct (768 <=? innerWidth (set_innerWidth width w))%Z; simpl; by apply keeps_styles_alter.
  - split; [done|apply keeps_styles_refl].
  - split; [done|apply keeps_styles_refl].
Qed.

Lemma quiet_step w c ev :
  ev <> Toggle -> isNavExpanded w = false -> dynamicNavContainer w = Some c ->
  hide_pending w \/ resets_pending w ->
  hide_pending (step w ev) \/ resets_pending (step w ev).
Proof.
  intros Hev Hf Hc Hw.
  assert (Hcases : ev = TimerFires \/ ev <> TimerFires) by (destruct ev; (by left) || (by right)).
  destruct Hcases as [->|Hfire].
  - simpl. destruct (fire w) as [[k w']|] eqn:E; [|done]. destruct Hw as [Hh|Hr].
    + destruct (fire_hide_pending _ _ _ _ Hc Hh E) as [?|(_ & ? & _)]; [by left|by right].
    + right. by destruct (fire_resets_pending _ _ _ Hr E) as (_ & ? & _).
  - destruct (bystander_step w ev Hf Hev Hfire) as [Ht Hk].
    by apply (chain_undisturbed w); [|apply step_wiring| |].
Qed.

Lemma quiet_run c evs : forall w,
  count_toggles evs = 0 -> isNavExpanded w = false -> dynamicNavContainer w = Some c ->
  hide_pending w \/ resets_pending w ->
  isNavExpanded (run w evs) = false /\
  (hide_pending (run w evs) \/ resets_pending (run w evs)).
Proof.
  induction evs as [|ev evs IH]; intros w Hcount Hf Hc Hw; [done|].
  change (run w (ev :: evs)) with (run (step w ev) evs).
  assert (Hev : ev <> Toggle) by (by intros ->).
  assert (Hcount' : count_toggles evs = 0) by (by destruct ev).
  apply IH; [done| | |by apply (quiet_step w c)].
  - rewrite step_expanded. by destruct ev.
  - by rewrite (container_of_wiring _ _ (step_wiring w ev)).
Qed.

Lemma elapsed_neutral w :
  hide_pending w \/ resets_pending w -> timers w = [] -> neutral w /\ container_hidden w.
Proof.
  intros [Hh|(_ & Hhid & [?|Hn])] Hq; try done.
  by apply hide_pending_nonempty in Hh.
Qed.

(** Letting the queue run dry is a run of timer events. *)
Lemma drain_is_run fuel : forall w, (drain fuel w).2 = run w (replicate fuel TimerFires).
Proof.
  induction fuel as [|fuel IH]; intros w; [done|].
  change (run w (replicate (S fuel) TimerFires))
    with (run (step w TimerFires) (replicate fuel TimerFires)).
  simpl. destruct (fire w) as [[k w']|] eqn:E.
  - rewrite <- IH. by destruct (drain fuel w').
  - rewrite <- IH. simpl. clear IH. induction fuel as [|fuel IH]; [done|].
    simpl. by rewrite E.
Qed.

Lemma count_toggles_timers n : count_toggles (replicate n TimerFires) = 0.
Proof. induction n; [done|]. done. Qed.

(** ** Collapse *)

Lemma toggle_hide_pending w c :
  dynamicNavContainer w = Some c -> pending_in_time w -> isNavExpanded w = true ->
  hide_pending (toggleNavExpansion w).
Proof.
  intros Hc Hpending Hexp.
  set (w1 := set_isNavExpanded false w).
  assert (Hc1 : dynamicNavContainer w1 = Some c) by done.
  destruct (collapse_queue w1 c Hc1) as (hide & qa & Hq & Hk & Hdue & Hqa).
  exists hide, (timers w ++ qa), []. split_and!; try done.
  - unfold toggleNavExpansion. rewrite Hexp. simpl negb. cbn [isNavExpanded set_isNavExpanded].
    by rewrite updateToggleButton_timers.
  - apply Forall_app. split; [|done].
    eapply Forall_impl; [exact Hpending|]. simpl. intros t Ht. rewrite Hdue. exact Ht.
Qed.

(** A collapse, or a toggle to collapsed, that queues anything has found the
    container: without it the guard returns before the first [setTimeout]. *)
Lemma collapse_queues_container w :
  timers (collapseNavRowsWithContentMovement w) <> timers w ->
  exists c, dynamicNavContainer w = Some c.
Proof.
  intros H. destruct (dynamicNavContainer w) as [c|] eqn:E; [by exists c|].
  exfalso. apply H. unfold collapseNavRowsWithContentMovement. by rewrite E.
Qed.

Lemma toggle_queues_container w :
  isNavExpanded w = true -> timers (toggleNavExpansion w) <> timers w ->
  exists c, dynamicNavContainer w = Some c.
Proof.
  intros Hexp H. destruct (dynamicNavContainer w) as [c|] eqn:E; [by exists c|].
  exfalso. apply H. unfold toggleNavExpansion. rewrite Hexp. simpl negb.
  cbn [isNavExpanded set_isNavExpanded]. rewrite updateToggleButton_timers.
  unfold collapseNavRowsWithContentMovement.
  cbn [dynamicNavContainer set_isNavExpanded]. by rewrite E.
Qed.

(** What both collapse claims rest on: from any state the widget can reach
    while expanded, a toggle that finds the container starts a chain that
    elapses, and whenever the queue has run dry with no toggle in between,
    the widget is collapsed, neutral, and its container hidden. *)
Lemma toggle_collapse_elapses d width w0 evs c :
  DynamicNavigation_new d width = Ok w0 ->
  dynamicNavContainer (run w0 evs) = Some c ->
  isNavExpanded (run w0 evs) = true ->
  timers (run (step (run w0 evs) Toggle)
              (replicate (turns (timers (step (run w0 evs) Toggle))) TimerFires)) = [] /\
  forall evs', count_toggles evs' = 0 ->
    timers (run (step (run w0 evs) Toggle) evs') = [] ->
    isNavExpanded (run (step (run w0 evs) Toggle) evs') = false /\
    neutral (run (step (run w0 evs) Toggle) evs') /\
    container_hidden (run (step (run w0 evs) Toggle) evs').
Proof.
  intros Hnew Hcont Hexp. destruct (new_queue _ _ _ Hnew) as [Hq _].
  assert (Hpending : pending_in_time (run w0 evs)).
  { apply run_pending. unfold pending_in_time. rewrite Hq. constructor. }
  pose proof (toggle_hide_pending _ _ Hcont Hpending Hexp) as Hhide.
  split.
  - rewrite <- drain_is_run. by apply drain_idle.
  - intros evs' Hcount Hdry.
    destruct (quiet_run c evs' (step (run w0 evs) Toggle)) as [Hf Hw]; try done.
    + simpl. by rewrite toggle_flips, Hexp.
    + simpl. by rewrite (container_of_wiring _ _ (toggle_wiring _)).
    + by left.
    + split; [done|]. by apply elapsed_neutral.
Qed.

(** C4: on any page, whatever has happened to the widget before, a collapse
    invocation that schedules its chain (it queues timers), followed by the
    elapse of every pending timer, ends with every nav row at the identity
    transform and opacity 1, the title rows and the content element at the
    identity transform, and the container at zero height; the container is
    hidden first and only resets run after that; no element is lost on the
    way.  When the collapse is invoked by the toggle, the same end state is
    reached whatever scrolls, frames, resizes, waits and accessor calls
    happen in between, as long as no toggle does. *)
Theorem collapse_reaches_neutral (d : Dom) (width : Z) (w0 : World) (evs : list event) :
  DynamicNavigation_new d width = Ok w0 ->
  timers (collapseNavRowsWithContentMovement (run w0 evs)) <> timers (run w0 evs) ->
  (timers (settle (collapseNavRowsWithContentMovement (run w0 evs))).2 = [] /\
   neutral (settle (collapseNavRowsWithContentMovement (run w0 evs))).2 /\
   container_hidden (settle (collapseNavRowsWithContentMovement (run w0 evs))).2 /\
   ends_with_reset (settle (collapseNavRowsWithContentMovement (run w0 evs))).1 /\
   restyled (dom (run w0 evs))
            (dom (settle (collapseNavRowsWithContentMovement (run w0 evs))).2)) /\
  (isNavExpanded (run w0 evs) = true ->
   forall evs', count_toggles evs' = 0 ->
     timers (run (step (run w0 evs) Toggle) evs') = [] ->
     neutral (run (step (run w0 evs) Toggle) evs') /\
     container_hidden (run (step (run w0 evs) Toggle) evs')).
Proof.
  intros Hnew Hqueued. destruct (collapse_queues_container _ Hqueued) as [c Hcont]. split.
  - destruct (new_queue _ _ _ Hnew) as [Hq _].
    assert (Hpending : pending_in_time (run w0 evs)).
    { apply run_pending. unfold pending_in_time. rewrite Hq. constructor. }
    destruct (collapse_settles_from _ _ Hcont Hpending) as (H1 & H2 & H3 & H4).
    split_and!; try done.
    rewrite <- (collapse_dom (run w0 evs)) at 1. apply drain_frame.
  - intros Hexp evs' Hcount Hdry.
    destruct (toggle_collapse_elapses d width w0 evs c Hnew Hcont Hexp) as [_ H].
    by destruct (H evs' Hcount Hdry) as (_ & ? & ?).
Qed.

Lemma collapse_reaches_neutral_witness :
  DynamicNavigation_new sample_page 1024 = Ok sample_world /\
  timers (collapseNavRowsWithContentMovement (run sample_world [Toggle; Scroll 70; Frame]))
  <> timers (run sample_world [Toggle; Scroll 70; Frame]) /\
  neutral (settle (collapseNavRowsWithContentMovement
                     (run sample_world [Toggle; Scroll 70; Frame]))).2 /\
  ends_with_reset (settle (collapseNavRowsWithContentMovement
                             (run sample_world [Toggle; Scroll 70; Frame]))).1 /\
  neutral (run (step (run sample_world [Toggle; Scroll 70; Frame]) Toggle)
               [TimerFires; Scroll 5; TimerFires; Frame; TimerFires; Resize 500;
                TimerFires; TimerFires; TimerFires; TimerFires]).
Proof.
  assert (Hnew : DynamicNavigation_new sample_page 1024 = Ok sample_world)
    by (vm_compute; reflexivity).
  assert (Hqueued : timers (collapseNavRowsWithContentMovement
                              (run sample_world [Toggle; Scroll 70; Frame]))
                    <> timers (run sample_world [Toggle; Scroll 70; Frame]))
    by (vm_compute; discriminate).
  destruct (collapse_reaches_neutral sample_page 1024 sample_world
              [Toggle; Scroll 70; Frame] Hnew Hqueued) as ((_ & Hn & _ & He & _) & Hvia).
  destruct (Hvia ltac:(vm_compute; reflexivity)
              [TimerFires; Scroll 5; TimerFires; Frame; TimerFires; Resize 500;
               TimerFires; TimerFires; TimerFires; TimerFires]) as [Hn' _];
    [vm_compute; reflexivity..|].
  split; [exact Hnew|]. split; [exact Hqueued|]. split; [exact Hn|].
  split; [exact He|exact Hn'].
Defined.

(** ** Scroll mirroring and the expansion state *)

(** C6: while the expansion state is false the scroll-mirroring update
    changes nothing, neither called directly nor through an animation frame;
    and on any page, a toggle to collapsed that schedules its chain (it
    queues timers) starts a chain that elapses, and once it has elapsed with
    no toggle in between, every nav row is at a translation of 0 and stays
    there under further scroll updates. *)
Theorem no_mirroring_when_collapsed :
  (forall w s, isNavExpanded w = false -> updateHeaders s w = w) /\
  (forall w, isNavExpanded w = false -> dom (step w Frame) = dom w) /\
  (forall d width w0 evs,
     DynamicNavigation_new d width = Ok w0 ->
     isNavExpanded (run w0 evs) = true ->
     timers (step (run w0 evs) Toggle) <> timers (run w0 evs) ->
     (exists n, timers (run (step (run w0 evs) Toggle) (replicate n TimerFires)) = []) /\
     forall evs', count_toggles evs' = 0 ->
       timers (run (step (run w0 evs) Toggle) evs') = [] ->
       isNavExpanded (run (step (run w0 evs) Toggle) evs') = false /\
       (forall row, row ∈ navRows (run (step (run w0 evs) Toggle) evs') ->
          styled (fun s => translation (Style.transform s) = Some 0%Q)
                 (dom (run (step (run w0 evs) Toggle) evs')) row) /\
       (forall s, updateHeaders s (run (step (run w0 evs) Toggle) evs')
                  = run (step (run w0 evs) Toggle) evs')).
Proof.
  split; [intros w s; apply updateHeaders_collapsed|].
  split; [intros w Hf; by destruct (frame_quiet w Hf)|].
  intros d width w0 evs Hnew Hexp Hqueued.
  destruct (toggle_queues_container _ Hexp Hqueued) as [c Hc].
  destruct (toggle_collapse_elapses d width w0 evs c Hnew Hc Hexp) as [Hdry H].
  split; [by eexists|]. intros evs' Hcount Hq.
  destruct (H evs' Hcount Hq) as (Hf & (Hrows & _) & _). split_and!; try done.
  - intros row Hrow e' He'. by destruct (Hrows row Hrow e' He') as [-> _].
  - intros s. by apply updateHeaders_collapsed.
Qed.

Lemma no_mirroring_when_collapsed_witness :
  DynamicNavigation_new sample_page 1024 = Ok sample_world /\
  isNavExpanded (run sample_world [Toggle; Scroll 70; Frame]) = true /\
  timers (step (run sample_world [Toggle; Scroll 70; Frame]) Toggle)
  <> timers (run sample_world [Toggle; Scroll 70; Frame]) /\
  translation <$> transform_of (dom (run sample_world [Toggle; Scroll 70; Frame])) "nav-row-2"
  = Some (Some (-20)%Q) /\
  forall row,
    row ∈ navRows (run (step (run sample_world [Toggle; Scroll 70; Frame]) Toggle)
                       [TimerFires; Scroll 90; Frame; TimerFires; TimerFires; TimerFires; TimerFires;
                        TimerFires; TimerFires]) ->
    styled (fun s => translation (Style.transform s) = Some 0%Q)
      (dom (run (step (run sample_world [Toggle; Scroll 70; Frame]) Toggle)
                [TimerFires; Scroll 90; Frame; TimerFires; TimerFires; TimerFires; TimerFires;
                        TimerFires; TimerFires])) row.
Proof.
  assert (Hnew : DynamicNavigation_new sample_page 1024 = Ok sample_world)
    by (vm_compute; reflexivity).
  assert (Hexp : isNavExpanded (run sample_world [Toggle; Scroll 70; Frame]) = true)
    by (vm_compute; reflexivity).
  assert (Hqueued : timers (step (run sample_world [Toggle; Scroll 70; Frame]) Toggle)
                    <> timers (run sample_world [Toggle; Scroll 70; Frame]))
    by (vm_compute; discriminate).
  destruct no_mirroring_when_collapsed as (_ & _ & H).
  destruct (H sample_page 1024%Z sample_world [Toggle; Scroll 70; Frame] Hnew Hexp Hqueued)
    as (_ & Hafter).
  destruct (Hafter [TimerFires; Scroll 90; Frame; TimerFires; TimerFires; TimerFires; TimerFires;
                        TimerFires; TimerFires])
    as (_ & Hrows & _); [vm_compute; reflexivity..|].
  split; [exact Hnew|]. split; [exact Hexp|]. split; [exact Hqueued|].
  split; [vm_compute; reflexivity|exact Hrows].
Defined.

(** ** The rows of a running widget *)

Lemma new_rows d width w0 :
  DynamicNavigation_new d width = Ok w0 ->
  navRows w0 = resolving d ["nav-row-1"; "nav-row-2"] /\
  displayedRowRegistry w0
  = Some <$> "nav-row-1" :: resolving d ["title-row-1"; "title-row-2"] /\
  restyled d (dom w0).
Proof.
  unfold DynamicNavigation_new.
  destruct (getElementById d "nav-row-1") as [r|] eqn:E1; [|done]. intros [= <-].
  set (w := mkWorld _ _ _ _ _ _ _ _ _ _ _ _ _ _ _ _ _ _ _ _).
  pose proof (init_wiring w) as Hw. destruct (initializeNavRows_rows w) as (Hn & _ & Hr).
  unfold wiring in Hw. injection Hw as _ _ _ _ _ _ Hreg _ Hnav _.
  rewrite Hnav, Hreg, Hn, Hr. split; [done|]. split; [|apply (init_restyled w)].
  unfold resolving. simpl. rewrite E1.
  assert (r = "nav-row-1") as ->.
  { unfold getElementById in E1. destruct (d !! "nav-row-1"); by inversion E1. }
  by destruct (getElementById d "nav-row-2"),
              (getElementById d "title-row-1"), (getElementById d "title-row-2").
Qed.

Lemma resolving_pair d id1 id2 :
  id1 <> id2 ->
  NoDup (resolving d [id1; id2]) /\
  forall row, row ∈ resolving d [id1; id2] -> (row = id1 \/ row = id2) /\ is_Some (d !! row).
Proof.
  intros Hne. unfold resolving, getElementById. simpl.
  destruct (d !! id1) eqn:E1, (d !! id2) eqn:E2; simpl; split;
    try (apply (NoDup_ListNoDup); repeat constructor; simpl; intuition congruence);
    intros row; rewrite ?elem_of_cons, ?elem_of_nil; intros H;
    repeat (destruct H as [->|H]); try done; (split; [tauto|by eexists]).
Qed.

Lemma expandNavRows_restyled w : restyled (dom w) (dom (expandNavRows w)).
Proof.
  unfold expandNavRows. destruct (dynamicNavContainer w) as [c|]; [|apply restyled_refl].
  simpl. apply (forEach_index_preserves (fun w' => restyled (dom w) (dom w'))); [done|].
  apply restyled_set_style.
Qed.

Lemma updateHeaders_restyled s w : restyled (dom w) (dom (updateHeaders s w)).
Proof.
  unfold updateHeaders.
  destruct (Qle_bool _ _), (isNavExpanded w); simpl; try apply restyled_refl.
  - apply restyled_style_each.
  - apply (foldl_preserves (restyled (dom w))); [|apply restyled_refl].
    intros d' h H. eapply restyled_trans; [exact H|apply restyled_set_style].
Qed.

Lemma step_restyled w ev : restyled (dom w) (dom (step w ev)).
Proof.
  destruct ev; simpl; try apply restyled_refl.
  - unfold toggleNavExpansion.
    eapply restyled_trans; [|apply updateToggleButton_restyled].
    destruct (isNavExpanded _).
    + apply (expandNavRows_restyled (set_isNavExpanded _ w)).
    + rewrite collapse_dom. apply restyled_refl.
  - destruct (contentScroll w) as [c|]; [|apply restyled_refl].
    unfold onScroll. simpl. destruct (ticking w); simpl; by apply restyled_alter.
  - change (restyled (dom w) (dom (Nat.iter (rafPending w) onFrame w))).
    apply (iter_preserves (fun w' => restyled (dom w) (dom w'))); [|apply restyled_refl].
    intros w' H. eapply restyled_trans; [exact H|]. unfold onFrame.
    destruct (contentScroll w') as [c|]; [|apply restyled_refl]. simpl.
    apply updateHeaders_restyled.
  - apply (updateButtonPosition_restyled (set_innerWidth width w)).
  - destruct (fire w) as [[k w']|] eqn:E; [|apply restyled_refl]. by eapply fire_restyled.
Qed.

Lemma run_restyled w evs : restyled (dom w) (dom (run w evs)).
Proof.
  unfold run. apply (foldl_preserves (fun w' => restyled (dom w) (dom w')));
    [|apply restyled_refl].
  intros w' ev H. eapply restyled_trans; [exact H|apply step_restyled].
Qed.

(** In every state a constructed widget can reach, the nav rows are distinct
    elements of the page and the displayed sequence has no repetition: the
    side conditions of the scroll-mirroring and fold-test theorems always
    hold. *)
Lemma running_rows d width w0 evs :
  DynamicNavigation_new d width = Ok w0 ->
  NoDup (navRows (run w0 evs)) /\
  NoDup (displayedRowRegistry (run w0 evs)) /\
  (forall row, row ∈ navRows (run w0 evs) -> is_Some (dom (run w0 evs) !! row)).
Proof.
  intros Hnew. destruct (new_rows _ _ _ Hnew) as (Hn & Hr & Hd).
  pose proof (run_wiring w0 evs) as Hw. unfold wiring in Hw.
  injection Hw as _ _ _ _ _ _ Hreg _ Hnav _. rewrite Hnav, Hreg, Hn, Hr.
  destruct (resolving_pair d "nav-row-1" "nav-row-2" ltac:(done)) as [Hnd1 Hin1].
  destruct (resolving_pair d "title-row-1" "title-row-2" ltac:(done)) as [Hnd2 Hin2].
  split_and!.
  - done.
  - apply (NoDup_fmap_2 _). apply NoDup_cons. split; [|done].
    intros Hin. by destruct (Hin2 _ Hin) as [[?|?] _].
  - intros row Hrow. destruct (Hin1 row Hrow) as [_ [e He]].
    pose proof (restyled_trans _ _ _ Hd (run_restyled w0 evs) row) as H.
    rewrite He in H. inversion H. by eexists.
Qed.

(** ** Construction and missing elements *)

Lemma new_fields d width w0 :
  DynamicNavigation_new d width = Ok w0 ->
  contentScroll w0 = getElementById d "content-scroll" /\
  navToggle w0 = getElementById d "nav-toggle" /\
  titleRows w0 = resolving d ["title-row-1"; "title-row-2"].
Proof.
  unfold DynamicNavigation_new.
  destruct (getElementById d "nav-row-1") as [r|] eqn:E1; [|done]. intros [= <-].
  set (w := mkWorld _ _ _ _ _ _ _ _ _ _ _ _ _ _ _ _ _ _ _ _).
  pose proof (init_wiring w) as Hw. destruct (initializeNavRows_rows w) as (_ & Ht & _).
  assert (Hfields : contentScroll (initializeNavRows w) = getElementById d "content-scroll" /\
                    navToggle (initializeNavRows w) = getElementById d "nav-toggle").
  { unfold initializeNavRows. by destruct (foldl _ _ _). }
  destruct Hfields as (Hcs & Hnt).
  unfold wiring in Hw. injection Hw as Hw_cs _ Hw_nt _ _ _ _ _ _ Hw_title.
  rewrite Hw_cs, Hw_nt, Hw_title, Hcs, Hnt, Ht. by split_and!.
Qed.

(** Without the container nothing is ever scheduled. *)
Lemma step_idle w ev :
  dynamicNavContainer w = None -> timers w = [] -> timers (step w ev) = [].
Proof.
  intros Hc Hq. destruct ev; simpl; try done.
  - unfold toggleNavExpansion. rewrite updateToggleButton_timers.
    unfold expandNavRows, collapseNavRowsWithContentMovement.
    cbn [dynamicNavContainer set_isNavExpanded]. rewrite Hc.
    by destruct (isNavExpanded _).
  - destruct (contentScroll w) as [c|]; [|done]. unfold onScroll. simpl.
    by destruct (ticking w).
  - change (timers (Nat.iter (rafPending w) onFrame w) = []).
    apply (iter_preserves (fun w' => timers w' = [])); [|done]. intros w' Hw'.
    by destruct (onFrame_queue w') as [-> _].
  - by destruct (updateButtonPosition_queue (set_innerWidth width w)) as [-> _].
  - unfold fire. by rewrite Hq.
Qed.

Lemma run_idle w evs :
  dynamicNavContainer w = None -> timers w = [] -> timers (run w evs) = [].
Proof.
  intros Hc Hq.
  assert (H : dynamicNavContainer (run w evs) = None /\ timers (run w evs) = []).
  { unfold run.
    apply (foldl_preserves (fun w' => dynamicNavContainer w' = None /\ timers w' = []));
      [|done].
    intros w' ev [Hc' Hq']. split; [|by apply step_idle].
    by rewrite (container_of_wiring _ _ (step_wiring w' ev)). }
  by destruct H.
Qed.

Lemma getElementById_None d id : d !! id = None <-> getElementById d id = None.
Proof. unfold getElementById. by destruct (d !! id). Qed.

(** C2: construction does not tolerate every missing element.  On a page
    that lacks nav-row-1 the constructor throws a TypeError, at the unguarded
    [this.navRow1!.offsetHeight]; it throws exactly when that element is
    missing, although [initializeNavRows] guards the very same element and
    merely leaves it out.  Whenever construction completes, the nav rows,
    the title rows and the displayed-row registry hold just the elements
    that resolved, and in every state the widget reaches afterwards the
    features that depend on a missing element do nothing: without the
    container expand and collapse return at once, a toggle only flips the
    flag and relabels the button, and nothing is ever scheduled; without
    nav-toggle the label update does nothing; without content-scroll scroll
    events and frames do nothing; without toggle-button a resize only
    records the width. *)
Theorem construction_requires_nav_row_1 :
  DynamicNavigation_new (page_without "nav-row-1") 1024 = Throw TypeError /\
  (forall d width,
     DynamicNavigation_new d width = Throw TypeError <-> d !! "nav-row-1" = None) /\
  (forall w, dom w !! "nav-row-1" = None ->
     navRows (initializeNavRows w) = resolving (dom w) ["nav-row-2"]) /\
  (forall d width w0,
     DynamicNavigation_new d width = Ok w0 ->
     navRows w0 = resolving d ["nav-row-1"; "nav-row-2"] /\
     titleRows w0 = resolving d ["title-row-1"; "title-row-2"] /\
     displayedRowRegistry w0
     = Some <$> "nav-row-1" :: resolving d ["title-row-1"; "title-row-2"] /\
     forall evs,
       (d !! "dynamic-nav-container" = None ->
          expandNavRows (run w0 evs) = run w0 evs /\
          collapseNavRowsWithContentMovement (run w0 evs) = run w0 evs /\
          step (run w0 evs) Toggle
          = updateToggleButton
              (set_isNavExpanded (negb (isNavExpanded (run w0 evs))) (run w0 evs)) /\
          timers (run w0 evs) = []) /\
       (d !! "nav-toggle" = None -> updateToggleButton (run w0 evs) = run w0 evs) /\
       (d !! "content-scroll" = None ->
          (forall s, step (run w0 evs) (Scroll s) = run w0 evs) /\
          onFrame (run w0 evs) = run w0 evs) /\
       (d !! "toggle-button" = None ->
          forall width', step (run w0 evs) (Resize width')
                         = set_innerWidth width' (run w0 evs))).
Proof.
  split; [vm_compute; reflexivity|]. split; [|split].
  - intros d width. rewrite getElementById_None. unfold DynamicNavigation_new.
    by destruct (getElementById d "nav-row-1").
  - intros w Hnone. destruct (initializeNavRows_rows w) as (-> & _).
    apply getElementById_None in Hnone. unfold resolving. simpl. by rewrite Hnone.
  - intros d width w0 Hnew.
    destruct (new_rows _ _ _ Hnew) as (Hn & Hr & Hd).
    destruct (new_fields _ _ _ Hnew) as (Hcs & Hnt & Ht).
    destruct (new_queue _ _ _ Hnew) as (Hq & Hdc).
    split_and!; try done. intros evs.
    pose proof (run_wiring w0 evs) as Hw. unfold wiring in Hw.
    injection Hw as Hw_cs _ Hw_nt Hw_dc _ _ _ _ _ _.
    split_and!.
    + intros Hnone. apply getElementById_None in Hnone.
      assert (Hc : dynamicNavContainer (run w0 evs) = None) by congruence.
      split_and!.
      * unfold expandNavRows. by rewrite Hc.
      * unfold collapseNavRowsWithContentMovement. by rewrite Hc.
      * unfold step, toggleNavExpansion, expandNavRows, collapseNavRowsWithContentMovement.
        cbn [dynamicNavContainer isNavExpanded set_isNavExpanded]. rewrite Hc.
        by destruct (negb _).
      * apply run_idle; congruence.
    + intros Hnone. apply getElementById_None in Hnone. unfold updateToggleButton.
      by rewrite Hw_nt, Hnt, Hnone.
    + intros Hnone. apply getElementById_None in Hnone.
      assert (Hc : contentScroll (run w0 evs) = None) by congruence.
      unfold step, onFrame. by rewrite Hc.
    + intros Hnone width'. apply getElementById_None in Hnone.
      unfold step, updateButtonPosition. cbn [dom set_innerWidth].
      rewrite (restyled_getElementById _ _ "toggle-button"
                 (restyled_trans _ _ _ Hd (run_restyled w0 evs))).
      by rewrite Hnone.
Qed.

(** ** Expanding one row *)

Lemma new_pace d width w :
  DynamicNavigation_new d width = Ok w ->
  exists e, d !! "nav-row-1" = Some e /\
    transitionPace w = (100 / inject_Z (Z.of_N (offsetHeight e)))%Q.
Proof.
  unfold DynamicNavigation_new, getElementById.
  destruct (d !! "nav-row-1") as [e|] eqn:E; [|done]. intros [= <-]. exists e. split; [done|].
  set (w := mkWorld _ _ _ _ _ _ _ _ _ _ _ _ _ _ _ _ _ _ _ _).
  pose proof (init_wiring w) as Hw.
  assert (Hp : transitionPace (init w) = transitionPace (initializeNavRows w)).
  { unfold wiring in Hw. by injection Hw as _ _ _ _ _ _ _ -> _ _. }
  rewrite Hp. unfold initializeNavRows. destruct (foldl _ _ _). simpl.
  unfold height_of. by rewrite E.
Qed.

Lemma setTimeout_each (f : nat -> task) (delay : Q) (l : list nat) : forall w,
  timers (foldl (fun w' i => setTimeout (f i) delay w') w l)
  = timers w ++ map (fun i => mkTimer delay (now w + Z.max 0 (Qfloor delay)) (f i)) l.
Proof.
  induction l as [|i l IH]; intros w; simpl.
  - by rewrite app_nil_r.
  - rewrite IH. simpl. by rewrite <- app_assoc.
Qed.

(** What the code does for a folded row: the distance is the row's top minus
    the predecessor's bottom, hence strictly negative; the row and every
    row after it get a callback at [baseTime]; the value returned is the
    pace times that negative distance. *)
Lemma expandRow_folded (w : World) (j : nat) (row previous : string) (baseTime : Q) :
  NoDup (displayedRowRegistry w) ->
  displayedRowRegistry w !! S j = Some (Some row) ->
  displayedRowRegistry w !! j = Some (Some previous) ->
  (top_of (dom w) row < bottom_of (dom w) previous)%Q ->
  exists w',
    expandRow w row baseTime
    = Ok ((transitionPace w * (top_of (dom w) row - bottom_of (dom w) previous))%Q, w') /\
    (top_of (dom w) row - bottom_of (dom w) previous < 0)%Q /\
    timers w' = timers w ++
      map (fun i => mkTimer baseTime (now w + Z.max 0 (Qfloor baseTime))
                      (ExpandRowStep i
                         (top_of (dom w) row - bottom_of (dom w) previous)%Q
                         (transitionPace w
                          * (top_of (dom w) row - bottom_of (dom w) previous))%Q))
          (seq (S j) (length (displayedRowRegistry w) - S j)).
Proof.
  intros Hnd Hrow Hprev Hfolded.
  assert (Hidx : indexOf (displayedRowRegistry w) row = Z.of_nat (S j))
    by (by apply indexOf_NoDup).
  assert (Hpred : js_index (displayedRowRegistry w) (Z.of_nat (S j) - 1) = Some previous).
  { replace (Z.of_nat (S j) - 1)%Z with (Z.of_nat j) by lia.
    by rewrite js_index_nat, Hprev. }
  assert (Hfold : isRowFolded w row = Ok true).
  { unfold isRowFolded. rewrite (js_index_nat _ 0). rewrite decide_False.
    - rewrite Hidx, Hpred. f_equal. by apply Qlt_bool_iff.
    - intros H0. destruct (displayedRowRegistry w !! 0) as [[r|]|] eqn:E0; simpl in H0; try done.
      injection H0 as ->. by pose proof (NoDup_lookup _ _ _ _ Hnd E0 Hrow). }
  unfold expandRow. rewrite Hfold, Hidx, Hpred, Nat2Z.id.
  eexists. split; [reflexivity|]. split; [lra|]. apply setTimeout_each.
Qed.

(** C1 on the sample page: title-row-1 (top 10) is folded under nav-row-1
    (bottom 40, height 40, so the pace is 100/40).  The claim's distance is
    40 - 10 = 30 and its duration 75ms; the code computes 10 - 40 = -30,
    returns -75, and queues for the row and the one after it a transform
    `translateY(--30px)`, which denotes no translation at all. *)
Theorem expandRow_distance_is_negated :
  isRowFolded sample_world "title-row-1" = Ok true /\
  (transitionPace sample_world == 100 / 40)%Q /\
  (bottom_of (dom sample_world) "nav-row-1" - top_of (dom sample_world) "title-row-1" == 30)%Q /\
  exists duration w',
    expandRow sample_world "title-row-1" 0 = Ok (duration, w') /\
    (duration == -75)%Q /\
    map t_task (timers w')
    = [ExpandRowStep 1 (-30) duration; ExpandRowStep 2 (-30) duration] /\
    translation (TranslateYNegPx (-30)) = None.
Proof.
  split; [vm_compute; reflexivity|]. split; [vm_compute; reflexivity|].
  split; [vm_compute; reflexivity|].
  assert (Hreg : displayedRowRegistry sample_world
                 = [Some "nav-row-1"; Some "title-row-1"; Some "title-row-2"])
    by (vm_compute; reflexivity).
  assert (Hnd : NoDup (displayedRowRegistry sample_world)).
  { rewrite Hreg. apply (bool_decide_unpack (NoDup _)). vm_compute. exact I. }
  destruct (expandRow_folded sample_world 0 "title-row-1" "nav-row-1" 0 Hnd)
    as (w' & Hrun & _ & Htimers); [by rewrite Hreg|by rewrite Hreg|vm_compute; reflexivity|].
  eexists _, w'. split; [exact Hrun|]. split; [vm_compute; reflexivity|].
  split; [|vm_compute; reflexivity].
  rewrite Htimers, map_app, map_map, Hreg.
  assert (Hq : timers sample_world = []) by (vm_compute; reflexivity).
  rewrite Hq. simpl.
  assert (Hd : (top_of (dom sample_world) "title-row-1"
                - bottom_of (dom sample_world) "nav-row-1")%Q = (-30)%Q)
    by (vm_compute; reflexivity).
  by rewrite Hd.
Qed.

(** * Further properties of the code *)

(** ** Rows outside the displayed sequence *)

Lemma indexOf_absent (a : list (option string)) (row : string) :
  Some row ∉ a -> indexOf a row = (-1)%Z.
Proof.
  intros Hout. unfold indexOf.
  destruct (list_find (fun x => x = Some row) a) as [[i x]|] eqn:E; [|done].
  apply list_find_Some in E as (Hi & -> & _). destruct Hout.
  by eapply list_elem_of_lookup_2.
Qed.

(** The fold test, position by position. *)
Lemma isRowFolded_at (w : World) (k : nat) (row : string) :
  NoDup (displayedRowRegistry w) ->
  displayedRowRegistry w !! k = Some (Some row) ->
  isRowFolded w row =
  match k with
  | O => Ok false
  | S j => match displayedRowRegistry w !! j with
           | Some (Some previous) =>
               Ok (Qlt_bool (top_of (dom w) row) (bottom_of (dom w) previous))
           | _ => Throw TypeError
           end
  end.
Proof.
  intros Hnd Hk. unfold isRowFolded. rewrite (js_index_nat _ 0). destruct k as [|j].
  - rewrite Hk. simpl. by rewrite decide_True.
  - rewrite decide_False.
    + rewrite (indexOf_NoDup _ _ _ Hnd Hk).
      replace (Z.of_nat (S j) - 1)%Z with (Z.of_nat j) by lia.
      rewrite js_index_nat. by destruct (displayedRowRegistry w !! j) as [[?|]|].
    + intros H0. destruct (displayedRowRegistry w !! 0) as [[r|]|] eqn:E0; simpl in H0; try done.
      injection H0 as ->. by pose proof (NoDup_lookup _ _ _ _ Hnd E0 Hk).
Qed.

(** X1: the fold test and the row expansion are only defined on rows of the
    displayed sequence: for any other element, [indexOf] answers -1, the
    predecessor read is [undefined], and both calls end in a TypeError. *)
Theorem unregistered_row_throws (w : World) (row : string) (baseTime : Q) :
  Some row ∉ displayedRowRegistry w ->
  isRowFolded w row = Throw TypeError /\ expandRow w row baseTime = Throw TypeError.
Proof.
  intros Hout.
  assert (Hfold : isRowFolded w row = Throw TypeError).
  { unfold isRowFolded. rewrite decide_False.
    - by rewrite (indexOf_absent _ _ Hout).
    - rewrite (js_index_nat _ 0). intros H0.
      destruct (displayedRowRegistry w !! 0) as [[r|]|] eqn:E0; simpl in H0; try done.
      injection H0 as ->. destruct Hout. by eapply list_elem_of_lookup_2. }
  split; [exact Hfold|]. unfold expandRow. by rewrite Hfold.
Qed.

Lemma unregistered_row_throws_witness :
  "nav-row-2" ∈ navRows sample_world /\
  isRowFolded sample_world "nav-row-2" = Throw TypeError /\
  expandRow sample_world "nav-row-2" 0 = Throw TypeError.
Proof.
  split; [apply (bool_decide_unpack (_ ∈ _)); vm_compute; exact I|].
  apply (unregistered_row_throws sample_world "nav-row-2" 0).
  apply (bool_decide_unpack (_ ∉ _)). vm_compute. exact I.
Defined.

(** ** The cascade *)

Lemma Qfloor_nonpos (q : Q) : (q <= 0)%Q -> (Qfloor q <= 0)%Z.
Proof. intros H. apply (Qfloor_resp_le q 0) in H. exact H. Qed.

(** What one row expansion can change: it only appends callbacks, all due at
    the same instant, and with a non-negative pace what it returns is never
    positive. *)
Lemma expandRow_effect (w : World) (row : string) (baseTime : Q) (t : Q) (w' : World) :
  expandRow w row baseTime = Ok (t, w') ->
  dom w' = dom w /\ now w' = now w /\ wiring w' = wiring w /\
  (exists extra, timers w' = timers w ++ extra /\
     Forall (fun x => t_due x = (now w + Z.max 0 (Qfloor baseTime))%Z) extra) /\
  ((0 <= transitionPace w)%Q -> (t <= 0)%Q).
Proof.
  unfold expandRow. destruct (isRowFolded w row) as [[|]|] eqn:Hfold; [| |done].
  - destruct (js_index _ _) as [previous|] eqn:Hprev; [|done]. intros [= <- <-].
    split_and!.
    + by apply (foldl_preserves (fun w' => dom w' = dom w)).
    + by apply (foldl_preserves (fun w' => now w' = now w)).
    + by apply (foldl_preserves (fun w' => wiring w' = wiring w)).
    + eexists. split; [apply setTimeout_each|]. apply Forall_forall.
      intros x Hx. apply list_elem_of_fmap in Hx as (i & -> & _). done.
    + intros Hpace.
      assert (Hlt : (top_of (dom w) row < bottom_of (dom w) previous)%Q).
      { unfold isRowFolded in Hfold. destruct (decide _); [done|].
        rewrite Hprev in Hfold. injection Hfold as Hfold. by apply Qlt_bool_iff. }
      nra.
  - intros [= <- <-]. split_and!; try done. exists []. by rewrite app_nil_r.
Qed.

Lemma expandRow_entry_effect (w : World) (entry : option string) (baseTime : Q)
      (t : Q) (w' : World) :
  expandRow_entry w entry baseTime = Ok (t, w') ->
  dom w' = dom w /\ now w' = now w /\ wiring w' = wiring w /\
  (exists extra, timers w' = timers w ++ extra /\
     Forall (fun x => t_due x = (now w + Z.max 0 (Qfloor baseTime))%Z) extra) /\
  ((0 <= transitionPace w)%Q -> (t <= 0)%Q).
Proof.
  destruct entry as [row|]; simpl; [apply expandRow_effect|].
  destruct (js_index _ _); [done|]. intros [= <- <-].
  split_and!; try done. exists []. by rewrite app_nil_r.
Qed.

Lemma pace_of_wiring w w' : wiring w' = wiring w -> transitionPace w' = transitionPace w.
Proof. unfold wiring. by intros [= _ _ _ _ _ _ _ -> _ _]. Qed.

Lemma expandRowFromIndex_loop_effect (indices : list Z) :
  forall (scheduleTime : Q) (w : World) (t : Q) (w' : World),
  (scheduleTime <= 0)%Q -> (0 <= transitionPace w)%Q ->
  expandRowFromIndex_loop indices scheduleTime w = Ok (t, w') ->
  dom w' = dom w /\ now w' = now w /\ wiring w' = wiring w /\
  exists extra, timers w' = timers w ++ extra /\ Forall (fun x => t_due x = now w) extra.
Proof.
  induction indices as [|i rest IH]; intros scheduleTime w t w' Hs Hpace; simpl.
  - intros [= <- <-]. split_and!; try done. exists []. by rewrite app_nil_r.
  - destruct (expandRow_entry w _ scheduleTime) as [[t1 w1]|] eqn:E; [|done].
    destruct (expandRow_entry_effect _ _ _ _ _ E) as (Hd & Hn & Hw & (x1 & Ht1 & Hx1) & Hneg).
    specialize (Hneg Hpace). intros Hrest.
    assert (Hs' : (scheduleTime + t1 <= 0)%Q) by lra.
    assert (Hpace' : (0 <= transitionPace w1)%Q) by (by rewrite (pace_of_wiring _ _ Hw)).
    destruct (IH _ _ _ _ Hs' Hpace' Hrest) as (Hd' & Hn' & Hw' & x2 & Ht2 & Hx2).
    split_and!; try congruence. exists (x1 ++ x2).
    rewrite Ht2, Ht1, <- app_assoc. split; [done|]. apply Forall_app. split.
    + eapply Forall_impl; [exact Hx1|]. simpl. intros x ->.
      pose proof (Qfloor_nonpos _ Hs). lia.
    + eapply Forall_impl; [exact Hx2|]. simpl. intros x ->. done.
Qed.

(** X2: the cascade never delays anything.  Every duration [expandRow] hands
    back is zero or negative, so the running schedule time that
    [expandRowFromIndex] passes on as the next delay never rises above 0:
    whatever the layout, every callback it queues is due immediately, and
    nothing else of the world changes. *)
Theorem expandRowFromIndex_never_delays (w : World) (index : Z) (w' : World) :
  (0 <= transitionPace w)%Q ->
  expandRowFromIndex w index = Ok w' ->
  dom w' = dom w /\ now w' = now w /\ wiring w' = wiring w /\
  exists extra, timers w' = timers w ++ extra /\ Forall (fun x => t_due x = now w) extra.
Proof.
  intros Hpace. unfold expandRowFromIndex.
  destruct (expandRowFromIndex_loop _ 0 w) as [[t w1]|] eqn:E; [|done]. intros [= <-].
  by apply (expandRowFromIndex_loop_effect _ 0 w t w1 ltac:(done) Hpace E).
Qed.

Lemma expandRowFromIndex_never_delays_witness :
  (0 <= transitionPace sample_world)%Q /\
  exists w', expandRowFromIndex sample_world 0 = Ok w' /\
    map t_task (timers w')
    = [ExpandRowStep 1 (-30) (-3000 # 40); ExpandRowStep 2 (-30) (-3000 # 40)] /\
    Forall (fun x => t_due x = now sample_world) (timers w').
Proof.
  assert (Hpace : (0 <= transitionPace sample_world)%Q) by (vm_compute; discriminate).
  split; [exact Hpace|].
  destruct (expandRowFromIndex sample_world 0) as [w'|] eqn:E;
    [|exfalso; revert E; vm_compute; discriminate].
  exists w'. split; [reflexivity|].
  destruct (expandRowFromIndex_never_delays sample_world 0 w' Hpace E)
    as (_ & _ & _ & extra & Ht & Hdue).
  assert (Hq : timers sample_world = []) by (vm_compute; reflexivity).
  rewrite Hq in Ht. simpl in Ht. rewrite Ht. split; [|exact Hdue].
  rewrite <- Ht.
  assert (Hrun : (match expandRowFromIndex sample_world 0 with
                  | Ok w1 => map t_task (timers w1) | Throw _ => [] end)
                 = [ExpandRowStep 1 (-30) (-3000 # 40); ExpandRowStep 2 (-30) (-3000 # 40)])
    by (vm_compute; reflexivity).
  by rewrite E in Hrun.
Defined.

(** X3: on a layout at rest the cascade does nothing: when every displayed
    row starts at or below the bottom of its predecessor, [expandRowFromIndex]
    from any non-negative index returns the world as it was. *)
Theorem expandRowFromIndex_settled (w : World) (rows : list string) (index : Z) :
  displayedRowRegistry w = Some <$> rows -> NoDup rows ->
  settled_layout (dom w) rows -> (0 <= index)%Z ->
  expandRowFromIndex w index = Ok w.
Proof.
  intros Hreg Hnd Hsettled Hindex. unfold expandRowFromIndex.
  set (n := Z.of_nat (length (displayedRowRegistry w))).
  assert (Hloop : forall ks t, Forall (fun k => (Z.of_nat k < n - index)%Z) ks ->
            exists t', expandRowFromIndex_loop
                         (map (fun k => (n - 1 - Z.of_nat k)%Z) ks) t w = Ok (t', w)).
  { induction ks as [|k ks IH]; intros t Hks; [by eexists|].
    inversion Hks as [|? ? Hk Hks']; subst. simpl.
    assert (Hpos : (0 <= n - 1 - Z.of_nat k)%Z) by lia.
    replace (n - 1 - Z.of_nat k)%Z with (Z.of_nat (Z.to_nat (n - 1 - Z.of_nat k))) by lia.
    rewrite js_index_nat.
    set (i := Z.to_nat (n - 1 - Z.of_nat k)).
    assert (Hi : i < length rows).
    { subst i n. rewrite Hreg, length_fmap in *. lia. }
    destruct (lookup_lt_is_Some_2 rows i Hi) as [row Hrow].
    assert (Hentry : displayedRowRegistry w !! i = Some (Some row)).
    { by rewrite Hreg, list_lookup_fmap, Hrow. }
    rewrite Hentry. simpl. unfold expandRow.
    assert (Hnd' : NoDup (displayedRowRegistry w)).
    { rewrite Hreg. by apply (NoDup_fmap_2 _). }
    rewrite (isRowFolded_at w i row Hnd' Hentry).
    destruct i as [|j]; [apply IH, Hks'|].
    destruct (lookup_lt_is_Some_2 rows j ltac:(lia)) as [previous Hprev].
    rewrite Hreg, list_lookup_fmap, Hprev. simpl.
    assert (Hunfolded : Qlt_bool (top_of (dom w) row) (bottom_of (dom w) previous) = false).
    { destruct (Qlt_bool _ _) eqn:Hb; [|done]. apply Qlt_bool_iff in Hb.
      pose proof (Hsettled j row previous Hrow Hprev). lra. }
    rewrite Hunfolded. apply IH, Hks'. }
  destruct (Hloop (seq 0 (Z.to_nat (n - index))) 0%Q) as [t' ->]; [|done].
  apply Forall_forall. intros k Hk. apply elem_of_seq in Hk. lia.
Qed.

Lemma expandRowFromIndex_settled_witness :
  expandRowFromIndex
    (set_dom (<["title-row-1" := box 30 40 70]>
                (<["title-row-2" := box 30 70 100]> (dom sample_world))) sample_world) 0
  = Ok (set_dom (<["title-row-1" := box 30 40 70]>
                   (<["title-row-2" := box 30 70 100]> (dom sample_world))) sample_world).
Proof.
  apply (expandRowFromIndex_settled _ ["nav-row-1"; "title-row-1"; "title-row-2"]).
  - vm_compute. reflexivity.
  - apply (bool_decide_unpack (NoDup _)). vm_compute. exact I.
  - intros j row previous Hrow Hprev.
    destruct j as [|[|j]]; simpl in Hrow, Hprev; [| |discriminate Hrow];
      injection Hrow as <-; injection Hprev as <-; vm_compute; discriminate.
  - lia.
Defined.

(** ** Scroll mirroring at and past the threshold *)

Lemma style_each_untouched f rows d r : r ∉ rows -> style_each f rows d !! r = d !! r.
Proof.
  intros Hr. unfold style_each.
  apply (style_untouched string id (fun _ => f)). by rewrite list_fmap_id.
Qed.

(** X4: an expanded navigation scrolled to the threshold or above it (scroll
    position at most 10) has every nav row put back at the identity transform
    with opacity 1; no other element is touched. *)
Theorem updateHeaders_at_top (w : World) (s : Q) :
  isNavExpanded w = true -> (s - scrollThreshold <= 0)%Q ->
  (forall row, row ∈ navRows w ->
     styled (fun st => Style.transform st = identity /\ Style.opacity st = Lit "1")
            (dom (updateHeaders s w)) row) /\
  (forall r, r ∉ navRows w -> dom (updateHeaders s w) !! r = dom w !! r).
Proof.
  intros Hexp Hs. unfold updateHeaders.
  assert (Hle : Qle_bool (s - scrollThreshold) 0 = true) by (by apply Qle_bool_iff).
  rewrite Hle, Hexp. simpl. split.
  - intros row Hrow. by apply styled_each_in.
  - intros r Hr. by apply style_each_untouched.
Qed.

Lemma updateHeaders_at_top_witness :
  "nav-row-2" ∈ navRows (run sample_world [Toggle; Scroll 70; Frame]) /\
  styled (fun st => Style.transform st = identity /\ Style.opacity st = Lit "1")
         (dom (updateHeaders 4 (run sample_world [Toggle; Scroll 70; Frame]))) "nav-row-2".
Proof.
  assert (Hin : "nav-row-2" ∈ navRows (run sample_world [Toggle; Scroll 70; Frame]))
    by (apply (bool_decide_unpack (_ ∈ _)); vm_compute; exact I).
  split; [exact Hin|].
  apply (updateHeaders_at_top (run sample_world [Toggle; Scroll 70; Frame]) 4).
  - vm_compute. reflexivity.
  - vm_compute. discriminate.
  - exact Hin.
Defined.

Lemma updateHeaders_row (w : World) (s : Q) (i : nat) (row : string) (e : Element) :
  isNavExpanded w = true -> (0 < s - scrollThreshold)%Q -> NoDup (navRows w) ->
  navRows w !! i = Some row -> dom w !! row = Some e ->
  exists header,
    transform_of (dom (updateHeaders s w)) row
    = Some (header_transform (s - scrollThreshold) header) /\
    height header = Z.of_N (offsetHeight e) /\
    startPosition header = sumZ (take i (navRowHeights w)).
Proof.
  intros Hexp Hs Hnd Hi He. unfold updateHeaders.
  destruct (Qle_bool (s - scrollThreshold) 0) eqn:Hle.
  { apply Qle_bool_iff in Hle. lra. }
  rewrite Hexp. simpl.
  destruct (headerInfo_lookup (dom w) (navRows w) 0 i row Hi) as (h & Hh & Hel & Hht & Hst).
  exists h. split; [|split].
  - unfold transform_of. rewrite <- Hel.
    rewrite (style_written Header element
               (fun header => Style.set_transform (header_transform (s - scrollThreshold) header))
               _ _ i h); [|by rewrite headerInfo_elements|done].
    rewrite Hel, He. reflexivity.
  - rewrite Hht. unfold height_of. by rewrite He.
  - rewrite Hst. unfold navRowHeights. lia.
Qed.

Lemma clamp_bounds (x h : Q) : (0 <= h)%Q -> (- h <= - Qmin (Qmax 0 x) h <= 0)%Q.
Proof.
  intros Hh. pose proof (Q.le_min_r (Qmax 0 x) h).
  assert ((0 <= Qmin (Qmax 0 x) h)%Q) by (apply Q.min_glb; [apply Q.le_max_l|done]).
  lra.
Qed.

Lemma clamp_mono (x x' h : Q) :
  (x <= x')%Q -> (- Qmin (Qmax 0 x') h <= - Qmin (Qmax 0 x) h)%Q.
Proof.
  intros Hx.
  assert ((Qmin (Qmax 0 x) h <= Qmin (Qmax 0 x') h)%Q)
    by (by apply Q.min_le_compat_r, Q.max_le_compat_l).
  lra.
Qed.

(** X5: scroll mirroring only ever slides a nav row upwards, by at most its
    own height, and scrolling further never brings it back: for scroll
    positions [s <= s'] past the threshold, the translation at [s] lies
    between minus the row's height and 0, and the translation at [s'] is at
    most the one at [s]. *)
Theorem scroll_translation_clamped (w : World) (s s' : Q) (i : nat) (row : string)
        (e : Element) :
  isNavExpanded w = true -> (0 < s - scrollThreshold)%Q -> (s <= s')%Q ->
  NoDup (navRows w) -> navRows w !! i = Some row -> dom w !! row = Some e ->
  exists css css' v v',
    transform_of (dom (updateHeaders s w)) row = Some css /\ translation css = Some v /\
    transform_of (dom (updateHeaders s' w)) row = Some css' /\ translation css' = Some v' /\
    (- inject_Z (Z.of_N (offsetHeight e)) <= v <= 0)%Q /\ (v' <= v)%Q.
Proof.
  intros Hexp Hs Hss Hnd Hi He.
  destruct (updateHeaders_row w s i row e Hexp Hs Hnd Hi He) as (h & Ht & Hh & Hst).
  destruct (updateHeaders_row w s' i row e Hexp ltac:(lra) Hnd Hi He) as (h' & Ht' & Hh' & Hst').
  assert (Hpos : (0 <= Z.of_N (offsetHeight e))%Z) by lia.
  destruct (translation_header (s - scrollThreshold) h) as (v & Hv & Hveq);
    [by rewrite Hh|].
  destruct (translation_header (s' - scrollThreshold) h') as (v' & Hv' & Hveq');
    [by rewrite Hh'|].
  exists (header_transform (s - scrollThreshold) h),
         (header_transform (s' - scrollThreshold) h'), v, v'.
  split_and!; try done.
  - rewrite Hveq, Hh. apply clamp_bounds.
    change 0%Q with (inject_Z 0). by rewrite <- Zle_Qle.
  - rewrite Hveq, Hh. apply clamp_bounds.
    change 0%Q with (inject_Z 0). by rewrite <- Zle_Qle.
  - rewrite Hveq, Hveq', Hh, Hh', Hst, Hst'. apply clamp_mono. lra.
Qed.

Lemma scroll_translation_clamped_witness :
  exists css css' v v',
    transform_of (dom (updateHeaders 70 (toggleNavExpansion sample_world))) "nav-row-2"
      = Some css /\ translation css = Some v /\
    transform_of (dom (updateHeaders 500 (toggleNavExpansion sample_world))) "nav-row-2"
      = Some css' /\ translation css' = Some v' /\
    (- inject_Z 60 <= v <= 0)%Q /\ (v' <= v)%Q.
Proof.
  assert (Hrows : navRows (toggleNavExpansion sample_world) = ["nav-row-1"; "nav-row-2"])
    by (vm_compute; reflexivity).
  assert (Hnd : NoDup (navRows (toggleNavExpansion sample_world))).
  { rewrite Hrows. apply (bool_decide_unpack (NoDup _)). vm_compute. exact I. }
  assert (He : exists e, dom (toggleNavExpansion sample_world) !! "nav-row-2" = Some e /\
                         offsetHeight e = 60%N).
  { destruct (dom (toggleNavExpansion sample_world) !! "nav-row-2") as [e|] eqn:E.
    - exists e. split; [done|].
      assert (Hh : offsetHeight <$> dom (toggleNavExpansion sample_world) !! "nav-row-2"
                   = Some 60%N) by (vm_compute; reflexivity).
      rewrite E in Hh. by injection Hh.
    - exfalso. revert E. vm_compute. discriminate. }
  destruct He as (e & He & Hh).
  destruct (scroll_translation_clamped (toggleNavExpansion sample_world) 70 500 1
              "nav-row-2" e) as (css & css' & v & v' & H);
    [vm_compute; reflexivity|reflexivity|vm_compute; discriminate|exact Hnd
    |by rewrite Hrows|exact He|].
  rewrite Hh in H. by exists css, css', v, v'.
Defined.

(** ** The region indicator *)

Lemma toggle_region w :
  regionWhichTheTextIsAt (toggleNavExpansion w) = regionWhichTheTextIsAt w.
Proof.
  unfold toggleNavExpansion.
  destruct (updateToggleButton_same
              (if isNavExpanded (set_isNavExpanded (negb (isNavExpanded w)) w)
               then expandNavRows (set_isNavExpanded (negb (isNavExpanded w)) w)
               else collapseNavRowsWithContentMovement
                      (set_isNavExpanded (negb (isNavExpanded w)) w))) as (_&_&->).
  destruct (isNavExpanded (set_isNavExpanded _ w)).
  - by destruct (expandNavRows_same (set_isNavExpanded (negb (isNavExpanded w)) w)) as (_&_&->).
  - by destruct (collapse_same (set_isNavExpanded (negb (isNavExpanded w)) w)) as (_&_&->).
Qed.

Lemma step_region w ev :
  regionWhichTheTextIsAt (step w ev) =
  match ev with SetRegion r => r | _ => regionWhichTheTextIsAt w end.
Proof.
  destruct ev; simpl.
  - apply toggle_region.
  - destruct (contentScroll w); [|done]. unfold onScroll. simpl. by destruct (ticking w).
  - change (regionWhichTheTextIsAt (Nat.iter (rafPending w) onFrame w)
            = regionWhichTheTextIsAt w).
    apply (iter_preserves (fun w' => regionWhichTheTextIsAt w' = regionWhichTheTextIsAt w));
      [|done].
    intros w' <-. apply onFrame_same.
  - by destruct (updateButtonPosition_same (set_innerWidth width w)) as (_&_&->).
  - destruct (fire w) as [[k w']|] eqn:E; [|done]. by destruct (fire_same _ _ _ E) as (_&_&->).
  - done.
  - done.
Qed.

(** X6: the region indicator is purely caller-managed state: after any
    sequence of toggles, scrolls, frames, resizes, timers and waits it reads
    what the last [setCurrentRegion] wrote, or the initial 1 if there was
    none; nothing in the widget ever computes it. *)
Theorem region_is_caller_managed (d : Dom) (width : Z) (w0 : World) (evs : list event) :
  DynamicNavigation_new d width = Ok w0 ->
  getCurrentRegion (run w0 evs) = last_region evs 1.
Proof.
  intros Hnew. destruct (new_state _ _ _ Hnew) as (_ & <-). unfold getCurrentRegion.
  generalize w0. clear Hnew w0. induction evs as [|ev evs IH]; intros w; [done|].
  change (run w (ev :: evs)) with (run (step w ev) evs).
  rewrite IH, step_region. unfold last_region. simpl. by destruct ev.
Qed.

Lemma region_is_caller_managed_witness :
  getCurrentRegion (run sample_world [SetRegion 4; Toggle; Scroll 70; Frame; TimerFires]) = 4%Z.
Proof.
  exact (region_is_caller_managed sample_page 1024 sample_world
           [SetRegion 4; Toggle; Scroll 70; Frame; TimerFires]
           ltac:(vm_compute; reflexivity)).
Defined.

(** ** How many rows, how long a wait *)

(** X7: whatever the page holds, the widget only ever registers nav-row-1 and
    nav-row-2 as nav rows: the configured maximum of 5 that [getMaxNavRows]
    reports is never reached, and a nav-row-3 on the page is ignored. *)
Theorem registered_rows_bounded (d : Dom) (width : Z) (w0 : World) (evs : list event) :
  DynamicNavigation_new d width = Ok w0 ->
  (forall row, row ∈ navRows (run w0 evs) -> row = "nav-row-1" \/ row = "nav-row-2") /\
  (Z.of_nat (length (navRows (run w0 evs))) <= 2 < getMaxNavRows (run w0 evs))%Z.
Proof.
  intros Hnew. destruct (new_rows _ _ _ Hnew) as (Hn & _ & _).
  rewrite (navRows_of_wiring _ _ (run_wiring w0 evs)), Hn. split.
  - intros row Hrow.
    by destruct (resolving_pair d "nav-row-1" "nav-row-2" ltac:(done)) as [_ H];
      destruct (H row Hrow).
  - unfold getMaxNavRows, MAX_NAV_ROWS, resolving. simpl.
    destruct (getElementById d "nav-row-1"), (getElementById d "nav-row-2"); simpl; lia.
Qed.

Lemma registered_rows_bounded_witness :
  navRows (built (<["nav-row-3" := box 50 100 150]> sample_page) 1024)
  = ["nav-row-1"; "nav-row-2"].
Proof.
  destruct (registered_rows_bounded (<["nav-row-3" := box 50 100 150]> sample_page) 1024
              (built (<["nav-row-3" := box 50 100 150]> sample_page) 1024) [])
    as [_ _]; [vm_compute; reflexivity|].
  vm_compute. reflexivity.
Defined.

(** X8: no animation outlasts 700ms: in every state the widget can reach,
    each pending timer is due at most 100ms per nav row plus the 500ms
    animation duration from now, that is within 700ms. *)
Theorem pending_timers_bounded (d : Dom) (width : Z) (w0 : World) (evs : list event) :
  DynamicNavigation_new d width = Ok w0 ->
  Forall (fun t => (t_due t <= now (run w0 evs) + 700)%Z) (timers (run w0 evs)).
Proof.
  intros Hnew. destruct (new_queue _ _ _ Hnew) as [Hq _].
  assert (Hpending : pending_in_time (run w0 evs)).
  { apply run_pending. unfold pending_in_time. rewrite Hq. constructor. }
  destruct (new_rows _ _ _ Hnew) as (Hn & _ & _).
  assert (Hlen : length (navRows (run w0 evs)) <= 2).
  { rewrite (navRows_of_wiring _ _ (run_wiring w0 evs)), Hn. unfold resolving. simpl.
    destruct (getElementById d "nav-row-1"), (getElementById d "nav-row-2"); simpl; lia. }
  eapply Forall_impl; [exact Hpending|]. simpl. unfold ANIMATION_DURATION. intros t Ht. lia.
Qed.

Lemma pending_timers_bounded_witness :
  timers (run sample_world [Toggle; Wait 30; Toggle; TimerFires]) <> [] /\
  Forall (fun t => (t_due t <= now (run sample_world [Toggle; Wait 30; Toggle; TimerFires])
                                + 700)%Z)
         (timers (run sample_world [Toggle; Wait 30; Toggle; TimerFires])).
Proof.
  split; [vm_compute; discriminate|].
  exact (pending_timers_bounded sample_page 1024 sample_world
           [Toggle; Wait 30; Toggle; TimerFires] ltac:(vm_compute; reflexivity)).
Defined.

Lemma drain_length fuel : forall w, length (drain fuel w).1 <= fuel.
Proof.
  induction fuel as [|fuel IH]; intros w; simpl; [done|].
  destruct (fire w) as [[k w']|]; simpl; [|lia].
  specialize (IH w'). destruct (drain fuel w'). simpl in *. lia.
Qed.

(** X9: the callbacks always run out.  No callback re-arms itself and only
    the container-hide step queues a follow-up (one reset), so from any
    state, left alone, a queue of [k] timers of which [h] are container-hide
    steps is empty after at most [k + h] callbacks. *)
Theorem callbacks_run_out (w : World) :
  timers (settle w).2 = [] /\
  length (settle w).1 <= turns (timers w) /\
  turns (timers w)
  = length (timers w) + length (List.filter is_hide (timers w)).
Proof.
  split_and!.
  - by apply drain_idle.
  - apply drain_length.
  - induction (timers w) as [|t q IH]; [done|]. simpl. rewrite IH.
    unfold weight, is_hide. destruct (t_task t); simpl; lia.
Qed.

(** ** Scroll throttling *)

Lemma expandNavRows_scroll w :
  ticking (expandNavRows w) = ticking w /\ rafPending (expandNavRows w) = rafPending w.
Proof.
  unfold expandNavRows. destruct (dynamicNavContainer w); [|done]. simpl.
  by apply (forEach_index_preserves
              (fun w' => ticking w' = ticking w /\ rafPending w' = rafPending w)).
Qed.

Lemma collapse_scroll w :
  ticking (collapseNavRowsWithContentMovement w) = ticking w /\
  rafPending (collapseNavRowsWithContentMovement w) = rafPending w.
Proof.
  unfold collapseNavRowsWithContentMovement. destruct (dynamicNavContainer w); [|done]. simpl.
  by apply (forEach_index_preserves
              (fun w' => ticking w' = ticking w /\ rafPending w' = rafPending w)).
Qed.

Lemma updateToggleButton_scroll w :
  ticking (updateToggleButton w) = ticking w /\
  rafPending (updateToggleButton w) = rafPending w.
Proof.
  unfold updateToggleButton. destruct (navToggle w) as [t|]; [|done].
  destruct (dom w !! t) as [[? ? ? ? ? [?|] [?|]]|]; try done.
  by destruct (isNavExpanded w).
Qed.

Lemma updateButtonPosition_scroll w :
  ticking (updateButtonPosition w) = ticking w /\
  rafPending (updateButtonPosition w) = rafPending w.
Proof.
  unfold updateButtonPosition. destruct (getElementById _ _); [|done].
  by destruct (768 <=? innerWidth w)%Z.
Qed.

Lemma run_task_scroll k w :
  ticking (run_task k w) = ticking w /\ rafPending (run_task k w) = rafPending w.
Proof.
  destruct k; simpl; try done.
  - by destruct (displayedRowRegistry w !! i) as [[?|]|].
  - by destruct (dynamicNavContainer w).
Qed.

Lemma updateHeaders_scroll s w :
  ticking (updateHeaders s w) = ticking w /\ rafPending (updateHeaders s w) = rafPending w.
Proof. unfold updateHeaders. by destruct (Qle_bool _ _), (isNavExpanded w). Qed.

Lemma contentScroll_of_wiring w w' :
  wiring w' = wiring w -> contentScroll w' = contentScroll w.
Proof. unfold wiring. by intros [= -> _ _ _ _ _ _ _ _ _]. Qed.

Lemma step_throttled w ev : throttled w -> throttled (step w ev).
Proof.
  unfold throttled. rewrite (contentScroll_of_wiring _ _ (step_wiring w ev)).
  intros Hw. destruct ev; simpl; try done.
  - unfold toggleNavExpansion.
    destruct (updateToggleButton_scroll
                (if isNavExpanded (set_isNavExpanded (negb (isNavExpanded w)) w)
                 then expandNavRows (set_isNavExpanded (negb (isNavExpanded w)) w)
                 else collapseNavRowsWithContentMovement
                        (set_isNavExpanded (negb (isNavExpanded w)) w))) as [-> ->].
    destruct (isNavExpanded (set_isNavExpanded _ w)).
    + by destruct (expandNavRows_scroll (set_isNavExpanded (negb (isNavExpanded w)) w))
        as [-> ->].
    + by destruct (collapse_scroll (set_isNavExpanded (negb (isNavExpanded w)) w))
        as [-> ->].
  - destruct (contentScroll w) as [c|]; [|done]. unfold onScroll. simpl.
    destruct Hw as [[Ht Hr]|[Ht Hr]]; rewrite Ht; simpl; [by left|]. left. by rewrite Hr.
  - destruct (contentScroll w) as [c|] eqn:Hc.
    + destruct Hw as [[Ht Hr]|[Ht Hr]]; rewrite Hr; simpl; right; [|done].
      unfold onFrame. by rewrite Hc.
    + destruct Hw as [Ht Hr]. by rewrite Hr.
  - by destruct (updateButtonPosition_scroll (set_innerWidth width w)) as [-> ->].
  - destruct (fire w) as [[k w']|] eqn:E; [|done]. unfold fire in E.
    destruct (pick (timers w)) as [[u r]|]; [|done]. injection E as _ <-.
    by destruct (run_task_scroll (t_task u)
                   (set_now (Z.max (now w) (t_due u)) (set_timers r w))) as [-> ->].
Qed.

Lemma new_throttled d width w0 : DynamicNavigation_new d width = Ok w0 -> throttled w0.
Proof.
  unfold DynamicNavigation_new. destruct (getElementById d "nav-row-1"); [|done].
  intros [= <-]. set (w := mkWorld _ _ _ _ _ _ _ _ _ _ _ _ _ _ _ _ _ _ _ _).
  assert (H : ticking (init w) = false /\ rafPending (init w) = 0).
  { unfold init, setupEventListeners.
    destruct (updateButtonPosition_scroll
                (updateToggleButton (set_ticking false (initializeNavRows w)))) as [-> ->].
    destruct (updateToggleButton_scroll (set_ticking false (initializeNavRows w)))
      as [-> ->].
    simpl. unfold initializeNavRows. by destruct (foldl _ _ _). }
  unfold throttled. destruct (contentScroll (init w)); [right|]; exact H.
Qed.

Lemma run_throttled w evs : throttled w -> throttled (run w evs).
Proof.
  intros Hw. unfold run. apply (foldl_preserves throttled); [|done].
  intros w' ev. apply step_throttled.
Qed.

(** X10: scroll events are throttled to one update per animation frame: in
    every state the widget can reach at most one frame callback is pending,
    and one is pending exactly while [ticking] is set. *)
Theorem one_frame_callback (d : Dom) (width : Z) (w0 : World) (evs : list event) :
  DynamicNavigation_new d width = Ok w0 ->
  rafPending (run w0 evs) <= 1 /\
  (ticking (run w0 evs) = true <-> rafPending (run w0 evs) = 1).
Proof.
  intros Hnew. pose proof (run_throttled w0 evs (new_throttled _ _ _ Hnew)) as H.
  unfold throttled in H. destruct (contentScroll (run w0 evs)).
  - destruct H as [[-> ->]|[-> ->]]; split; try lia; split; done.
  - destruct H as [-> ->]. split; [lia|]. split; done.
Qed.

Lemma one_frame_callback_witness :
  rafPending (run sample_world [Scroll 20; Scroll 40; Toggle; Scroll 70]) = 1 /\
  ticking (run sample_world [Scroll 20; Scroll 40; Toggle; Scroll 70]) = true.
Proof.
  destruct (one_frame_callback sample_page 1024 sample_world
              [Scroll 20; Scroll 40; Toggle; Scroll 70] ltac:(vm_compute; reflexivity))
    as [_ [Hto _]].
  assert (Ht : ticking (run sample_world [Scroll 20; Scroll 40; Toggle; Scroll 70]) = true)
    by (vm_compute; reflexivity).
  split; [exact (Hto Ht)|exact Ht].
Defined.

Lemma run_app w evs1 evs2 : run w (evs1 ++ evs2) = run (run w evs1) evs2.
Proof. unfold run. apply foldl_app. Qed.

(** X11: a frame mirrors the latest scroll position, once.  On a page with
    the content container, after a scroll to [s] (however many scrolls came
    before it in the same frame) the next animation frame calls the update
    exactly once, with [s]; afterwards [lastScrollTop] is [s] and the
    listener is ready for the next scroll. *)
Theorem frame_uses_latest_scroll (d : Dom) (width : Z) (w0 : World) (evs : list event)
        (s : Q) :
  DynamicNavigation_new d width = Ok w0 ->
  is_Some (d !! "content-scroll") ->
  step (run w0 (evs ++ [Scroll s])) Frame
  = set_rafPending 0
      (set_ticking false
         (set_lastScrollTop s (updateHeaders s (run w0 (evs ++ [Scroll s]))))).
Proof.
  intros Hnew [e0 He0].
  assert (Hcs : contentScroll w0 = Some "content-scroll").
  { revert Hnew. unfold DynamicNavigation_new.
    destruct (getElementById d "nav-row-1"); [|done]. intros [= <-].
    set (w := mkWorld _ _ _ _ _ _ _ _ _ _ _ _ _ _ _ _ _ _ _ _).
    rewrite (contentScroll_of_wiring _ _ (init_wiring w)).
    destruct (initializeNavRows_state w) as (_ & _ & _ & _ & ->). simpl.
    unfold getElementById. by rewrite He0. }
  rewrite run_app. set (w := run w0 evs).
  assert (Hc : contentScroll w = Some "content-scroll").
  { subst w. by rewrite (contentScroll_of_wiring _ _ (run_wiring w0 evs)). }
  assert (Hpresent : is_Some (dom w !! "content-scroll")).
  { destruct (new_rows _ _ _ Hnew) as (_ & _ & Hd).
    pose proof (restyled_trans _ _ _ Hd (run_restyled w0 evs) "content-scroll") as H.
    rewrite He0 in H. inversion H. by eexists. }
  pose proof (run_throttled w0 evs (new_throttled _ _ _ Hnew)) as Hth.
  fold w in Hth. unfold throttled in Hth. rewrite Hc in Hth.
  destruct Hpresent as [e He].
  assert (Hscrolled : scrollTop_of (alter (with_scrollTop s) "content-scroll" (dom w))
                                   "content-scroll" = s).
  { unfold scrollTop_of. by rewrite lookup_alter_eq, He. }
  change (run w [Scroll s]) with (step w (Scroll s)). simpl. rewrite Hc. unfold onScroll.
  destruct Hth as [[Ht Hr]|[Ht Hr]]; simpl; rewrite Ht; simpl; rewrite ?Hr; simpl;
    unfold onFrame; simpl; rewrite Hc, Hscrolled; reflexivity.
Qed.

Lemma frame_uses_latest_scroll_witness :
  lastScrollTop (step (run sample_world ([Toggle; Scroll 20; Scroll 40] ++ [Scroll 70])) Frame)
  = 70%Q.
Proof.
  rewrite (frame_uses_latest_scroll sample_page 1024 sample_world
             [Toggle; Scroll 20; Scroll 40] 70 ltac:(vm_compute; reflexivity)).
  - reflexivity.
  - apply (bool_decide_unpack (is_Some _)). vm_compute. exact I.
Defined.

(** ** What animation leaves alone *)

Lemma animated_refl d : animated d d.
Proof. intros r e He. by exists e. Qed.

Lemma animated_trans d1 d2 d3 : animated d1 d2 -> animated d2 d3 -> animated d1 d3.
Proof.
  intros H12 H23 r e3 He3. destruct (H23 r e3 He3) as (e2 & He2 & ? & ? & ? & ? & ?).
  destruct (H12 r e2 He2) as (e1 & He1 & ? & ? & ? & ? & ?).
  exists e1. split_and!; congruence.
Qed.

Lemma animated_alter d (f : Element -> Element) r :
  (forall e, svg (f e) = svg e /\ span (f e) = span e /\
             Style.position (style (f e)) = Style.position (style e) /\
             Style.top (style (f e)) = Style.top (style e) /\
             Style.right (style (f e)) = Style.right (style e)) ->
  animated d (alter f r d).
Proof.
  intros Hf r' e'. destruct (decide (r = r')) as [->|Hne].
  - rewrite lookup_alter_eq. destruct (d !! r') as [e|]; simpl; intros [= <-].
    exists e. split; [done|]. apply Hf.
  - rewrite lookup_alter_ne by done. intros He. by exists e'.
Qed.

Lemma animated_style_each d f rows :
  (forall s, Style.position (f s) = Style.position s /\ Style.top (f s) = Style.top s /\
             Style.right (f s) = Style.right s) ->
  animated d (style_each f rows d).
Proof.
  intros Hf. unfold style_each. apply (foldl_preserves (animated d)); [|apply animated_refl].
  intros d' r H. eapply animated_trans; [exact H|]. apply animated_alter.
  intros e. simpl. split_and!; try done; apply Hf.
Qed.

Lemma expandNavRows_animated w : animated (dom w) (dom (expandNavRows w)).
Proof.
  unfold expandNavRows. destruct (dynamicNavContainer w) as [c|]; [|apply animated_refl].
  simpl. apply (forEach_index_preserves (fun w' => animated (dom w) (dom w'))); [done|].
  by apply animated_alter.
Qed.

Lemma updateHeaders_animated s w : animated (dom w) (dom (updateHeaders s w)).
Proof.
  unfold updateHeaders.
  destruct (Qle_bool _ _), (isNavExpanded w); simpl; try apply animated_refl.
  - by apply animated_style_each.
  - apply (foldl_preserves (animated (dom w))); [|apply animated_refl].
    intros d' h H. eapply animated_trans; [exact H|]. by apply animated_alter.
Qed.

Lemma run_task_animated k w : animated (dom w) (dom (run_task k w)).
Proof.
  destruct k; simpl.
  - destruct (displayedRowRegistry w !! i) as [[?|]|]; simpl;
      [by apply animated_alter|apply animated_refl..].
  - by apply animated_alter.
  - by apply animated_style_each.
  - assert (H2 : animated (dom w)
                   (style_each
                      (Style.set_transform
                         (TranslateYNegPx
                            (inject_Z (default 0%Z (cells w !! cell) + rowHeight)%Z)))
                      (titleRows w)
                      (set_style (fun s => Style.set_opacity (Lit "0")
                                             (Style.set_transform (Lit "translateY(-100%)") s))
                                 row (dom w)))).
    { eapply animated_trans; [|by apply animated_style_each]. by apply animated_alter. }
    destruct (contentScroll w); [|exact H2].
    eapply animated_trans; [exact H2|]. by apply animated_alter.
  - destruct (dynamicNavContainer w); simpl; [by apply animated_alter|apply animated_refl].
  - assert (H2 : animated (dom w)
                   (style_each (Style.set_transform identity) (titleRows w)
                      (style_each reset_row (navRows w) (dom w)))).
    { eapply animated_trans; [|by apply animated_style_each]. by apply animated_style_each. }
    destruct (contentScroll w); [|exact H2].
    eapply animated_trans; [exact H2|]. by apply animated_alter.
Qed.

Lemma updateToggleButton_keeps_style w r e' :
  dom (updateToggleButton w) !! r = Some e' ->
  exists e, dom w !! r = Some e /\ style e' = style e.
Proof.
  unfold updateToggleButton. destruct (navToggle w) as [t|]; [|by exists e'].
  destruct (dom w !! t) as [[h tp bt sc st [i0|] [l0|]]|] eqn:E; try (by exists e').
  assert (H : forall i l, alter (with_svg_span i l) t (dom w) !! r = Some e' ->
                          exists e, dom w !! r = Some e /\ style e' = style e).
  { intros i l. destruct (decide (t = r)) as [->|Hne].
    - rewrite lookup_alter_eq, E. simpl. intros [= <-]. by eexists.
    - rewrite lookup_alter_ne by done. by exists e'. }
  destruct (isNavExpanded w); apply H.
Qed.

Lemma updateButtonPosition_keeps_children w r e' :
  dom (updateButtonPosition w) !! r = Some e' ->
  exists e, dom w !! r = Some e /\ svg e' = svg e /\ span e' = span e.
Proof.
  unfold updateButtonPosition. destruct (getElementById _ _) as [b|]; [|by exists e'].
  assert (H : forall f, set_style f b (dom w) !! r = Some e' ->
                        exists e, dom w !! r = Some e /\ svg e' = svg e /\ span e' = span e).
  { intros f. unfold set_style. destruct (decide (b = r)) as [->|Hne].
    - rewrite lookup_alter_eq. destruct (dom w !! r) as [e|]; simpl; intros [= <-].
      by exists e.
    - rewrite lookup_alter_ne by done. by exists e'. }
  destruct (768 <=? innerWidth w)%Z; apply H.
Qed.

(** Every event but a toggle or a resize only animates. *)
Lemma step_animated w ev :
  ev <> Toggle -> (forall width, ev <> Resize width) -> animated (dom w) (dom (step w ev)).
Proof.
  intros Ht Hr. destruct ev; simpl; try done; try apply animated_refl.
  - destruct (contentScroll w) as [c|]; [|apply animated_refl].
    unfold onScroll. simpl. destruct (ticking w); simpl; by apply animated_alter.
  - change (animated (dom w) (dom (Nat.iter (rafPending w) onFrame w))).
    apply (iter_preserves (fun w' => animated (dom w) (dom w'))); [|apply animated_refl].
    intros w' H. eapply animated_trans; [exact H|]. unfold onFrame.
    destruct (contentScroll w') as [c|]; [|apply animated_refl]. simpl.
    apply updateHeaders_animated.
  - by destruct (Hr width).
  - destruct (fire w) as [[k w']|] eqn:E; [|apply animated_refl]. unfold fire in E.
    destruct (pick (timers w)) as [[u r]|]; [|done]. injection E as _ <-.
    apply (run_task_animated (t_task u) (set_now _ (set_timers r w))).
Qed.

(** The animation half of a toggle, before the button is relabelled. *)
Lemma toggle_animated w :
  exists w1, toggleNavExpansion w = updateToggleButton w1 /\
    animated (dom w) (dom w1) /\ innerWidth w1 = innerWidth w.
Proof.
  unfold toggleNavExpansion. eexists. split; [reflexivity|].
  destruct (isNavExpanded (set_isNavExpanded _ w)).
  - split; [apply (expandNavRows_animated (set_isNavExpanded _ w))|].
    unfold expandNavRows. destruct (dynamicNavContainer _); [|done]. simpl.
    by apply (forEach_index_preserves (fun w' => innerWidth w' = innerWidth w)).
  - rewrite collapse_dom. split; [apply animated_refl|].
    unfold collapseNavRowsWithContentMovement. destruct (dynamicNavContainer _); [|done].
    simpl. by apply (forEach_index_preserves (fun w' => innerWidth w' = innerWidth w)).
Qed.

Lemma navToggle_of_wiring w w' : wiring w' = wiring w -> navToggle w' = navToggle w.
Proof. unfold wiring. by intros [= _ _ -> _ _ _ _ _ _ _]. Qed.

Lemma updateToggleButton_fields w :
  innerWidth (updateToggleButton w) = innerWidth w /\
  navToggle (updateToggleButton w) = navToggle w /\
  isNavExpanded (updateToggleButton w) = isNavExpanded w.
Proof.
  split; [|split].
  - unfold updateToggleButton. destruct (navToggle w) as [t|]; [|done].
    destruct (dom w !! t) as [[? ? ? ? ? [?|] [?|]]|]; try done.
    by destruct (isNavExpanded w).
  - apply navToggle_of_wiring, updateToggleButton_same.
  - apply updateToggleButton_same.
Qed.

Lemma step_innerWidth w ev :
  innerWidth (step w ev) = match ev with Resize width => width | _ => innerWidth w end.
Proof.
  destruct ev; simpl; try done.
  - destruct (toggle_animated w) as (w1 & -> & _ & <-). apply updateToggleButton_fields.
  - destruct (contentScroll w); [|done]. unfold onScroll. simpl. by destruct (ticking w).
  - change (innerWidth (Nat.iter (rafPending w) onFrame w) = innerWidth w).
    apply (iter_preserves (fun w' => innerWidth w' = innerWidth w)); [|done].
    intros w' <-. unfold onFrame. destruct (contentScroll w'); [|done]. simpl.
    unfold updateHeaders. by destruct (Qle_bool _ _), (isNavExpanded w').
  - unfold updateButtonPosition. destruct (getElementById _ _); [|done]. simpl.
    by destruct (768 <=? width)%Z.
  - destruct (fire w) as [[k w']|] eqn:E; [|done]. unfold fire in E.
    destruct (pick (timers w)) as [[u r]|]; [|done]. injection E as _ <-.
    destruct (t_task u); simpl; try done.
    + by destruct (displayedRowRegistry w !! i) as [[?|]|].
    + by destruct (dynamicNavContainer w).
Qed.

(** ** The toggle control's label *)

Lemma updateToggleButton_labelled w : labelled (updateToggleButton w).
Proof.
  intros t e. destruct (updateToggleButton_fields w) as (_ & -> & ->).
  unfold updateToggleButton. intros Ht. rewrite Ht.
  destruct (dom w !! t) as [[h tp bt sc st [i|] [l|]]|] eqn:E.
  - destruct (isNavExpanded w); simpl; rewrite lookup_alter_eq, E; simpl;
      by intros [= <-].
  - rewrite E. intros [= <-] _ [? ?]. done.
  - rewrite E. intros [= <-] [? ?]. done.
  - rewrite E. intros [= <-] [? ?]. done.
  - by rewrite E.
Qed.

Lemma labelled_kept w w' :
  navToggle w' = navToggle w -> isNavExpanded w' = isNavExpanded w ->
  (forall r e', dom w' !! r = Some e' ->
     exists e, dom w !! r = Some e /\ svg e' = svg e /\ span e' = span e) ->
  labelled w -> labelled w'.
Proof.
  intros Ht Hf Hk Hw t e' Ht' He' Hsvg Hspan. rewrite Ht in Ht'. rewrite Hf.
  destruct (Hk t e' He') as (e & He & Hs1 & Hs2). rewrite Hs1, Hs2 in *.
  by apply (Hw t e).
Qed.

Lemma step_labelled w ev : labelled w -> labelled (step w ev).
Proof.
  intros Hw.
  assert (Hcases : ev = Toggle \/ (exists width, ev = Resize width) \/
                   (ev <> Toggle /\ forall width, ev <> Resize width)).
  { destruct ev; try (by left); try (right; right; by split). right. left. by eexists. }
  destruct Hcases as [->|[[width ->]|[Ht Hr]]].
  - simpl. destruct (toggle_animated w) as (w1 & -> & _). apply updateToggleButton_labelled.
  - simpl. apply (labelled_kept (set_innerWidth width w)); try done.
    + by destruct (updateButtonPosition_same (set_innerWidth width w)) as (H & _);
        apply navToggle_of_wiring in H.
    + by destruct (updateButtonPosition_same (set_innerWidth width w)) as (_ & H & _).
    + apply updateButtonPosition_keeps_children.
  - apply (labelled_kept w); try done.
    + apply navToggle_of_wiring, step_wiring.
    + rewrite step_expanded. by destruct ev.
    + intros r e' He'. destruct (step_animated w ev Ht Hr r e' He') as (e & ? & ? & ? & _).
      by exists e.
Qed.

(** X12: the toggle control always shows the current state: in every state
    the widget can reach, a toggle control that has an icon and a label
    reads 'Less' with the collapse icon while expanded and 'More' with the
    expand icon while collapsed. *)
Theorem label_shows_state (d : Dom) (width : Z) (w0 : World) (evs : list event) :
  DynamicNavigation_new d width = Ok w0 -> labelled (run w0 evs).
Proof.
  intros Hnew. unfold run. apply (foldl_preserves labelled); [intros; by apply step_labelled|].
  revert Hnew. unfold DynamicNavigation_new.
  destruct (getElementById d "nav-row-1"); [|done]. intros [= <-].
  set (w := mkWorld _ _ _ _ _ _ _ _ _ _ _ _ _ _ _ _ _ _ _ _). unfold init.
  set (w1 := updateToggleButton (setupEventListeners (initializeNavRows w))).
  apply (labelled_kept w1).
  - by destruct (updateButtonPosition_same w1) as (H & _); apply navToggle_of_wiring in H.
  - by destruct (updateButtonPosition_same w1) as (_ & H & _).
  - apply updateButtonPosition_keeps_children.
  - apply updateToggleButton_labelled.
Qed.

Lemma labelled_reads w t :
  labelled w -> navToggle w = Some t ->
  is_Some (dom w !! t ≫= svg) -> is_Some (dom w !! t ≫= span) ->
  dom w !! t ≫= svg = Some (if isNavExpanded w then collapse_icon else expand_icon) /\
  dom w !! t ≫= span = Some (if isNavExpanded w then "Less" else "More").
Proof.
  intros Hw Ht. destruct (dom w !! t) as [e|] eqn:E; simpl; [|by intros [? ?]].
  intros Hsvg Hspan. by apply (Hw t e).
Qed.

Lemma label_shows_state_witness :
  isNavExpanded (run sample_world [Toggle; Scroll 70; Frame; TimerFires; Resize 500]) = true /\
  dom (run sample_world [Toggle; Scroll 70; Frame; TimerFires; Resize 500])
    !! "nav-toggle" ≫= span
  = Some (if isNavExpanded (run sample_world [Toggle; Scroll 70; Frame; TimerFires; Resize 500])
          then "Less" else "More").
Proof.
  split; [vm_compute; reflexivity|].
  refine (proj2 (labelled_reads _ "nav-toggle" _ _ _ _)).
  - exact (label_shows_state sample_page 1024 sample_world
             [Toggle; Scroll 70; Frame; TimerFires; Resize 500]
             ltac:(vm_compute; reflexivity)).
  - vm_compute. reflexivity.
  - apply (bool_decide_unpack (is_Some _)). vm_compute. exact I.
  - apply (bool_decide_unpack (is_Some _)). vm_compute. exact I.
Defined.

(** ** The toggle button's position *)

Lemma updateButtonPosition_positioned w : positioned (updateButtonPosition w).
Proof.
  intros e. unfold positioned.
  assert (Hw : innerWidth (updateButtonPosition w) = innerWidth w).
  { unfold updateButtonPosition. destruct (getElementById _ _); [|done].
    by destruct (768 <=? innerWidth w)%Z. }
  rewrite Hw. unfold updateButtonPosition, getElementById.
  destruct (dom w !! "toggle-button") as [b|] eqn:E; [|by rewrite E].
  destruct (768 <=? innerWidth w)%Z eqn:Hwide; simpl; unfold set_style;
    rewrite lookup_alter_eq, E; simpl; by intros [= <-].
Qed.

Lemma positioned_kept w w' :
  innerWidth w' = innerWidth w ->
  (forall r e', dom w' !! r = Some e' ->
     exists e, dom w !! r = Some e /\
       Style.position (style e') = Style.position (style e) /\
       Style.top (style e') = Style.top (style e) /\
       Style.right (style e') = Style.right (style e)) ->
  positioned w -> positioned w'.
Proof.
  intros Hwd Hk Hw e' He'. rewrite Hwd.
  destruct (Hk _ e' He') as (e & He & -> & -> & ->). by apply Hw.
Qed.

Lemma step_positioned w ev : positioned w -> positioned (step w ev).
Proof.
  intros Hw.
  assert (Hcases : ev = Toggle \/ (exists width, ev = Resize width) \/
                   (ev <> Toggle /\ forall width, ev <> Resize width)).
  { destruct ev; try (by left); try (right; right; by split). right. left. by eexists. }
  destruct Hcases as [->|[[width ->]|[Ht Hr]]].
  - simpl. destruct (toggle_animated w) as (w1 & -> & Ha & Hwd).
    apply (positioned_kept w1); [apply updateToggleButton_fields| |].
    + intros r e' He'. destruct (updateToggleButton_keeps_style w1 r e' He') as (e & ? & ->).
      by exists e.
    + apply (positioned_kept w); [done| |done].
      intros r e' He'. destruct (Ha r e' He') as (e & ? & _ & _ & ? & ? & ?). by exists e.
  - apply updateButtonPosition_positioned.
  - apply (positioned_kept w); [|  |done].
    + rewrite step_innerWidth. destruct ev; try done. by destruct (Hr width).
    + intros r e' He'. destruct (step_animated w ev Ht Hr r e' He')
        as (e & ? & _ & _ & ? & ? & ?). by exists e.
Qed.

(** X13: the toggle button always sits where the current window width puts
    it: in every state the widget can reach, a toggle button on the page has
    top 20px and is fixed with right 20px when the window is narrower than
    768px, absolute with right calc(30% + 20px) otherwise; construction
    positions it, a resize repositions it, and nothing else moves it. *)
Theorem button_follows_width (d : Dom) (width : Z) (w0 : World) (evs : list event) :
  DynamicNavigation_new d width = Ok w0 -> positioned (run w0 evs).
Proof.
  intros Hnew. unfold run.
  apply (foldl_preserves positioned); [intros; by apply step_positioned|].
  revert Hnew. unfold DynamicNavigation_new.
  destruct (getElementById d "nav-row-1"); [|done]. intros [= <-].
  apply updateButtonPosition_positioned.
Qed.

Lemma positioned_reads w :
  positioned w -> is_Some (dom w !! "toggle-button") ->
  Style.position ∘ style <$> dom w !! "toggle-button"
  = Some (if (768 <=? innerWidth w)%Z then Lit "absolute" else Lit "fixed") /\
  Style.right ∘ style <$> dom w !! "toggle-button"
  = Some (if (768 <=? innerWidth w)%Z then Lit "calc(30% + 20px)" else Lit "20px").
Proof.
  intros Hw [e He]. rewrite He. simpl. destruct (Hw e He) as [_ H].
  destruct (768 <=? innerWidth w)%Z; destruct H as [-> ->]; done.
Qed.

Lemma button_follows_width_witness :
  innerWidth (run (built sample_page 500) [Toggle; TimerFires; Scroll 70; Frame]) = 500%Z /\
  Style.position ∘ style
    <$> dom (run (built sample_page 500) [Toggle; TimerFires; Scroll 70; Frame])
          !! "toggle-button"
  = Some (if (768 <=? innerWidth (run (built sample_page 500)
                                      [Toggle; TimerFires; Scroll 70; Frame]))%Z
          then Lit "absolute" else Lit "fixed").
Proof.
  split; [vm_compute; reflexivity|].
  refine (proj1 (positioned_reads _ _ _)).
  - exact (button_follows_width sample_page 500 (built sample_page 500)
             [Toggle; TimerFires; Scroll 70; Frame] ltac:(vm_compute; reflexivity)).
  - apply (bool_decide_unpack (is_Some _)). vm_compute. exact I.
Defined.

(** ** The styles construction leaves *)

Lemma styled_alter_ne (Q : Style.t -> Prop) (f : Element -> Element) r r' d :
  r' <> r -> styled Q d r -> styled Q (alter f r' d) r.
Proof. intros Hne H e. rewrite lookup_alter_ne by done. apply H. Qed.

Lemma styled_restyle_ne (Q : Style.t -> Prop) f r r' d :
  r' <> r -> styled Q d r -> styled Q (set_style f r' d) r.
Proof. apply styled_alter_ne. Qed.

Lemma styled_after_button (Q : Style.t -> Prop) w r :
  r <> "toggle-button" -> styled Q (dom w) r -> styled Q (dom (updateButtonPosition w)) r.
Proof.
  intros Hne H. unfold updateButtonPosition, getElementById.
  destruct (dom w !! "toggle-button"); [|done].
  destruct (768 <=? innerWidth w)%Z; simpl; by apply styled_restyle_ne.
Qed.

Lemma styled_after_label (Q : Style.t -> Prop) w r :
  styled Q (dom w) r -> styled Q (dom (updateToggleButton w)) r.
Proof.
  intros H e' He'. destruct (updateToggleButton_keeps_style w r e' He') as (e & He & ->).
  by apply H.
Qed.

Lemma getElementById_id d id r : getElementById d id = Some r -> r = id.
Proof. unfold getElementById. destruct (d !! id); by intros [= <-]. Qed.

Lemma init_nav_row_styled acc i :
  (forall row, row ∈ acc.1 -> styled nav_row_styled acc.2 row) ->
  forall row, row ∈ (init_nav_row acc i).1 ->
    styled nav_row_styled (init_nav_row acc i).2 row.
Proof.
  intros Hacc row. unfold init_nav_row.
  destruct (getElementById acc.2 (nav_row_id i)) as [navRow|]; [|apply Hacc]. simpl.
  intros Hrow. destruct (decide (navRow = row)) as [->|Hne].
  - by apply styled_set_same.
  - apply styled_restyle_ne; [done|]. apply Hacc.
    apply elem_of_app in Hrow as [?|Hrow]; [done|].
    apply list_elem_of_singleton in Hrow. congruence.
Qed.

Lemma init_title_row_keeps (Q : Style.t -> Prop) t acc r :
  (forall x, t = Some x -> x <> r) ->
  styled Q (r_dom acc) r -> styled Q (r_dom (init_title_row t acc)) r.
Proof.
  intros Hne H. destruct t as [x|]; [|done]. simpl.
  apply styled_restyle_ne; [by apply Hne|done].
Qed.

Lemma init_title_row_styled t acc :
  (forall row, row ∈ r_titleRows acc -> styled title_row_styled (r_dom acc) row) ->
  forall row, row ∈ r_titleRows (init_title_row t acc) ->
    styled title_row_styled (r_dom (init_title_row t acc)) row.
Proof.
  intros Hacc row. destruct t as [x|]; [|apply Hacc]. simpl. intros Hrow.
  destruct (decide (x = row)) as [->|Hne].
  - by apply styled_set_same.
  - apply styled_restyle_ne; [done|]. apply Hacc.
    apply elem_of_app in Hrow as [?|Hrow]; [done|].
    apply list_elem_of_singleton in Hrow. congruence.
Qed.

Lemma initializeNavRows_styles w :
  (forall x, titleRow1 w = Some x -> x = "title-row-1") ->
  (forall x, titleRow2 w = Some x -> x = "title-row-2") ->
  (forall row, row ∈ navRows (initializeNavRows w) ->
     styled nav_row_styled (dom (initializeNavRows w)) row) /\
  (forall row, row ∈ titleRows (initializeNavRows w) ->
     styled title_row_styled (dom (initializeNavRows w)) row).
Proof.
  intros Ht1 Ht2.
  assert (Hnav : forall row, row ∈ navRows (initializeNavRows w) ->
                   row = "nav-row-1" \/ row = "nav-row-2").
  { destruct (initializeNavRows_rows w) as (-> & _). intros row Hrow.
    by destruct (resolving_pair (dom w) "nav-row-1" "nav-row-2" ltac:(done)) as [_ H];
      destruct (H row Hrow). }
  revert Hnav. unfold initializeNavRows. cbn [foldl].
  pose proof (init_nav_row_styled (init_nav_row ([], dom w) 1%N) 2%N
                (init_nav_row_styled ([], dom w) 1%N
                   ltac:(intros row Hrow; by apply elem_of_nil in Hrow))) as Hloop.
  destruct (init_nav_row (init_nav_row ([], dom w) 1%N) 2%N) as [rows d1].
  cbn [fst snd] in Hloop. cbn [navRows titleRows dom]. intros Hnav. split.
  - intros row Hrow.
    assert (Hrow' : row ∈ rows) by (by destruct (titleRow1 w), (titleRow2 w)).
    apply init_title_row_keeps.
    { intros x Hx. apply Ht2 in Hx as ->. by destruct (Hnav row Hrow) as [-> | ->]. }
    apply init_title_row_keeps.
    { intros x Hx. apply Ht1 in Hx as ->. by destruct (Hnav row Hrow) as [-> | ->]. }
    by apply Hloop.
  - apply init_title_row_styled, init_title_row_styled.
    intros row Hrow. by apply elem_of_nil in Hrow.
Qed.

(** X14: construction leaves every registered row ready to animate: each nav
    row that resolved is on the page with position relative, z-index 10, the
    transform-and-opacity transition, the identity transform and opacity 1;
    each title row that resolved has position relative, z-index 10, the
    transform transition and the identity transform. *)
Theorem construction_styles (d : Dom) (width : Z) (w0 : World) :
  DynamicNavigation_new d width = Ok w0 ->
  (forall row, row ∈ navRows w0 ->
     is_Some (dom w0 !! row) /\ styled nav_row_styled (dom w0) row) /\
  (forall row, row ∈ titleRows w0 ->
     is_Some (dom w0 !! row) /\ styled title_row_styled (dom w0) row).
Proof.
  intros Hnew. pose proof (new_rows _ _ _ Hnew) as (_ & _ & Hrestyled).
  assert (Hpresent : forall row, is_Some (d !! row) -> is_Some (dom w0 !! row)).
  { intros row [e He]. pose proof (Hrestyled row) as H. rewrite He in H. inversion H.
    by eexists. }
  revert Hnew Hpresent. unfold DynamicNavigation_new.
  destruct (getElementById d "nav-row-1") as [r1|] eqn:E1; [|done]. intros [= <-] Hpresent.
  set (w := mkWorld _ _ _ _ _ _ _ _ _ _ _ _ _ _ _ _ _ _ _ _) in *.
  pose proof (init_wiring w) as Hw. unfold wiring in Hw.
  injection Hw as _ _ _ _ _ _ _ _ Hnav Htitle. rewrite Hnav, Htitle.
  destruct (initializeNavRows_styles w) as [Hnavs Htitles];
    [intros x Hx; by apply getElementById_id in Hx
    |intros x Hx; by apply getElementById_id in Hx|].
  destruct (initializeNavRows_rows w) as (Hn & Ht & _).
  destruct (resolving_pair d "nav-row-1" "nav-row-2" ltac:(done)) as [_ Hin1].
  destruct (resolving_pair d "title-row-1" "title-row-2" ltac:(done)) as [_ Hin2].
  assert (Hstay : forall (Q : Style.t -> Prop) row,
            row <> "toggle-button" -> styled Q (dom (initializeNavRows w)) row ->
            styled Q (dom (init w)) row).
  { intros Q row Hne H. unfold init, setupEventListeners.
    apply styled_after_button; [done|]. by apply styled_after_label. }
  split; intros row Hrow.
  - pose proof Hrow as Hrow'. rewrite Hn in Hrow'. destruct (Hin1 row Hrow') as [Hid Hsome].
    split; [by apply Hpresent|]. apply Hstay; [by destruct Hid as [-> | ->]|].
    by apply Hnavs.
  - pose proof Hrow as Hrow'. rewrite Ht in Hrow'. destruct (Hin2 row Hrow') as [Hid Hsome].
    split; [by apply Hpresent|]. apply Hstay; [by destruct Hid as [-> | ->]|].
    by apply Htitles.
Qed.

Lemma construction_styles_witness :
  (forall row, row ∈ navRows sample_world ->
     is_Some (dom sample_world !! row) /\ styled nav_row_styled (dom sample_world) row) /\
  navRows sample_world = ["nav-row-1"; "nav-row-2"].
Proof.
  destruct (construction_styles sample_page 1024 sample_world ltac:(vm_compute; reflexivity))
    as [H _].
  split; [exact H|vm_compute; reflexivity].
Defined.

(** ** An expansion runs to the open state *)








(** ** The rows leave last first *)

Lemma lookup_map {A B : Type} (f : A -> B) (l : list A) (i : nat) :
  map f l !! i = f <$> l !! i.
Proof. revert i. induction l as [|x l IH]; intros [|i]; simpl; auto. Qed.

Lemma collapse_timers w c :
  dynamicNavContainer w = Some c ->
  timers (collapseNavRowsWithContentMovement w)
  = timers w ++ imap (leave_timer w) (navRows w) ++ [hide_timer w] /\
  cells (collapseNavRowsWithContentMovement w) = cells w ++ [0%Z].
Proof.
  intros Hc. unfold collapseNavRowsWithContentMovement. rewrite Hc.
  set (body := fun (row : string) (index : nat) (w' : World) => _).
  assert (Hloop : forall rows pre w', navRows w = pre ++ rows -> now w' = now w ->
            timers (forEach_index body rows (length pre) w')
            = timers w' ++ imap (fun i => leave_timer w (length pre + i)) rows /\
            cells (forEach_index body rows (length pre) w') = cells w' /\
            now (forEach_index body rows (length pre) w') = now w).
  { induction rows as [|row rows IH]; intros pre w' Hrows Hnow; simpl.
    { by rewrite app_nil_r. }
    destruct (IH (pre ++ [row]) (body row (length pre) w')) as (Hq & Hcells & Hnow').
    { by rewrite <- app_assoc. }
    { by subst body. }
    rewrite length_app in Hq, Hcells, Hnow'. simpl in Hq, Hcells, Hnow'.
    rewrite Nat.add_1_r in Hq, Hcells, Hnow'. rewrite Hq, Hcells, Hnow'.
    split; [|by subst body]. subst body. simpl. rewrite <- app_assoc. simpl.
    f_equal. f_equal.
    - unfold leave_timer. rewrite Nat.add_0_r, Hnow, ?Z.div_1_r.
      by rewrite lookup_map, Hrows, list_lookup_middle.
    - apply imap_ext. intros i x _. simpl. f_equal. lia. }
  destruct (Hloop (navRows w) [] (set_cells (cells w ++ [0%Z]) w) eq_refl eq_refl)
    as (Hq & Hcells & Hnow).
  simpl in Hq, Hcells, Hnow. unfold setTimeout. simpl.
  rewrite Hq, Hcells, Hnow, ?Z.div_1_r. split; [|done].
  by rewrite <- app_assoc.
Qed.

Lemma pick_last (q : list Timer) (t h : Timer) :
  Forall (fun x => (t_due t < t_due x)%Z) q -> (t_due t < t_due h)%Z ->
  pick (q ++ [t; h]) = Some (t, q ++ [h]).
Proof.
  intros Hq Hh. induction Hq as [|x q Hx Hq IH]; simpl.
  - destruct (Z.leb_spec (t_due t) (t_due h)); [done|lia].
  - rewrite IH. destruct (Z.leb_spec (t_due x) (t_due t)); [lia|done].
Qed.

Lemma sumZ_app l1 l2 : sumZ (l1 ++ l2) = (sumZ l1 + sumZ l2)%Z.
Proof. induction l1 as [|x l1 IH]; simpl; [done|]. rewrite IH. lia. Qed.

(** From a state where the timers of the rows [pre ++ mid] and of the
    container are the pending ones, [length mid] turns run the callbacks of
    [mid], last first. *)
Lemma leaving_turns (w : World) (pre : list string) :
  forall mid wm v,
    length (pre ++ mid) <= length (navRows w) ->
    timers wm = imap (leave_timer w) (pre ++ mid) ++ [hide_timer w] ->
    titleRows wm = titleRows w -> contentScroll wm = contentScroll w ->
    cells wm !! length (cells w) = Some v ->
    (drain (length mid) wm).1
    = (fun row => RowDisappear row (height_of (dom w) row) (length (cells w)))
        <$> reverse mid /\
    timers (drain (length mid) wm).2 = imap (leave_timer w) pre ++ [hide_timer w] /\
    (forall row, styled (fun s => Style.opacity s = Lit "0") (dom wm) row ->
       styled (fun s => Style.opacity s = Lit "0") (dom (drain (length mid) wm).2) row) /\
    (forall row, row ∈ mid ->
       styled (fun s => Style.opacity s = Lit "0") (dom (drain (length mid) wm).2) row) /\
    (mid <> [] ->
     (forall row, row ∈ titleRows w ->
        styled (fun s => Style.transform s
                         = TranslateYNegPx (inject_Z (v + sumZ (map (height_of (dom w)) mid))))
               (dom (drain (length mid) wm).2) row) /\
     (forall cs, contentScroll w = Some cs ->
        styled (fun s => Style.transform s
                         = TranslateYNegPx (inject_Z (v + sumZ (map (height_of (dom w)) mid))))
               (dom (drain (length mid) wm).2) cs)).
Proof.
  induction mid as [|x mid IH] using rev_ind; intros wm v Hlen Hq Ht Hcs Hv.
  { simpl. rewrite app_nil_r in Hq. split_and!; try done.
    intros row Hrow. by apply elem_of_nil in Hrow. }
  rewrite length_app. simpl. rewrite Nat.add_1_r. simpl.
  rewrite app_assoc, imap_app, <- app_assoc in Hq. simpl in Hq.
  rewrite Nat.add_0_r in Hq.
  assert (Hpick : pick (timers wm)
                  = Some (leave_timer w (length (pre ++ mid)) x,
                          imap (leave_timer w) (pre ++ mid) ++ [hide_timer w])).
  { rewrite Hq. rewrite !length_app in Hlen. simpl in Hlen.
    apply pick_last.
    - apply Forall_forall. intros t Hin.
      apply elem_of_lookup_imap in Hin as (i & y & -> & Hi).
      apply lookup_lt_Some in Hi. rewrite !length_app in *. simpl. lia.
    - simpl. rewrite !length_app. unfold ANIMATION_DURATION. lia. }
  rewrite (fire_pick _ _ _ Hpick).
  set (w1 := run_task _ _).
  assert (Hv1 : cells w1 !! length (cells w) = Some (v + height_of (dom w) x)%Z).
  { subst w1. simpl. rewrite Hv. simpl. apply list_lookup_insert_eq.
    by apply lookup_lt_Some in Hv. }
  assert (Hlen' : length (pre ++ mid) <= length (navRows w)).
  { rewrite !length_app in *. simpl in Hlen. lia. }
  destruct (IH w1 (v + height_of (dom w) x)%Z Hlen' eq_refl Ht Hcs Hv1)
    as (Hks & Hq' & Hkeep & Hgone & Hmoved).
  assert (Hx1 : forall row, styled (fun s => Style.opacity s = Lit "0") (dom wm) row ->
                  styled (fun s => Style.opacity s = Lit "0") (dom w1) row).
  { intros row Hrow. subst w1. simpl. rewrite Ht, Hcs.
    assert (H2 : styled (fun s => Style.opacity s = Lit "0")
                   (style_each
                      (Style.set_transform
                         (TranslateYNegPx (inject_Z (default 0 (cells wm !! length (cells w))
                                                     + height_of (dom w) x)%Z)))
                      (titleRows w)
                      (set_style (fun s => Style.set_opacity (Lit "0")
                                             (Style.set_transform (Lit "translateY(-100%)") s))
                                 x (dom wm))) row).
    { apply styled_each_keep; [done|]. by apply styled_set_keep. }
    destruct (contentScroll w) as [cs|]; [|exact H2]. by apply styled_set_keep. }
  assert (Hx2 : styled (fun s => Style.opacity s = Lit "0") (dom w1) x).
  { subst w1. simpl. rewrite Ht, Hcs.
    assert (H2 : styled (fun s => Style.opacity s = Lit "0")
                   (style_each
                      (Style.set_transform
                         (TranslateYNegPx (inject_Z (default 0 (cells wm !! length (cells w))
                                                     + height_of (dom w) x)%Z)))
                      (titleRows w)
                      (set_style (fun s => Style.set_opacity (Lit "0")
                                             (Style.set_transform (Lit "translateY(-100%)") s))
                                 x (dom wm))) x).
    { apply styled_each_keep; [done|]. by apply styled_set_same. }
    destruct (contentScroll w) as [cs|]; [|exact H2]. by apply styled_set_keep. }
  assert (Hmoved' :
    (forall row, row ∈ titleRows w ->
       styled (fun s => Style.transform s
                        = TranslateYNegPx
                            (inject_Z (v + sumZ (map (height_of (dom w)) (mid ++ [x])))))
              (dom (drain (length mid) w1).2) row) /\
    (forall cs, contentScroll w = Some cs ->
       styled (fun s => Style.transform s
                        = TranslateYNegPx
                            (inject_Z (v + sumZ (map (height_of (dom w)) (mid ++ [x])))))
              (dom (drain (length mid) w1).2) cs)).
  { rewrite map_app, sumZ_app. simpl.
    replace (v + (sumZ (map (height_of (dom w)) mid) + (height_of (dom w) x + 0)))%Z
      with (v + height_of (dom w) x + sumZ (map (height_of (dom w)) mid))%Z by lia.
    destruct mid as [|y mid']; [|by apply Hmoved].
    simpl. rewrite Z.add_0_r. subst w1. simpl. rewrite Ht, Hcs, Hv. simpl. split.
    - intros row Hrow.
      assert (H2 : styled (fun s => Style.transform s
                                    = TranslateYNegPx (inject_Z (v + height_of (dom w) x)))
                     (style_each
                        (Style.set_transform
                           (TranslateYNegPx (inject_Z (v + height_of (dom w) x))))
                        (titleRows w)
                        (set_style (fun s => Style.set_opacity (Lit "0")
                                               (Style.set_transform (Lit "translateY(-100%)") s))
                                   x (dom wm))) row)
        by (by apply styled_each_in).
      destruct (contentScroll w) as [cs|]; [|exact H2]. by apply styled_set_keep.
    - intros cs ->. by apply styled_set_same. }
  destruct (drain (length mid) w1) as [ks w2]. simpl in *.
  rewrite reverse_app, Hks. simpl. split_and!; try done.
  - intros row Hrow. by apply Hkeep, Hx1.
  - intros row Hrow. apply elem_of_app in Hrow as [Hrow|Hrow]; [by apply Hgone|].
    apply list_elem_of_singleton in Hrow as ->. by apply Hkeep.
Qed.

(** X16: the rows leave last first, and the movement adds up.  From a quiet
    state, for any split of the nav rows into those still staying and those
    leaving, after as many callbacks of a collapse as there are leaving rows
    exactly the leaving rows have gone, the last one first, each with
    opacity 0, and the title rows and the content are translated up by the
    sum of the heights of the rows that left. *)
Theorem collapse_accumulates (w : World) (c : string) (staying leaving : list string) :
  dynamicNavContainer w = Some c -> timers w = [] ->
  navRows w = staying ++ leaving -> leaving <> [] ->
  (drain (length leaving) (collapseNavRowsWithContentMovement w)).1
  = (fun row => RowDisappear row (height_of (dom w) row) (length (cells w)))
      <$> reverse leaving /\
  (forall row, row ∈ leaving ->
     styled (fun s => Style.opacity s = Lit "0")
            (dom (drain (length leaving) (collapseNavRowsWithContentMovement w)).2) row) /\
  (forall row, row ∈ titleRows w ->
     styled (fun s => Style.transform s
                      = TranslateYNegPx (inject_Z (sumZ (map (height_of (dom w)) leaving))))
            (dom (drain (length leaving) (collapseNavRowsWithContentMovement w)).2) row) /\
  (forall cs, contentScroll w = Some cs ->
     styled (fun s => Style.transform s
                      = TranslateYNegPx (inject_Z (sumZ (map (height_of (dom w)) leaving))))
            (dom (drain (length leaving) (collapseNavRowsWithContentMovement w)).2) cs).
Proof.
  intros Hc Hq Hrows Hne. destruct (collapse_timers w c Hc) as [Hq' Hcells].
  rewrite Hq, Hrows in Hq'. simpl in Hq'.
  destruct (collapse_same w) as (Hwire & _). unfold wiring in Hwire.
  injection Hwire as Hcs _ _ _ _ _ _ _ _ Ht.
  destruct (leaving_turns w staying leaving (collapseNavRowsWithContentMovement w) 0%Z)
    as (Hks & _ & _ & Hgone & Hmoved); try done.
  - by rewrite Hrows.
  - rewrite Hcells. by apply list_lookup_middle.
  - destruct (Hmoved Hne) as [H1 H2]. by split_and!.
Qed.

Lemma collapse_accumulates_witness :
  (drain 1 (collapseNavRowsWithContentMovement
              (run sample_world [Toggle; TimerFires; TimerFires; TimerFires]))).1
  = [RowDisappear "nav-row-2" 60 0] /\
  (forall row, row ∈ titleRows (run sample_world [Toggle; TimerFires; TimerFires; TimerFires]) ->
     styled (fun s => Style.transform s = TranslateYNegPx (inject_Z 60))
            (dom (drain 1 (collapseNavRowsWithContentMovement
                             (run sample_world [Toggle; TimerFires; TimerFires; TimerFires]))).2)
            row).
Proof.
  destruct (collapse_accumulates
              (run sample_world [Toggle; TimerFires; TimerFires; TimerFires])
              "dynamic-nav-container" ["nav-row-1"] ["nav-row-2"])
    as (Hks & _ & Hmoved & _); [vm_compute; reflexivity..|done|].
  split; [exact Hks|exact Hmoved].
Defined.

(** ** An expand started during a collapse *)








